(** * homebridge-ifeel-shutters: the shutter accessory and its hub client

    A shallow embedding of the three iterations of [IFeelShutter]
    (platformAccessory.ts) that the repository holds, of the [IFeelAPI] hub
    client and of the part of [IFeelPlatform] they read:

    - [Simple]   : no timer; the setter stores the target and posts the command;
    - [Deferred] : one [setTimeout] of 40 s that snaps both positions to one
                   hub reading;
    - [Polling]  : a [setInterval] that polls the hub until the target is
                   reached or [maxPollingTime] has been accumulated.

    JavaScript runs these handlers on one event loop.  A handler runs to
    completion; an [await]ed HTTP request or a timer suspends and is resumed
    by a later turn of the loop.  The embedding keeps that shape: a [World]
    holds the accessory object, the timers registered with the loop, the HTTP
    requests in flight with the continuation that was attached to each, and
    the trace of what the code did; an [Action] is one turn of the loop. *)

From Stdlib Require Import ZArith List Bool Lia String.
Import ListNotations.
Open Scope Z_scope.

(** ** Observable events *)

Inductive Level := Debug | Info.

(** The log lines of the sources, with the values they interpolate. *)
Inductive Message :=
| TriggeredGetCurrentPosition
| TriggeredGetTargetPosition
| TriggeredSetTargetPosition (value : Z)
| TriggeredGetPositionState
| StoppingPollingMaxTime (shutterId : Z)
| UpdatingAfterTimeout
| SendingAuthentication
| Authenticated
| PostingUnitAction (id value : Z)
| GotUnitActionResponse (status : Z)
| GettingUnitData (id : Z)
| GotUnitDataResponse (status : Z).

(** The hub endpoints [IFeelAPI] calls. *)
Inductive Request :=
| AuthLogin
| UnitsAction (id value : Z)
| GetUnitByID (id : Z).

(** What the hub answers: the [set-cookie] header of a login, the status of
    an action, the status and the [currStatus] field of a unit. *)
Inductive Response :=
| LoginResponse (cookie : string)
| ActionResponse (status : Z)
| UnitResponse (status currStatus : Z).

Inductive Characteristic := CurrentPosition | TargetPosition | PositionState.

Inductive Field := state_targetPosition | state_currentPosition.

(** HAP's [Characteristic.PositionState] constants; the first iteration of
    the accessory writes the same numbers as literals. *)
Inductive PositionStateValue := DECREASING | INCREASING | STOPPED.

Definition positionStateNumber (p : PositionStateValue) : Z :=
  match p with
  | DECREASING => 0
  | INCREASING => 1
  | STOPPED => 2
  end.

Inductive Event :=
| Log (level : Level) (message : Message)
| Http (rid : nat) (request : Request)
| Assign (field : Field) (value : Z)
| UpdateCharacteristic (c : Characteristic) (value : Z)
| SetCharacteristic (c : Characteristic) (value : Z)
| SetTimer (tid : nat)
| ClearTimer (tid : nat)
| Callback (callback : nat) (value : option Z)
| UnhandledRejection (rid : nat).

(** ** Continuations

    The function handed to [.then] at each call site of the hub client.
    [KNone] is a call whose promise is dropped ([postShutterAction] in the
    setter, [authenticate] in the re-authentication interval). *)
Inductive Kont :=
| KNone
| KSeed
| KCurrentPositionGet (callback : nat)
| KTargetPositionGet (callback : nat)
| KPositionStateGet (callback : nat)
| KTimer.

(** ** The event loop *)

Record World (S : Type) := mkWorld {
  self : S;
  timers : list nat;
  nextTimer : nat;
  pending : list (nat * (Request * Kont));
  nextReq : nat;
  sessionCookie : string;
  trace : list Event
}.

Arguments mkWorld {S}.
Arguments self {S}.
Arguments timers {S}.
Arguments nextTimer {S}.
Arguments pending {S}.
Arguments nextReq {S}.
Arguments sessionCookie {S}.
Arguments trace {S}.

Definition M (S A : Type) : Type := World S -> A * World S.

Definition ret {S A} (a : A) : M S A := fun w => (a, w).

Definition bind {S A B} (m : M S A) (k : A -> M S B) : M S B :=
  fun w => let (a, w') := m w in k a w'.

Declare Scope js_scope.
Delimit Scope js_scope with js.
Notation "x <- m ;; k" := (bind m (fun x => k))
  (at level 61, m at next level, right associativity) : js_scope.
Notation "m ;; k" := (bind m (fun _ => k))
  (at level 61, right associativity) : js_scope.
Open Scope js_scope.

Definition exec {S A} (m : M S A) (w : World S) : World S := snd (m w).

Section Primitives.
Context {S : Type}.

Definition this : M S S := fun w => (self w, w).

Definition update (f : S -> S) : M S unit := fun w =>
  (tt, mkWorld (f (self w)) (timers w) (nextTimer w) (pending w) (nextReq w)
               (sessionCookie w) (trace w)).

Definition emit (e : Event) : M S unit := fun w =>
  (tt, mkWorld (self w) (timers w) (nextTimer w) (pending w) (nextReq w)
               (sessionCookie w) (trace w ++ [e])).

Definition log (l : Level) (m : Message) : M S unit := emit (Log l m).

(** [setInterval] and [setTimeout]: a new handle, registered with the loop. *)
Definition setTimer : M S nat := fun w =>
  (nextTimer w,
   mkWorld (self w) (timers w ++ [nextTimer w]) (Datatypes.S (nextTimer w))
           (pending w) (nextReq w) (sessionCookie w)
           (trace w ++ [SetTimer (nextTimer w)])).

(** [clearInterval] and [clearTimeout]: no effect on a handle that is not
    registered any more. *)
Definition clearTimer (t : nat) : M S unit := fun w =>
  (tt, mkWorld (self w) (remove Nat.eq_dec t (timers w)) (nextTimer w)
               (pending w) (nextReq w) (sessionCookie w)
               (trace w ++ [ClearTimer t])).

(** [this.api.get] / [this.api.post]: the request leaves, the caller is
    suspended on it with continuation [k]. *)
Definition http (r : Request) (k : Kont) : M S unit := fun w =>
  (tt, mkWorld (self w) (timers w) (nextTimer w)
               (pending w ++ [(nextReq w, (r, k))]) (Datatypes.S (nextReq w))
               (sessionCookie w) (trace w ++ [Http (nextReq w) r])).

Definition storeCookie (c : string) : M S unit := fun w =>
  (tt, mkWorld (self w) (timers w) (nextTimer w) (pending w) (nextReq w)
               c (trace w)).

(** *** IFeelAPI *)

Definition authenticate : M S unit :=
  log Info SendingAuthentication ;;
  http AuthLogin KNone.

Definition postShutterAction (id value : Z) : M S unit :=
  log Info (PostingUnitAction id value) ;;
  http (UnitsAction id value) KNone.

Definition getShutterPosition (id : Z) (k : Kont) : M S unit :=
  log Info (GettingUnitData id) ;;
  http (GetUnitByID id) k.

(** *** Settling a request *)

Fixpoint lookup (rid : nat) (l : list (nat * (Request * Kont)))
  : option (Request * Kont) :=
  match l with
  | [] => None
  | (r, x) :: l' => if Nat.eqb r rid then Some x else lookup rid l'
  end.

Fixpoint drop (rid : nat) (l : list (nat * (Request * Kont)))
  : list (nat * (Request * Kont)) :=
  match l with
  | [] => []
  | (r, x) :: l' => if Nat.eqb r rid then l' else (r, x) :: drop rid l'
  end.

Definition forget (rid : nat) : M S unit := fun w =>
  (tt, mkWorld (self w) (timers w) (nextTimer w) (drop rid (pending w))
               (nextReq w) (sessionCookie w) (trace w)).

(** The hub answers request [rid].  The rest of the [async] method runs
    (its second log line, the cookie of a login), then the continuation
    the caller attached, with the value the method returns.  An answer of
    another endpoint's shape is not an answer to this request. *)
Definition fulfil (resume : Kont -> Z -> M S unit) (rid : nat)
           (resp : Response) : M S unit := fun w =>
  match lookup rid (pending w), resp with
  | Some (AuthLogin, _), LoginResponse cookie =>
      (forget rid ;; log Info Authenticated ;; storeCookie cookie) w
  | Some (UnitsAction _ _, _), ActionResponse status =>
      (forget rid ;; log Info (GotUnitActionResponse status)) w
  | Some (GetUnitByID _, k), UnitResponse status currStatus =>
      (forget rid ;; log Info (GotUnitDataResponse status) ;;
       resume k currStatus) w
  | _, _ => (tt, w)
  end.

(** The request fails: [await] throws inside the [async] method, which has
    no [try], so its promise rejects.  Every call site either drops that
    promise or chains [.then] with a fulfilment handler only, and no
    [.catch] exists in the sources: the rejection reaches no handler. *)
Definition reject (rid : nat) : M S unit := fun w =>
  match lookup rid (pending w) with
  | Some _ => (forget rid ;; emit (UnhandledRejection rid)) w
  | None => (tt, w)
  end.

(** *** One turn of the loop *)

(** What an iteration of the accessory registers with the framework and the
    loop: its four handlers, the body of its timer callback and whether that
    timer is a [setTimeout], and its [.then] continuations. *)
Record Handlers := mkHandlers {
  onCurrentPositionGet : nat -> M S unit;
  onTargetPositionGet : nat -> M S unit;
  onTargetPositionSet : Z -> nat -> M S unit;
  onPositionStateGet : nat -> M S unit;
  onTimer : M S unit;
  oneShot : bool;
  resume : Kont -> Z -> M S unit
}.

(** A turn of the loop: the framework calls a handler with a callback, a
    registered timer fires, the platform's re-authentication interval fires,
    the hub answers a request in flight or that request fails. *)
Inductive Action :=
| GetCurrentPosition (callback : nat)
| GetTargetPosition (callback : nat)
| SetTargetPosition (value : Z) (callback : nat)
| GetPositionState (callback : nat)
| Fire (tid : nat)
| Reauthenticate
| Fulfil (rid : nat) (resp : Response)
| Reject (rid : nat).

Definition expire (t : nat) : M S unit := fun w =>
  (tt, mkWorld (self w) (remove Nat.eq_dec t (timers w)) (nextTimer w)
               (pending w) (nextReq w) (sessionCookie w) (trace w)).

Definition fire (H : Handlers) (t : nat) : M S unit := fun w =>
  if existsb (Nat.eqb t) (timers w)
  then ((if oneShot H then expire t else ret tt) ;; onTimer H) w
  else (tt, w).

Definition step (H : Handlers) (a : Action) (w : World S) : World S :=
  match a with
  | GetCurrentPosition cb => exec (onCurrentPositionGet H cb) w
  | GetTargetPosition cb => exec (onTargetPositionGet H cb) w
  | SetTargetPosition v cb => exec (onTargetPositionSet H v cb) w
  | GetPositionState cb => exec (onPositionStateGet H cb) w
  | Fire t => exec (fire H t) w
  | Reauthenticate => exec authenticate w
  | Fulfil rid resp => exec (fulfil (resume H) rid resp) w
  | Reject rid => exec (reject rid) w
  end.

Definition run (H : Handlers) (l : list Action) (w : World S) : World S :=
  fold_left (fun w a => step H a w) l w.

(** The loop before the accessory has done anything. *)
Definition boot (s : S) : World S :=
  mkWorld s [] 0%nat [] 0%nat EmptyString [].
End Primitives.

Arguments Handlers : clear implicits.

(** ** IFeelPlatform: the configuration the accessory reads *)

Record IFeelPlatform := mkPlatform {
  pollingInterval : Z;
  maxPollingTime : Z
}.

(** [config['pollingInterval'] ? parseInt(config['pollingInterval']) * 1000 : 2500]
    and [maxPollingTime = 1000 * 60], for an entry that is missing or is a
    whole number of seconds, below 10^21 in size, where [parseInt] gives the
    number back.  A missing entry and the number 0 are both falsy.  Entries
    that are strings or fractions are outside this definition. *)
Definition newPlatform (config_pollingInterval : option Z) : IFeelPlatform :=
  mkPlatform
    (match config_pollingInterval with
     | Some seconds => if seconds =? 0 then 2500 else seconds * 1000
     | None => 2500
     end)
    (1000 * 60).

Definition defaultPlatform : IFeelPlatform := newPlatform None.

(** ** The polling iteration of the accessory *)

Module Polling.

Record ShutterState := mkState {
  targetPosition : Z;
  currentPosition : Z
}.

Record IFeelShutter := mkShutter {
  platform : IFeelPlatform;
  shutterId : Z;
  updateTargetInterval : option nat;
  intervalDurationSum : Z;
  state : ShutterState
}.

Definition set_updateTargetInterval (h : option nat) (o : IFeelShutter) :=
  mkShutter (platform o) (shutterId o) h (intervalDurationSum o) (state o).

Definition set_intervalDurationSum (n : Z) (o : IFeelShutter) :=
  mkShutter (platform o) (shutterId o) (updateTargetInterval o) n (state o).

Definition set_targetPosition (v : Z) (o : IFeelShutter) :=
  mkShutter (platform o) (shutterId o) (updateTargetInterval o)
            (intervalDurationSum o)
            (mkState v (currentPosition (state o))).

Definition set_currentPosition (v : Z) (o : IFeelShutter) :=
  mkShutter (platform o) (shutterId o) (updateTargetInterval o)
            (intervalDurationSum o)
            (mkState (targetPosition (state o)) v).

Definition assignTarget (v : Z) : M IFeelShutter unit :=
  update (set_targetPosition v) ;; emit (Assign state_targetPosition v).

Definition assignCurrent (v : Z) : M IFeelShutter unit :=
  update (set_currentPosition v) ;; emit (Assign state_currentPosition v).

Definition calculateCurrentPositionState (o : IFeelShutter)
  : PositionStateValue :=
  if currentPosition (state o) >? targetPosition (state o) then DECREASING
  else if currentPosition (state o) <? targetPosition (state o) then INCREASING
  else STOPPED.

Definition clearIntervalSafe : M IFeelShutter unit :=
  o <- this ;;
  match updateTargetInterval o with
  | Some t => clearTimer t ;; update (set_updateTargetInterval None)
  | None => ret tt
  end.

(** The constructor's last statement and its [.then]. *)
Definition seed (position : Z) : M IFeelShutter unit :=
  assignCurrent position ;;
  assignTarget position.

Definition handleCurrentPositionGet (callback : nat) : M IFeelShutter unit :=
  log Debug TriggeredGetCurrentPosition ;;
  o <- this ;;
  getShutterPosition (shutterId o) (KCurrentPositionGet callback).

Definition currentPositionRead (callback : nat) (position : Z)
  : M IFeelShutter unit :=
  assignCurrent position ;;
  o <- this ;;
  (match updateTargetInterval o with
   | None =>
       if negb (currentPosition (state o) =? targetPosition (state o)) then
         assignTarget position ;;
         emit (UpdateCharacteristic TargetPosition position) ;;
         o' <- this ;;
         emit (UpdateCharacteristic PositionState
                 (positionStateNumber (calculateCurrentPositionState o')))
       else ret tt
   | Some _ => ret tt
   end) ;;
  emit (Callback callback (Some position)).

Definition handleTargetPositionGet (callback : nat) : M IFeelShutter unit :=
  log Debug TriggeredGetTargetPosition ;;
  o <- this ;;
  getShutterPosition (shutterId o) (KTargetPositionGet callback).

Definition targetPositionRead (callback : nat) (position : Z)
  : M IFeelShutter unit :=
  assignCurrent position ;;
  emit (UpdateCharacteristic CurrentPosition position) ;;
  o <- this ;;
  (match updateTargetInterval o with
   | None =>
       if negb (currentPosition (state o) =? targetPosition (state o)) then
         assignTarget position ;;
         o' <- this ;;
         emit (UpdateCharacteristic PositionState
                 (positionStateNumber (calculateCurrentPositionState o')))
       else ret tt
   | Some _ => ret tt
   end) ;;
  o'' <- this ;;
  emit (Callback callback (Some (targetPosition (state o'')))).

(** The body of the [setInterval] callback and of its [.then]. *)
Definition tick : M IFeelShutter unit :=
  o <- this ;;
  getShutterPosition (shutterId o) KTimer.

Definition pollRead (position : Z) : M IFeelShutter unit :=
  o <- this ;;
  update (set_intervalDurationSum
            (intervalDurationSum o + pollingInterval (platform o))) ;;
  assignCurrent position ;;
  o1 <- this ;;
  emit (UpdateCharacteristic CurrentPosition (currentPosition (state o1))) ;;
  emit (UpdateCharacteristic PositionState
          (positionStateNumber (calculateCurrentPositionState o1))) ;;
  (if intervalDurationSum o1 >=? maxPollingTime (platform o1) then
     log Info (StoppingPollingMaxTime (shutterId o1)) ;;
     clearIntervalSafe
   else ret tt) ;;
  o2 <- this ;;
  (if currentPosition (state o2) =? targetPosition (state o2) then
     clearIntervalSafe
   else ret tt).

Definition handleTargetPositionSet (value : Z) (callback : nat)
  : M IFeelShutter unit :=
  log Debug (TriggeredSetTargetPosition value) ;;
  assignTarget value ;;
  o <- this ;;
  postShutterAction (shutterId o) value ;;
  update (set_intervalDurationSum 0) ;;
  clearIntervalSafe ;;
  t <- setTimer ;;
  update (set_updateTargetInterval (Some t)) ;;
  emit (Callback callback None).

Definition handlePositionStateGet (callback : nat) : M IFeelShutter unit :=
  log Debug TriggeredGetPositionState ;;
  o <- this ;;
  getShutterPosition (shutterId o) (KPositionStateGet callback).

Definition positionStateRead (callback : nat) (position : Z)
  : M IFeelShutter unit :=
  assignCurrent position ;;
  o <- this ;;
  emit (Callback callback
          (Some (positionStateNumber (calculateCurrentPositionState o)))).

Definition continue (k : Kont) (position : Z) : M IFeelShutter unit :=
  match k with
  | KNone => ret tt
  | KSeed => seed position
  | KCurrentPositionGet cb => currentPositionRead cb position
  | KTargetPositionGet cb => targetPositionRead cb position
  | KPositionStateGet cb => positionStateRead cb position
  | KTimer => pollRead position
  end.

Definition handlers : Handlers IFeelShutter :=
  mkHandlers handleCurrentPositionGet handleTargetPositionGet
             handleTargetPositionSet handlePositionStateGet
             tick false continue.

(** [new IFeelShutter(platform, accessory, shutterId)]: the fields'
    initialisers, then the seed read. *)
Definition constructor (p : IFeelPlatform) (id : Z) : World IFeelShutter :=
  exec (getShutterPosition id KSeed)
       (boot (mkShutter p id None 0 (mkState 0 0))).

Definition step := step handlers.
Definition run := run handlers.

End Polling.

(** ** The deferred-check iteration (src/platformAccessory.ts) *)

Module Deferred.

Record ShutterState := mkState {
  targetPosition : Z;
  currentPosition : Z
}.

Record IFeelShutter := mkShutter {
  shutterId : Z;
  updateTargetPositionTimeout : option nat;
  state : ShutterState
}.

Definition set_updateTargetPositionTimeout (h : option nat)
           (o : IFeelShutter) :=
  mkShutter (shutterId o) h (state o).

Definition set_targetPosition (v : Z) (o : IFeelShutter) :=
  mkShutter (shutterId o) (updateTargetPositionTimeout o)
            (mkState v (currentPosition (state o))).

Definition set_currentPosition (v : Z) (o : IFeelShutter) :=
  mkShutter (shutterId o) (updateTargetPositionTimeout o)
            (mkState (targetPosition (state o)) v).

Definition assignTarget (v : Z) : M IFeelShutter unit :=
  update (set_targetPosition v) ;; emit (Assign state_targetPosition v).

Definition assignCurrent (v : Z) : M IFeelShutter unit :=
  update (set_currentPosition v) ;; emit (Assign state_currentPosition v).

Definition calculateCurrentPositionState (o : IFeelShutter)
  : PositionStateValue :=
  if currentPosition (state o) >? targetPosition (state o) then DECREASING
  else if currentPosition (state o) <? targetPosition (state o) then INCREASING
  else STOPPED.

Definition seed (position : Z) : M IFeelShutter unit :=
  assignCurrent position ;;
  assignTarget position.

Definition handleCurrentPositionGet (callback : nat) : M IFeelShutter unit :=
  log Debug TriggeredGetCurrentPosition ;;
  o <- this ;;
  getShutterPosition (shutterId o) (KCurrentPositionGet callback).

Definition currentPositionRead (callback : nat) (position : Z)
  : M IFeelShutter unit :=
  assignCurrent position ;;
  emit (Callback callback (Some position)).

Definition handleTargetPositionGet (callback : nat) : M IFeelShutter unit :=
  log Debug TriggeredGetTargetPosition ;;
  o <- this ;;
  emit (Callback callback (Some (targetPosition (state o)))).

(** The body of the [setTimeout] callback and of its [.then]. *)
Definition timeout : M IFeelShutter unit :=
  o <- this ;;
  getShutterPosition (shutterId o) KTimer.

Definition timeoutRead (position : Z) : M IFeelShutter unit :=
  log Info UpdatingAfterTimeout ;;
  assignCurrent position ;;
  assignTarget position ;;
  o <- this ;;
  emit (SetCharacteristic PositionState
          (positionStateNumber (calculateCurrentPositionState o))).

Definition handleTargetPositionSet (value : Z) (callback : nat)
  : M IFeelShutter unit :=
  log Debug (TriggeredSetTargetPosition value) ;;
  assignTarget value ;;
  o <- this ;;
  postShutterAction (shutterId o) value ;;
  (match updateTargetPositionTimeout o with
   | Some t => clearTimer t
   | None => ret tt
   end) ;;
  t <- setTimer ;;
  update (set_updateTargetPositionTimeout (Some t)) ;;
  emit (Callback callback None).

Definition handlePositionStateGet (callback : nat) : M IFeelShutter unit :=
  log Debug TriggeredGetPositionState ;;
  o <- this ;;
  getShutterPosition (shutterId o) (KPositionStateGet callback).

Definition positionStateRead (callback : nat) (position : Z)
  : M IFeelShutter unit :=
  assignCurrent position ;;
  o <- this ;;
  emit (Callback callback
          (Some (positionStateNumber (calculateCurrentPositionState o)))).

(** This iteration has no [.then] of [KTargetPositionGet]: its target
    getter issues no read. *)
Definition continue (k : Kont) (position : Z) : M IFeelShutter unit :=
  match k with
  | KNone => ret tt
  | KSeed => seed position
  | KCurrentPositionGet cb => currentPositionRead cb position
  | KTargetPositionGet _ => ret tt
  | KPositionStateGet cb => positionStateRead cb position
  | KTimer => timeoutRead position
  end.

Definition handlers : Handlers IFeelShutter :=
  mkHandlers handleCurrentPositionGet handleTargetPositionGet
             handleTargetPositionSet handlePositionStateGet
             timeout true continue.

Definition constructor (id : Z) : World IFeelShutter :=
  exec (getShutterPosition id KSeed)
       (boot (mkShutter id None (mkState 0 0))).

Definition step := step handlers.
Definition run := run handlers.

End Deferred.

(** ** The first iteration: no timer, no seed *)

Module Simple.

Record ShutterState := mkState {
  targetPosition : Z;
  currentPosition : Z
}.

Record IFeelShutter := mkShutter {
  shutterId : Z;
  state : ShutterState
}.

Definition set_targetPosition (v : Z) (o : IFeelShutter) :=
  mkShutter (shutterId o) (mkState v (currentPosition (state o))).

Definition set_currentPosition (v : Z) (o : IFeelShutter) :=
  mkShutter (shutterId o) (mkState (targetPosition (state o)) v).

Definition assignTarget (v : Z) : M IFeelShutter unit :=
  update (set_targetPosition v) ;; emit (Assign state_targetPosition v).

Definition assignCurrent (v : Z) : M IFeelShutter unit :=
  update (set_currentPosition v) ;; emit (Assign state_currentPosition v).

Definition handleCurrentPositionGet (callback : nat) : M IFeelShutter unit :=
  log Debug TriggeredGetCurrentPosition ;;
  o <- this ;;
  getShutterPosition (shutterId o) (KCurrentPositionGet callback).

Definition currentPositionRead (callback : nat) (position : Z)
  : M IFeelShutter unit :=
  assignCurrent position ;;
  emit (Callback callback (Some position)).

Definition handleTargetPositionGet (callback : nat) : M IFeelShutter unit :=
  log Debug TriggeredGetTargetPosition ;;
  o <- this ;;
  emit (Callback callback (Some (targetPosition (state o)))).

Definition handleTargetPositionSet (value : Z) (callback : nat)
  : M IFeelShutter unit :=
  log Debug (TriggeredSetTargetPosition value) ;;
  assignTarget value ;;
  o <- this ;;
  postShutterAction (shutterId o) value ;;
  emit (Callback callback None).

Definition handlePositionStateGet (callback : nat) : M IFeelShutter unit :=
  log Debug TriggeredGetPositionState ;;
  o <- this ;;
  getShutterPosition (shutterId o) (KPositionStateGet callback).

(** [currentValue] of the [.then] in [handlePositionStateGet]. *)
Definition currentValue (o : IFeelShutter) : Z :=
  if currentPosition (state o) >? targetPosition (state o) then 0
  else if currentPosition (state o) <? targetPosition (state o) then 1
  else 2.

Definition positionStateRead (callback : nat) (position : Z)
  : M IFeelShutter unit :=
  assignCurrent position ;;
  o <- this ;;
  emit (Callback callback (Some (currentValue o))).

Definition continue (k : Kont) (position : Z) : M IFeelShutter unit :=
  match k with
  | KCurrentPositionGet cb => currentPositionRead cb position
  | KPositionStateGet cb => positionStateRead cb position
  | _ => ret tt
  end.

(** No timer is ever set: [onTimer] is never reached. *)
Definition handlers : Handlers IFeelShutter :=
  mkHandlers handleCurrentPositionGet handleTargetPositionGet
             handleTargetPositionSet handlePositionStateGet
             (ret tt) true continue.

Definition constructor (id : Z) : World IFeelShutter :=
  boot (mkShutter id (mkState 0 0)).

Definition step := step handlers.
Definition run := run handlers.

End Simple.

(** ** IFeelPlatform: launch, cache and discovery *)

Module Platform.

(** A unit of [units/listUnits], as far as [discoverDevices] reads it. *)
Record UnitData := mkUnit {
  unit_id : Z;
  unit_name : string;
  unit_type : string
}.

(** [{id: unitData.id, displayName: unitData.name}] *)
Record Device := mkDevice {
  id : Z;
  displayName : string
}.

(** A [PlatformAccessory], as far as the platform reads and writes it. *)
Record PlatformAccessory := mkAccessory {
  accessory_displayName : string;
  UUID : string;
  context_device : option Device
}.

Inductive Message :=
| FinishedInitializing
| ExecutedDidFinishLaunching
| LoadingFromCache (displayName : string)
| RestoringExisting (displayName : string)
| AddingNew (displayName : string)
| SendingAuthentication
| Authenticated
| GettingAllUnits
| GotAllUnits (status : Z).

Inductive Request := AuthLogin | ListUnits.

(** What is chained on a request of the platform: [discoverDevices] on the
    launch authentication, nothing on a re-authentication, the registration
    loop on the list of units. *)
Inductive Then := ThenDiscoverDevices | ThenNothing | ThenRegister.

Inductive Event :=
| Log (level : Level) (message : Message)
| Http (rid : nat) (request : Request)
| SetInterval
| NewIFeelShutter (accessory : PlatformAccessory) (shutterId : Z)
| RegisterPlatformAccessories (accessories : list PlatformAccessory)
| UnhandledRejection (rid : nat).

(** The part of the platform object that changes after construction: the
    cache of restored accessories, the re-authentication intervals set, the
    requests of the hub client in flight and its cookie. *)
Record IFeelPlatform := mkPlatform {
  accessories : list PlatformAccessory;
  intervals : nat;
  pending : list (nat * (Request * Then));
  nextReq : nat;
  sessionCookie : string;
  trace : list Event
}.

Definition emit (e : Event) (s : IFeelPlatform) : IFeelPlatform :=
  mkPlatform (accessories s) (intervals s) (pending s) (nextReq s)
             (sessionCookie s) (trace s ++ [e]).

Definition send (r : Request) (k : Then) (s : IFeelPlatform) : IFeelPlatform :=
  mkPlatform (accessories s) (intervals s)
             (pending s ++ [(nextReq s, (r, k))]) (Datatypes.S (nextReq s))
             (sessionCookie s) (trace s ++ [Http (nextReq s) r]).

(** [IFeelAPI.authenticate], up to its [await]. *)
Definition authenticate (k : Then) (s : IFeelPlatform) : IFeelPlatform :=
  send AuthLogin k (emit (Log Info SendingAuthentication) s).

(** [IFeelAPI.getShuttersData], up to its [await]. *)
Definition getShuttersData (k : Then) (s : IFeelPlatform) : IFeelPlatform :=
  send ListUnits k (emit (Log Info GettingAllUnits) s).

Definition constructor : IFeelPlatform :=
  emit (Log Debug FinishedInitializing)
       (mkPlatform [] 0%nat [] 0%nat EmptyString []).

Definition configureAccessory (accessory : PlatformAccessory)
           (s : IFeelPlatform) : IFeelPlatform :=
  let s1 := emit (Log Info (LoadingFromCache (accessory_displayName accessory)))
                 s in
  mkPlatform (accessories s1 ++ [accessory]) (intervals s1) (pending s1)
             (nextReq s1) (sessionCookie s1) (trace s1).

(** The listener of [didFinishLaunching]. *)
Definition didFinishLaunching (s : IFeelPlatform) : IFeelPlatform :=
  let s1 := emit (Log Debug ExecutedDidFinishLaunching) s in
  let s2 := authenticate ThenDiscoverDevices s1 in
  emit SetInterval
       (mkPlatform (accessories s2) (Datatypes.S (intervals s2)) (pending s2)
                   (nextReq s2) (sessionCookie s2) (trace s2)).

(** The callback of the re-authentication interval. *)
Definition reauthenticate (s : IFeelPlatform) : IFeelPlatform :=
  match intervals s with
  | O => s
  | Datatypes.S _ => authenticate ThenNothing s
  end.

Definition discoverDevices (s : IFeelPlatform) : IFeelPlatform :=
  getShuttersData ThenRegister s.

Section Discovery.

(** [this.api.hap.uuid.generate(device.id.toString())], of HAP-NodeJS. *)
Variable generate : Z -> string.

Definition devices (data : list UnitData) : list Device :=
  map (fun unitData => mkDevice (unit_id unitData) (unit_name unitData))
      (filter (fun unitData => String.eqb (unit_type unitData) "shutter") data).

(** [new IFeelShutter(platform, accessory, id)] names its service after
    [accessory.context.device.displayName]: on an accessory that carries no
    [context.device] that is a TypeError, and the constructor does not
    return. *)
Definition constructs (accessory : PlatformAccessory) : bool :=
  match context_device accessory with
  | Some _ => true
  | None => false
  end.

(** One turn of the [for] loop of [discoverDevices]: what it does, and
    whether it came to its end ([false] when the constructor threw). *)
Definition registerDevice (cache : list PlatformAccessory) (device : Device)
  : list Event * bool :=
  let uuid := generate (id device) in
  match find (fun accessory => String.eqb (UUID accessory) uuid) cache with
  | Some existingAccessory =>
      if constructs existingAccessory then
        ([Log Info (RestoringExisting
                      (accessory_displayName existingAccessory));
          NewIFeelShutter existingAccessory (id device)], true)
      else
        ([Log Info (RestoringExisting
                      (accessory_displayName existingAccessory))], false)
  | None =>
      let accessory := mkAccessory (displayName device) uuid (Some device) in
      ([Log Info (AddingNew (displayName device));
        NewIFeelShutter accessory (id device);
        RegisterPlatformAccessories [accessory]], true)
  end.

(** The [for] loop.  An exception leaves it and rejects the promise of the
    [.then] it runs in, the one chained on request [rid]; nothing handles
    that rejection. *)
Fixpoint registerLoop (rid : nat) (cache : list PlatformAccessory)
         (ds : list Device) : list Event :=
  match ds with
  | [] => []
  | device :: rest =>
      let (events, completed) := registerDevice cache device in
      events ++ (if completed then registerLoop rid cache rest
                 else [UnhandledRejection rid])
  end.

(** The [.then] of [getShuttersData] in [discoverDevices]. *)
Definition registerDevices (rid : nat) (data : list UnitData)
           (s : IFeelPlatform) : IFeelPlatform :=
  mkPlatform (accessories s) (intervals s) (pending s) (nextReq s)
             (sessionCookie s)
             (trace s ++ registerLoop rid (accessories s) (devices data)).

Fixpoint lookup (rid : nat) (l : list (nat * (Request * Then)))
  : option (Request * Then) :=
  match l with
  | [] => None
  | (r, x) :: l' => if Nat.eqb r rid then Some x else lookup rid l'
  end.

Fixpoint drop (rid : nat) (l : list (nat * (Request * Then)))
  : list (nat * (Request * Then)) :=
  match l with
  | [] => []
  | (r, x) :: l' => if Nat.eqb r rid then l' else (r, x) :: drop rid l'
  end.

Definition forget (rid : nat) (s : IFeelPlatform) : IFeelPlatform :=
  mkPlatform (accessories s) (intervals s) (drop rid (pending s)) (nextReq s)
             (sessionCookie s) (trace s).

Definition storeCookie (c : string) (s : IFeelPlatform) : IFeelPlatform :=
  mkPlatform (accessories s) (intervals s) (pending s) (nextReq s) c (trace s).

Inductive Action :=
| ConfigureAccessory (accessory : PlatformAccessory)
| DidFinishLaunching
| ReauthenticationTick
| LoginAnswer (rid : nat) (cookie : string)
| ListAnswer (rid : nat) (status : Z) (data : list UnitData)
| Failure (rid : nat).

(** The hub answers a login: the rest of [authenticate] runs, then what was
    chained on it. *)
Definition loginAnswer (rid : nat) (cookie : string) (s : IFeelPlatform)
  : IFeelPlatform :=
  match lookup rid (pending s) with
  | Some (AuthLogin, k) =>
      let s1 := storeCookie cookie
                  (emit (Log Info Authenticated) (forget rid s)) in
      match k with
      | ThenDiscoverDevices => discoverDevices s1
      | _ => s1
      end
  | _ => s
  end.

(** The hub answers [units/listUnits]: the rest of [getShuttersData] runs,
    then the registration loop. *)
Definition listAnswer (rid : nat) (status : Z) (data : list UnitData)
           (s : IFeelPlatform) : IFeelPlatform :=
  match lookup rid (pending s) with
  | Some (ListUnits, k) =>
      let s1 := emit (Log Info (GotAllUnits status)) (forget rid s) in
      match k with
      | ThenRegister => registerDevices rid data s1
      | _ => s1
      end
  | _ => s
  end.

(** A request fails: neither the launch nor the interval nor
    [discoverDevices] chains a rejection handler. *)
Definition failure (rid : nat) (s : IFeelPlatform) : IFeelPlatform :=
  match lookup rid (pending s) with
  | Some _ => emit (UnhandledRejection rid) (forget rid s)
  | None => s
  end.

Definition step (a : Action) (s : IFeelPlatform) : IFeelPlatform :=
  match a with
  | ConfigureAccessory accessory => configureAccessory accessory s
  | DidFinishLaunching => didFinishLaunching s
  | ReauthenticationTick => reauthenticate s
  | LoginAnswer rid cookie => loginAnswer rid cookie s
  | ListAnswer rid status data => listAnswer rid status data s
  | Failure rid => failure rid s
  end.

Definition run (l : list Action) (s : IFeelPlatform) : IFeelPlatform :=
  fold_left (fun s a => step a s) l s.

End Discovery.

(** What a trace registered with the framework, and the handlers it made. *)
Definition registered (l : list Event) : list PlatformAccessory :=
  flat_map (fun e => match e with
                     | RegisterPlatformAccessories accs => accs
                     | _ => []
                     end) l.

Definition shutters (l : list Event) : list (PlatformAccessory * Z) :=
  flat_map (fun e => match e with
                     | NewIFeelShutter accessory shutterId =>
                         [(accessory, shutterId)]
                     | _ => []
                     end) l.

Definition listRequests (l : list Event) : nat :=
  List.length (filter (fun e => match e with
                                | Http _ ListUnits => true
                                | _ => false
                                end) l).

Definition cached (uuid : string) (cache : list PlatformAccessory) : bool :=
  existsb (fun accessory => String.eqb (UUID accessory) uuid) cache.

Definition isLaunch (a : Action) : bool :=
  match a with DidFinishLaunching => true | _ => false end.

(** What the turns from [s] to [s'] added to the trace. *)
Definition emitted (s s' : IFeelPlatform) : list Event :=
  skipn (List.length (trace s)) (trace s').

(** Request numbers given out are below the next one. *)
Definition wf (s : IFeelPlatform) : Prop :=
  forall r x, In (r, x) (pending s) -> (r < nextReq s)%nat.

(** Nothing that leads to discovery is in flight and none has happened. *)
Definition undiscovered (s : IFeelPlatform) : Prop :=
  (forall r x, In (r, x) (pending s) -> x = (AuthLogin, ThenNothing)) /\
  shutters (trace s) = [] /\
  registered (trace s) = [] /\
  listRequests (trace s) = 0%nat.

(** The accessory [registerDevice] makes for a device that is not cached. *)
Definition newAccessory (generate : Z -> string) (device : Device)
  : PlatformAccessory :=
  mkAccessory (displayName device) (generate (id device)) (Some device).

(** A device the loop gets past: it is not cached, or the first cached
    accessory with its UUID carries a [context.device]. *)
Definition restorable (generate : Z -> string)
           (cache : list PlatformAccessory) (device : Device) : bool :=
  match find (fun accessory =>
                String.eqb (UUID accessory) (generate (id device))) cache with
  | Some existingAccessory => constructs existingAccessory
  | None => true
  end.

(** The devices the loop handles: those before the first it does not get
    past. *)
Fixpoint handled (generate : Z -> string) (cache : list PlatformAccessory)
         (ds : list Device) : list Device :=
  match ds with
  | [] => []
  | device :: rest =>
      if restorable generate cache device
      then device :: handled generate cache rest
      else []
  end.

End Platform.

(** * The vocabulary of the statements *)

(** What the turns of the loop from [w] to [w'] added to the trace. *)
Definition emitted {S} (w w' : World S) : list Event :=
  skipn (List.length (trace w)) (trace w').

Definition isLog (e : Event) : bool :=
  match e with Log _ _ => true | _ => false end.

Definition isCallback (e : Event) : bool :=
  match e with Callback _ _ => true | _ => false end.

(** What clearing the handle [h] does: nothing when it is null. *)
Definition handle_events (h : option nat) : list Event :=
  match h with Some t => [ClearTimer t] | None => [] end.

(** The timers a handle stands for. *)
Definition handle_timers (h : option nat) : list nat :=
  match h with Some t => [t] | None => [] end.

(** The registered timers once the handle [h] has been cleared. *)
Definition timers_without (h : option nat) (l : list nat) : list nat :=
  match h with Some t => remove Nat.eq_dec t l | None => l end.

(** The loop holds the timer the accessory holds a handle of, and no other;
    handles and request numbers already given out are below the next ones. *)
Definition Polling_wf (w : World Polling.IFeelShutter) : Prop :=
  timers w = handle_timers (Polling.updateTargetInterval (self w)) /\
  (forall t, In t (timers w) -> (t < nextTimer w)%nat) /\
  (forall rid x, In (rid, x) (pending w) -> (rid < nextReq w)%nat).

(** A timeout that has fired leaves its handle behind in the accessory. *)
Definition Deferred_wf (w : World Deferred.IFeelShutter) : Prop :=
  (timers w = [] \/
   timers w = handle_timers (Deferred.updateTargetPositionTimeout (self w))) /\
  (forall t, In t (timers w) -> (t < nextTimer w)%nat) /\
  (forall rid x, In (rid, x) (pending w) -> (rid < nextReq w)%nat).

(** The line logged when [maxPollingTime] has been reached. *)
Definition isCapLog (e : Event) : bool :=
  match e with Log Info (StoppingPollingMaxTime _) => true | _ => false end.

Definition cap_logs (l : list Event) : nat := List.length (filter isCapLog l).

(** One interval of a session: timer [t] fires and the hub answers the read
    it sends with [position] before the timer fires again.  In a world where
    [t] is not registered nothing is sent and nothing is answered. *)
Definition poll_round (t : nat) (position : Z) (w : World Polling.IFeelShutter)
  : World Polling.IFeelShutter :=
  Polling.step (Fulfil (nextReq w) (UnitResponse 200 position))
               (Polling.step (Fire t) w).

Definition poll_rounds (t : nat) (positions : list Z)
           (w : World Polling.IFeelShutter) : World Polling.IFeelShutter :=
  fold_left (fun w position => poll_round t position w) positions w.

(** A session on timer [t] towards target [v] after [k] answered ticks: still
    polling while [k] intervals are below the cap, stopped afterwards with
    one more cap line in the log than the [c] it started with. *)
Definition Polling_session (p : IFeelPlatform) (t : nat) (v : Z) (c : nat)
           (k : Z) (w : World Polling.IFeelShutter) : Prop :=
  (forall rid x, In (rid, x) (pending w) -> (rid < nextReq w)%nat) /\
  Polling.platform (self w) = p /\
  Polling.targetPosition (Polling.state (self w)) = v /\
  if k * pollingInterval p <? maxPollingTime p
  then timers w = [t] /\
       Polling.updateTargetInterval (self w) = Some t /\
       Polling.intervalDurationSum (self w) = k * pollingInterval p /\
       cap_logs (trace w) = c
  else timers w = [] /\
       Polling.updateTargetInterval (self w) = None /\
       cap_logs (trace w) = Datatypes.S c.

(** The turns of the loop in which no hub read succeeds and no new target is
    set: handler calls other than the setter, timers firing, re-authentication,
    failures of any request, answers to requests other than unit reads. *)
Definition no_read_succeeds (a : Action) : bool :=
  match a with
  | Fulfil _ (UnitResponse _ _) => false
  | SetTargetPosition _ _ => false
  | _ => true
  end.

(** A session on timer [t] that has accumulated nothing. *)
Definition Polling_stalled (t : nat) (c : nat)
           (w : World Polling.IFeelShutter) : Prop :=
  timers w = [t] /\
  Polling.updateTargetInterval (self w) = Some t /\
  Polling.intervalDurationSum (self w) = 0 /\
  cap_logs (trace w) = c.

(** The callback a continuation will call. *)
Definition kont_callback (k : Kont) : option nat :=
  match k with
  | KCurrentPositionGet cb | KTargetPositionGet cb | KPositionStateGet cb =>
      Some cb
  | _ => None
  end.

(** The callback a handler call is given. *)
Definition action_callback (a : Action) : option nat :=
  match a with
  | GetCurrentPosition cb | GetTargetPosition cb | SetTargetPosition _ cb
  | GetPositionState cb => Some cb
  | _ => None
  end.

Definition isCallbackOf (cb : nat) (e : Event) : bool :=
  match e with Callback c _ => Nat.eqb c cb | _ => false end.

(** How many times callback [cb] has been called. *)
Definition invocations (cb : nat) (l : list Event) : nat :=
  List.length (filter (isCallbackOf cb) l).

(** No request in flight carries callback [cb]. *)
Definition unused {S} (cb : nat) (w : World S) : Prop :=
  forall r x, In (r, x) (pending w) -> kont_callback (snd x) <> Some cb.

(** A turn of the loop that neither answers request [rid] nor is a handler
    call that was given callback [cb]. *)
Definition other_turn (cb rid : nat) (a : Action) : bool :=
  match a with
  | Fulfil r _ => negb (Nat.eqb r rid)
  | _ => match action_callback a with
         | Some c => negb (Nat.eqb c cb)
         | None => true
         end
  end.

(** [cb] has been called [n] times and only request [rid] may still carry
    it. *)
Definition waiting {S} (cb rid n : nat) (w : World S) : Prop :=
  invocations cb (trace w) = n /\
  forall r x, In (r, x) (pending w) ->
              kont_callback (snd x) = Some cb -> r = rid.

(** The read a getter sends. *)
Definition getter_kont (a : Action) : Kont :=
  match a with
  | GetCurrentPosition cb => KCurrentPositionGet cb
  | GetTargetPosition cb => KTargetPositionGet cb
  | GetPositionState cb => KPositionStateGet cb
  | _ => KNone
  end.

(** The range of a HomeKit position. *)
Definition percentage (x : Z) : bool := (0 <=? x) && (x <=? 100).

(** Turns of the loop whose value, when they bring one (a target to set, a
    position read from the hub), is a percentage. *)
Definition brings_percentage (a : Action) : bool :=
  match a with
  | SetTargetPosition value _ => percentage value
  | Fulfil _ (UnitResponse _ currStatus) => percentage currStatus
  | _ => true
  end.

Definition Polling_bounded (w : World Polling.IFeelShutter) : Prop :=
  0 <= Polling.targetPosition (Polling.state (self w)) <= 100 /\
  0 <= Polling.currentPosition (Polling.state (self w)) <= 100.

Definition Deferred_bounded (w : World Deferred.IFeelShutter) : Prop :=
  0 <= Deferred.targetPosition (Deferred.state (self w)) <= 100 /\
  0 <= Deferred.currentPosition (Deferred.state (self w)) <= 100.

Definition Simple_bounded (w : World Simple.IFeelShutter) : Prop :=
  0 <= Simple.targetPosition (Simple.state (self w)) <= 100 /\
  0 <= Simple.currentPosition (Simple.state (self w)) <= 100.

(** The operations that send one request to the hub when they are called:
    the re-authentication interval of [IFeelPlatform], the setter (its
    command) and the getters that read; [resync] tells whether the target
    getter is one of them. *)
Definition sends_request (resync : bool) (a : Action) : bool :=
  match a with
  | Reauthenticate => true
  | GetCurrentPosition _ => true
  | GetPositionState _ => true
  | SetTargetPosition _ _ => true
  | GetTargetPosition _ => resync
  | _ => false
  end.

(** What a failure of request [rid] leaves of world [w]. *)
Definition after_failure {S} (rid : nat) (w : World S) : World S :=
  mkWorld (self w) (timers w) (nextTimer w) (drop rid (pending w)) (nextReq w)
          (sessionCookie w) (trace w ++ [UnhandledRejection rid]).

(** A turn of the loop that settles request [rid], one way or the other. *)
Definition settles (rid : nat) (a : Action) : bool :=
  match a with
  | Fulfil r _ | Reject r => Nat.eqb r rid
  | _ => false
  end.

(** The hub answering a login. *)
Definition is_login_answer (a : Action) : bool :=
  match a with
  | Fulfil _ (LoginResponse _) => true
  | _ => false
  end.

(** A turn that leaves a polling session towards [v] in order: no new
    target is set; the seed read is not answered; a poll read is answered
    only while a timer is registered, and not with [v]. *)
Definition orderly (v : Z) (w : World Polling.IFeelShutter) (a : Action)
  : bool :=
  match a with
  | SetTargetPosition _ _ => false
  | Fulfil rid (UnitResponse _ position) =>
      match lookup rid (pending w) with
      | Some (_, KTimer) =>
          negb (position =? v) &&
          match timers w with [] => false | _ :: _ => true end
      | Some (_, KSeed) => false
      | _ => true
      end
  | _ => true
  end.

Fixpoint orderly_run (v : Z) (l : list Action)
         (w : World Polling.IFeelShutter) : bool :=
  match l with
  | [] => true
  | a :: l' => orderly v w a && orderly_run v l' (Polling.step a w)
  end.

(** A session on timer [t] towards [v], in order: polling below the cap, or
    stopped at or past the cap with the cap logged once more than the [c]
    times it had been. *)
Definition Polling_in_order (p : IFeelPlatform) (t : nat) (v : Z) (c : nat)
           (w : World Polling.IFeelShutter) : Prop :=
  Polling.platform (self w) = p /\
  ((timers w = [t] /\
    Polling.updateTargetInterval (self w) = Some t /\
    Polling.targetPosition (Polling.state (self w)) = v /\
    Polling.intervalDurationSum (self w) < maxPollingTime p /\
    cap_logs (trace w) = c) \/
   (timers w = [] /\
    Polling.updateTargetInterval (self w) = None /\
    maxPollingTime p <= Polling.intervalDurationSum (self w) /\
    cap_logs (trace w) = Datatypes.S c)).

(** The turns of the loop that neither set a target nor answer the seed
    read, request 0 of the constructor. *)
Definition before_seed (a : Action) : bool :=
  match a with
  | SetTargetPosition _ _ => false
  | Fulfil O (UnitResponse _ _) => false
  | _ => true
  end.

(** The turns of the loop that set no target. *)
Definition sets_no_target (a : Action) : bool :=
  match a with
  | SetTargetPosition _ _ => false
  | _ => true
  end.

(** In the deferred iteration, no target has been set and the seed has not
    been answered: the target is 0, no timeout is registered or has fired,
    and only request 0 can be the seed. *)
Definition Deferred_unseeded (w : World Deferred.IFeelShutter) : Prop :=
  Deferred.targetPosition (Deferred.state (self w)) = 0 /\
  timers w = [] /\
  forall r q k, In (r, (q, k)) (pending w) ->
                k <> KTimer /\ (k = KSeed -> r = 0%nat).

(** A turn that keeps the two stored positions of the polling iteration
    equal before any target is set: no target is set, and the read of
    [handlePositionStateGet], whose answer is assigned to the current
    position alone, is answered only with the stored target. *)
Definition Polling_keeps_level (w : World Polling.IFeelShutter) (a : Action)
  : bool :=
  match a with
  | SetTargetPosition _ _ => false
  | Fulfil rid (UnitResponse _ position) =>
      match lookup rid (pending w) with
      | Some (_, KPositionStateGet _) =>
          position =? Polling.targetPosition (Polling.state (self w))
      | _ => true
      end
  | _ => true
  end.

Fixpoint Polling_level_run (l : list Action)
         (w : World Polling.IFeelShutter) : bool :=
  match l with
  | [] => true
  | a :: l' => Polling_keeps_level w a && Polling_level_run l' (Polling.step a w)
  end.

(** The same in the deferred iteration, where the reads of both
    [handleCurrentPositionGet] and [handlePositionStateGet] are assigned to
    the current position alone. *)
Definition Deferred_keeps_level (w : World Deferred.IFeelShutter) (a : Action)
  : bool :=
  match a with
  | SetTargetPosition _ _ => false
  | Fulfil rid (UnitResponse _ position) =>
      match lookup rid (pending w) with
      | Some (_, KCurrentPositionGet _)
      | Some (_, KPositionStateGet _) =>
          position =? Deferred.targetPosition (Deferred.state (self w))
      | _ => true
      end
  | _ => true
  end.

Fixpoint Deferred_level_run (l : list Action)
         (w : World Deferred.IFeelShutter) : bool :=
  match l with
  | [] => true
  | a :: l' =>
      Deferred_keeps_level w a && Deferred_level_run l' (Deferred.step a w)
  end.

(** In the polling iteration no target has been set and the two stored
    positions are equal: no interval is held or registered and no poll read
    is in flight. *)
Definition Polling_level (w : World Polling.IFeelShutter) : Prop :=
  Polling.currentPosition (Polling.state (self w)) =
  Polling.targetPosition (Polling.state (self w)) /\
  Polling.updateTargetInterval (self w) = None /\
  timers w = [] /\
  forall r q, ~ In (r, (q, KTimer)) (pending w).

(** * Theorems *)

(** ** What one turn of the loop added to the trace *)

Lemma skipn_length_app {A} (l l' : list A) : skipn (List.length l) (l ++ l') = l'.
Proof. induction l; simpl; auto. Qed.

Lemma emitted_app {S} (w w' : World S) l :
  trace w' = trace w ++ l -> emitted w w' = l.
Proof. unfold emitted. intros ->. apply skipn_length_app. Qed.

(** ** The derived motion state *)

(** C1. On every pair of integer positions, [calculateCurrentPositionState]
    returns INCREASING exactly when current < target, DECREASING exactly when
    current > target and STOPPED exactly when they are equal; in the two
    iterations that have the method, and for the numbers 1, 0 and 2 that the
    first iteration computes inline in [handlePositionStateGet]. *)
Theorem calculateCurrentPositionState_spec :
  (forall o : Polling.IFeelShutter,
      let c := Polling.currentPosition (Polling.state o) in
      let t := Polling.targetPosition (Polling.state o) in
      (Polling.calculateCurrentPositionState o = INCREASING <-> c < t) /\
      (Polling.calculateCurrentPositionState o = DECREASING <-> c > t) /\
      (Polling.calculateCurrentPositionState o = STOPPED <-> c = t)) /\
  (forall o : Deferred.IFeelShutter,
      let c := Deferred.currentPosition (Deferred.state o) in
      let t := Deferred.targetPosition (Deferred.state o) in
      (Deferred.calculateCurrentPositionState o = INCREASING <-> c < t) /\
      (Deferred.calculateCurrentPositionState o = DECREASING <-> c > t) /\
      (Deferred.calculateCurrentPositionState o = STOPPED <-> c = t)) /\
  (forall o : Simple.IFeelShutter,
      let c := Simple.currentPosition (Simple.state o) in
      let t := Simple.targetPosition (Simple.state o) in
      (Simple.currentValue o = positionStateNumber INCREASING <-> c < t) /\
      (Simple.currentValue o = positionStateNumber DECREASING <-> c > t) /\
      (Simple.currentValue o = positionStateNumber STOPPED <-> c = t)).
Proof.
  repeat split; intros;
    unfold Polling.calculateCurrentPositionState,
           Deferred.calculateCurrentPositionState, Simple.currentValue in *;
    cbv zeta in *; simpl in *;
    repeat match goal with
           | H : context [if ?b then _ else _] |- _ => destruct b eqn:?
           | |- context [if ?b then _ else _] => destruct b eqn:?
           end; try discriminate; try reflexivity; try lia.
Qed.

(** ** Requests in flight *)

Lemma lookup_snoc rid x l :
  exists y, lookup rid (l ++ [(rid, x)]) = Some y.
Proof.
  induction l as [|[r y] l IH]; simpl.
  - rewrite Nat.eqb_refl. eauto.
  - destruct (Nat.eqb r rid); eauto.
Qed.

Lemma reject_pending {S} (w : World S) rid x :
  lookup rid (pending w) = Some x ->
  exec (reject rid) w =
  mkWorld (self w) (timers w) (nextTimer w) (drop rid (pending w)) (nextReq w)
          (sessionCookie w) (trace w ++ [UnhandledRejection rid]).
Proof. unfold exec, reject. intros ->. reflexivity. Qed.

(** ** The setter *)

Lemma Polling_set_world (w : World Polling.IFeelShutter) v cb :
  Polling.step (SetTargetPosition v cb) w =
  let o := self w in
  mkWorld
    (Polling.mkShutter (Polling.platform o) (Polling.shutterId o)
       (Some (nextTimer w)) 0
       (Polling.mkState v (Polling.currentPosition (Polling.state o))))
    (timers_without (Polling.updateTargetInterval o) (timers w) ++ [nextTimer w])
    (Datatypes.S (nextTimer w))
    (pending w ++ [(nextReq w, (UnitsAction (Polling.shutterId o) v, KNone))])
    (Datatypes.S (nextReq w))
    (sessionCookie w)
    (trace w ++
       [Log Debug (TriggeredSetTargetPosition v);
        Assign state_targetPosition v;
        Log Info (PostingUnitAction (Polling.shutterId o) v);
        Http (nextReq w) (UnitsAction (Polling.shutterId o) v)] ++
       handle_events (Polling.updateTargetInterval o) ++
       [SetTimer (nextTimer w); Callback cb None]).
Proof.
  destruct w as [[p id h sum [tg cu]] ts nt pd nr ck tr].
  destruct h; cbn; repeat rewrite <- app_assoc; reflexivity.
Qed.

Lemma Deferred_set_world (w : World Deferred.IFeelShutter) v cb :
  Deferred.step (SetTargetPosition v cb) w =
  let o := self w in
  mkWorld
    (Deferred.mkShutter (Deferred.shutterId o) (Some (nextTimer w))
       (Deferred.mkState v (Deferred.currentPosition (Deferred.state o))))
    (timers_without (Deferred.updateTargetPositionTimeout o) (timers w)
       ++ [nextTimer w])
    (Datatypes.S (nextTimer w))
    (pending w ++ [(nextReq w, (UnitsAction (Deferred.shutterId o) v, KNone))])
    (Datatypes.S (nextReq w))
    (sessionCookie w)
    (trace w ++
       [Log Debug (TriggeredSetTargetPosition v);
        Assign state_targetPosition v;
        Log Info (PostingUnitAction (Deferred.shutterId o) v);
        Http (nextReq w) (UnitsAction (Deferred.shutterId o) v)] ++
       handle_events (Deferred.updateTargetPositionTimeout o) ++
       [SetTimer (nextTimer w); Callback cb None]).
Proof.
  destruct w as [[id h [tg cu]] ts nt pd nr ck tr].
  destruct h; cbn; repeat rewrite <- app_assoc; reflexivity.
Qed.

Lemma Simple_set_world (w : World Simple.IFeelShutter) v cb :
  Simple.step (SetTargetPosition v cb) w =
  let o := self w in
  mkWorld
    (Simple.mkShutter (Simple.shutterId o)
       (Simple.mkState v (Simple.currentPosition (Simple.state o))))
    (timers w) (nextTimer w)
    (pending w ++ [(nextReq w, (UnitsAction (Simple.shutterId o) v, KNone))])
    (Datatypes.S (nextReq w))
    (sessionCookie w)
    (trace w ++
       [Log Debug (TriggeredSetTargetPosition v);
        Assign state_targetPosition v;
        Log Info (PostingUnitAction (Simple.shutterId o) v);
        Http (nextReq w) (UnitsAction (Simple.shutterId o) v);
        Callback cb None]).
Proof.
  destruct w as [[id [tg cu]] ts nt pd nr ck tr].
  cbn; repeat rewrite <- app_assoc; reflexivity.
Qed.

(** C2 (as amended).  [handleTargetPositionSet value callback] does, in this
    order and in one turn of the loop: assign [value] to the target, send the
    position command, clear the timer it holds if it holds one, set a new
    timer, call back with no value.  The command is still in flight when the
    callback has been called.  When the command then fails, the caller hears
    nothing and the accessory logs nothing: the rejection reaches no handler
    and the accessory is left as it was. *)
Theorem handleTargetPositionSet_effects :
  (forall (w : World Polling.IFeelShutter) value callback,
      let o := self w in
      let w' := Polling.step (SetTargetPosition value callback) w in
      let w'' := Polling.step (Reject (nextReq w)) w' in
      emitted w w' =
        [Log Debug (TriggeredSetTargetPosition value);
         Assign state_targetPosition value;
         Log Info (PostingUnitAction (Polling.shutterId o) value);
         Http (nextReq w) (UnitsAction (Polling.shutterId o) value)] ++
        handle_events (Polling.updateTargetInterval o) ++
        [SetTimer (nextTimer w); Callback callback None] /\
      Polling.targetPosition (Polling.state (self w')) = value /\
      Polling.updateTargetInterval (self w') = Some (nextTimer w) /\
      In (nextReq w, (UnitsAction (Polling.shutterId o) value, KNone))
         (pending w') /\
      emitted w' w'' = [UnhandledRejection (nextReq w)] /\
      self w'' = self w' /\ timers w'' = timers w') /\
  (forall (w : World Deferred.IFeelShutter) value callback,
      let o := self w in
      let w' := Deferred.step (SetTargetPosition value callback) w in
      let w'' := Deferred.step (Reject (nextReq w)) w' in
      emitted w w' =
        [Log Debug (TriggeredSetTargetPosition value);
         Assign state_targetPosition value;
         Log Info (PostingUnitAction (Deferred.shutterId o) value);
         Http (nextReq w) (UnitsAction (Deferred.shutterId o) value)] ++
        handle_events (Deferred.updateTargetPositionTimeout o) ++
        [SetTimer (nextTimer w); Callback callback None] /\
      Deferred.targetPosition (Deferred.state (self w')) = value /\
      Deferred.updateTargetPositionTimeout (self w') = Some (nextTimer w) /\
      In (nextReq w, (UnitsAction (Deferred.shutterId o) value, KNone))
         (pending w') /\
      emitted w' w'' = [UnhandledRejection (nextReq w)] /\
      self w'' = self w' /\ timers w'' = timers w').
Proof.
  split; intros w value callback o w' w''.
  - assert (E : w' = Polling.step (SetTargetPosition value callback) w)
      by reflexivity.
    rewrite Polling_set_world in E. cbv zeta in E. fold o in E.
    destruct (lookup_snoc (nextReq w)
                (UnitsAction (Polling.shutterId o) value, KNone) (pending w))
      as [y Hy].
    assert (Hp : lookup (nextReq w) (pending w') = Some y)
      by (rewrite E; exact Hy).
    assert (E2 : w'' = exec (reject (nextReq w)) w') by reflexivity.
    rewrite (reject_pending _ _ _ Hp) in E2.
    repeat split.
    + apply emitted_app. rewrite E. reflexivity.
    + rewrite E. reflexivity.
    + rewrite E. reflexivity.
    + rewrite E. simpl. apply in_or_app. right. left. reflexivity.
    + apply emitted_app. rewrite E2. reflexivity.
    + rewrite E2. reflexivity.
    + rewrite E2. reflexivity.
  - assert (E : w' = Deferred.step (SetTargetPosition value callback) w)
      by reflexivity.
    rewrite Deferred_set_world in E. cbv zeta in E. fold o in E.
    destruct (lookup_snoc (nextReq w)
                (UnitsAction (Deferred.shutterId o) value, KNone) (pending w))
      as [y Hy].
    assert (Hp : lookup (nextReq w) (pending w') = Some y)
      by (rewrite E; exact Hy).
    assert (E2 : w'' = exec (reject (nextReq w)) w') by reflexivity.
    rewrite (reject_pending _ _ _ Hp) in E2.
    repeat split.
    + apply emitted_app. rewrite E. reflexivity.
    + rewrite E. reflexivity.
    + rewrite E. reflexivity.
    + rewrite E. simpl. apply in_or_app. right. left. reflexivity.
    + apply emitted_app. rewrite E2. reflexivity.
    + rewrite E2. reflexivity.
    + rewrite E2. reflexivity.
Qed.

(** C2 as the specification words it fails: a command that fails is not
    logged.  Shutter 5 is told to go to 70 and the hub refuses request 1,
    the command: the only thing that happens is the unhandled rejection. *)
Lemma command_failure_not_logged :
  let w := Polling.step (SetTargetPosition 70 1%nat)
             (Polling.constructor defaultPlatform 5) in
  let w' := Polling.step (Reject 1%nat) w in
  In (1%nat, (UnitsAction 5 70, KNone)) (pending w) /\
  emitted w w' = [UnhandledRejection 1%nat] /\
  ~ (exists l m, In (Log l m) (emitted w w')).
Proof.
  cbv zeta. split; [|split].
  - vm_compute. right. left. reflexivity.
  - vm_compute. reflexivity.
  - intros (l & m & H). vm_compute in H. destruct H as [H|[]]. discriminate.
Qed.

(** ** The target getter that reads no hub *)

(** C5. In the iterations whose target getter does not resynchronise
    ([Deferred] and [Simple]), [handleTargetPositionGet] right after
    [handleTargetPositionSet v] calls back with exactly [v], in the turn of
    the call, and sends nothing to the hub. *)
Theorem handleTargetPositionGet_after_set :
  (forall (w : World Deferred.IFeelShutter) v cb cb',
      let w1 := Deferred.step (SetTargetPosition v cb) w in
      let w2 := Deferred.step (GetTargetPosition cb') w1 in
      emitted w1 w2 =
        [Log Debug TriggeredGetTargetPosition; Callback cb' (Some v)] /\
      pending w2 = pending w1 /\ nextReq w2 = nextReq w1 /\
      self w2 = self w1) /\
  (forall (w : World Simple.IFeelShutter) v cb cb',
      let w1 := Simple.step (SetTargetPosition v cb) w in
      let w2 := Simple.step (GetTargetPosition cb') w1 in
      emitted w1 w2 =
        [Log Debug TriggeredGetTargetPosition; Callback cb' (Some v)] /\
      pending w2 = pending w1 /\ nextReq w2 = nextReq w1 /\
      self w2 = self w1).
Proof.
  split; intros w v cb cb' w1 w2; subst w2.
  - assert (E : w1 = Deferred.step (SetTargetPosition v cb) w) by reflexivity.
    rewrite Deferred_set_world in E. cbv zeta in E.
    repeat split; try (rewrite E; reflexivity).
    apply emitted_app. rewrite E. cbn. rewrite <- app_assoc. reflexivity.
  - assert (E : w1 = Simple.step (SetTargetPosition v cb) w) by reflexivity.
    rewrite Simple_set_world in E. cbv zeta in E.
    repeat split; try (rewrite E; reflexivity).
    apply emitted_app. rewrite E. cbn. rewrite <- app_assoc. reflexivity.
Qed.

(** ** Unfolding one turn of the loop *)

Ltac js_unfold :=
  cbv [Polling.step Polling.run Polling.handlers Polling.constructor
       Polling.handleCurrentPositionGet Polling.handleTargetPositionGet
       Polling.handleTargetPositionSet Polling.handlePositionStateGet
       Polling.tick Polling.continue Polling.seed Polling.currentPositionRead
       Polling.targetPositionRead Polling.positionStateRead Polling.pollRead
       Polling.clearIntervalSafe Polling.assignTarget Polling.assignCurrent
       Polling.set_updateTargetInterval Polling.set_intervalDurationSum
       Polling.set_targetPosition Polling.set_currentPosition
       Polling.platform Polling.shutterId Polling.updateTargetInterval
       Polling.intervalDurationSum Polling.state Polling.targetPosition
       Polling.currentPosition
       Deferred.step Deferred.run Deferred.handlers Deferred.constructor
       Deferred.handleCurrentPositionGet Deferred.handleTargetPositionGet
       Deferred.handleTargetPositionSet Deferred.handlePositionStateGet
       Deferred.timeout Deferred.continue Deferred.seed
       Deferred.currentPositionRead Deferred.positionStateRead
       Deferred.timeoutRead Deferred.assignTarget Deferred.assignCurrent
       Deferred.set_updateTargetPositionTimeout Deferred.set_targetPosition
       Deferred.set_currentPosition Deferred.shutterId
       Deferred.updateTargetPositionTimeout Deferred.state
       Deferred.targetPosition Deferred.currentPosition
       Simple.step Simple.run Simple.handlers Simple.constructor
       Simple.handleCurrentPositionGet Simple.handleTargetPositionGet
       Simple.handleTargetPositionSet Simple.handlePositionStateGet
       Simple.continue Simple.currentPositionRead Simple.positionStateRead
       Simple.assignTarget Simple.assignCurrent Simple.set_targetPosition
       Simple.set_currentPosition Simple.shutterId Simple.state
       Simple.targetPosition Simple.currentPosition
       step exec bind ret this update emit log setTimer clearTimer http
       storeCookie authenticate postShutterAction getShutterPosition forget
       fulfil reject expire fire boot fst snd
       self timers nextTimer pending nextReq sessionCookie trace
       onCurrentPositionGet onTargetPositionGet onTargetPositionSet
       onPositionStateGet onTimer oneShot resume].

Ltac split_ifs :=
  repeat (match goal with
          | |- context [if ?b then _ else _] => destruct b eqn:?
          end; cbv beta iota).

Lemma run_invariant {S} (H : Handlers S) (P : World S -> Prop) :
  (forall a w, P w -> P (step H a w)) ->
  forall l w, P w -> P (run H l w).
Proof.
  intros Hstep l. induction l as [|a l IH]; simpl; intros w Hw; auto.
Qed.

Lemma run_invariant_on {S} (H : Handlers S) (P : World S -> Prop)
      (ok : Action -> bool) :
  (forall a w, ok a = true -> P w -> P (step H a w)) ->
  forall l, Forall (fun a => ok a = true) l ->
  forall w, P w -> P (run H l w).
Proof.
  intros Hstep l Hl. induction Hl as [|a l Ha Hl IH]; simpl; intros w Hw; auto.
Qed.

Lemma In_drop rid r x l : In (r, x) (drop rid l) -> In (r, x) l.
Proof.
  induction l as [|[r' y] l IH]; simpl; auto.
  destruct (Nat.eqb r' rid); simpl; intuition.
Qed.

Lemma lookup_In rid x l : lookup rid l = Some x -> In (rid, x) l.
Proof.
  induction l as [|[r y] l IH]; simpl; [discriminate|].
  destruct (Nat.eqb r rid) eqn:E.
  - apply Nat.eqb_eq in E. intros [= ->]. subst. auto.
  - auto.
Qed.

Lemma lookup_fresh rid l :
  (forall r x, In (r, x) l -> (r < rid)%nat) -> lookup rid l = None.
Proof.
  intros H. destruct (lookup rid l) eqn:E; auto.
  apply lookup_In, H in E. lia.
Qed.

Lemma lookup_snoc_fresh rid y l :
  (forall r x, In (r, x) l -> (r < rid)%nat) ->
  lookup rid (l ++ [(rid, y)]) = Some y /\ drop rid (l ++ [(rid, y)]) = l.
Proof.
  induction l as [|[r x] l IH]; simpl; intros H.
  - rewrite Nat.eqb_refl. auto.
  - destruct (Nat.eqb r rid) eqn:E.
    + apply Nat.eqb_eq in E. specialize (H r x (or_introl eq_refl)). lia.
    + destruct IH as [-> ->]; eauto.
Qed.

Lemma remove_single t : remove Nat.eq_dec t [t] = [].
Proof. simpl. destruct (Nat.eq_dec t t); congruence. Qed.

Lemma existsb_single t t' : existsb (Nat.eqb t) [t'] = true -> t = t'.
Proof.
  simpl. rewrite orb_false_r. apply Nat.eqb_eq.
Qed.

(** ** At most one timer *)

Lemma pending_snoc_bound (pd : list (nat * (Request * Kont))) nr :
  (forall r x, In (r, x) pd -> (r < nr)%nat) ->
  forall r x y, In (r, x) (pd ++ [(nr, y)]) -> (r < Datatypes.S nr)%nat.
Proof.
  intros H3 r x y H. apply in_app_or in H. destruct H as [H|[H|[]]].
  - apply H3 in H. lia.
  - inversion H. lia.
Qed.

Lemma pending_drop_bound (pd : list (nat * (Request * Kont))) nr :
  (forall r x, In (r, x) pd -> (r < nr)%nat) ->
  forall q r x, In (r, x) (drop q pd) -> (r < nr)%nat.
Proof. intros H3 q r x H. apply In_drop in H. eauto. Qed.

Lemma Polling_step_wf a w : Polling_wf w -> Polling_wf (Polling.step a w).
Proof.
  destruct w as [[p id h sum [tg cu]] ts nt pd nr ck tr].
  unfold Polling_wf; simpl. intros (H1 & H2 & H3). subst ts.
  pose proof (pending_snoc_bound pd nr H3) as Hsnoc.
  pose proof (pending_drop_bound pd nr H3) as Hdrop.
  destruct a as [cb|cb|v cb|cb|t| |rid resp|rid].
  - js_unfold. eauto.
  - js_unfold. eauto.
  - destruct h; js_unfold; simpl handle_timers.
    + rewrite remove_single. simpl. repeat split; eauto. intros ? [<-|[]]. lia.
    + simpl. repeat split; eauto. intros ? [<-|[]]. lia.
  - js_unfold. eauto.
  - js_unfold.
    destruct (existsb (Nat.eqb t) (handle_timers h)); cbv beta iota; eauto.
  - js_unfold. eauto.
  - js_unfold.
    destruct (lookup rid pd) as [[[] k]|], resp; cbv beta iota; eauto.
    destruct k, h; cbv beta iota; split_ifs; simpl handle_timers;
      try rewrite remove_single; eauto;
      repeat split; eauto; intros ? [].
  - js_unfold. destruct (lookup rid pd); cbv beta iota; eauto.
Qed.

Lemma Deferred_step_wf a w : Deferred_wf w -> Deferred_wf (Deferred.step a w).
Proof.
  destruct w as [[id h [tg cu]] ts nt pd nr ck tr].
  unfold Deferred_wf; simpl. intros (H1 & H2 & H3).
  pose proof (pending_snoc_bound pd nr H3) as Hsnoc.
  pose proof (pending_drop_bound pd nr H3) as Hdrop.
  destruct a as [cb|cb|v cb|cb|t| |rid resp|rid].
  - js_unfold. eauto.
  - js_unfold. eauto.
  - assert (E : timers_without h ts = []).
    { destruct H1 as [->| ->]; destruct h; simpl; auto.
      destruct (Nat.eq_dec n n); congruence. }
    destruct h; js_unfold; simpl in E; rewrite ?E; simpl;
      (repeat split; eauto; intros ? [<-|[]]; lia).
  - js_unfold. eauto.
  - js_unfold. destruct (existsb (Nat.eqb t) ts) eqn:Et; cbv beta iota; eauto.
    repeat split; eauto.
    + left. destruct H1 as [->| ->]; [reflexivity|].
      destruct h; simpl in *; [|reflexivity].
      apply existsb_single in Et. subst.
      destruct (Nat.eq_dec n n); congruence.
    + intros t' Ht'. apply in_remove in Ht'. apply H2, Ht'.
  - js_unfold. eauto.
  - js_unfold.
    destruct (lookup rid pd) as [[[] k]|], resp; cbv beta iota; eauto.
    destruct k; cbv beta iota; eauto.
  - js_unfold. destruct (lookup rid pd); cbv beta iota; eauto.
Qed.

Lemma Polling_constructor_wf p id : Polling_wf (Polling.constructor p id).
Proof.
  unfold Polling_wf. js_unfold. simpl. repeat split; auto.
  - intros ? [].
  - intros rid x [H|[]]. inversion H. lia.
Qed.

Lemma Deferred_constructor_wf id : Deferred_wf (Deferred.constructor id).
Proof.
  unfold Deferred_wf. js_unfold. simpl. repeat split; auto.
  - intros ? [].
  - intros rid x [H|[]]. inversion H. lia.
Qed.

Lemma Polling_reachable_wf l p id :
  Polling_wf (Polling.run l (Polling.constructor p id)).
Proof.
  apply (run_invariant Polling.handlers Polling_wf).
  - intros a w. apply Polling_step_wf.
  - apply Polling_constructor_wf.
Qed.

Lemma Deferred_reachable_wf l id :
  Deferred_wf (Deferred.run l (Deferred.constructor id)).
Proof.
  apply (run_invariant Deferred.handlers Deferred_wf).
  - intros a w. apply Deferred_step_wf.
  - apply Deferred_constructor_wf.
Qed.

Lemma handle_timers_length h : (List.length (handle_timers h) <= 1)%nat.
Proof. destruct h; simpl; lia. Qed.

Lemma timers_without_handle h : timers_without h (handle_timers h) = [].
Proof. destruct h; simpl; auto. destruct (Nat.eq_dec n n); congruence. Qed.

Lemma handle_timers_cleared h t :
  In t (handle_timers h) -> In (ClearTimer t) (handle_events h).
Proof. destruct h; simpl; [intros [->|[]]; auto | intros []]. Qed.

(** C3. Whatever has happened to a shutter since its construction (calls of
    the four handlers, timers firing, hub requests answered or failed, in any
    order), at most one timer of the accessory is registered with the loop.
    A call of [handleTargetPositionSet] in any such state clears the timer
    that was registered, if there was one, and leaves exactly one registered
    timer, a new one; in the polling iteration it also puts
    [intervalDurationSum] back to 0. *)
Theorem at_most_one_timer :
  (forall l p id,
      let w := Polling.run l (Polling.constructor p id) in
      (List.length (timers w) <= 1)%nat /\
      forall v cb,
        let w' := Polling.step (SetTargetPosition v cb) w in
        timers w' = [nextTimer w] /\
        ~ In (nextTimer w) (timers w) /\
        (forall t, In t (timers w) -> In (ClearTimer t) (emitted w w')) /\
        Polling.updateTargetInterval (self w') = Some (nextTimer w) /\
        Polling.intervalDurationSum (self w') = 0) /\
  (forall l id,
      let w := Deferred.run l (Deferred.constructor id) in
      (List.length (timers w) <= 1)%nat /\
      forall v cb,
        let w' := Deferred.step (SetTargetPosition v cb) w in
        timers w' = [nextTimer w] /\
        ~ In (nextTimer w) (timers w) /\
        (forall t, In t (timers w) -> In (ClearTimer t) (emitted w w')) /\
        Deferred.updateTargetPositionTimeout (self w') = Some (nextTimer w)).
Proof.
  split.
  - intros l p id w.
    destruct (Polling_reachable_wf l p id) as (H1 & H2 & _). fold w in H1, H2.
    split; [rewrite H1; apply handle_timers_length|].
    intros v cb w'.
    assert (E : w' = Polling.step (SetTargetPosition v cb) w) by reflexivity.
    rewrite Polling_set_world in E. cbv zeta in E.
    repeat split.
    + rewrite E. simpl. rewrite H1, timers_without_handle. reflexivity.
    + intros H. apply H2 in H. lia.
    + intros t Ht. rewrite H1 in Ht. apply handle_timers_cleared in Ht.
      erewrite emitted_app by (rewrite E; reflexivity).
      simpl. do 4 right. apply in_or_app. left. exact Ht.
    + rewrite E. reflexivity.
    + rewrite E. reflexivity.
  - intros l id w.
    destruct (Deferred_reachable_wf l id) as (H1 & H2 & _). fold w in H1, H2.
    split; [destruct H1 as [-> | ->]; [simpl; lia|apply handle_timers_length]|].
    intros v cb w'.
    assert (E : w' = Deferred.step (SetTargetPosition v cb) w) by reflexivity.
    rewrite Deferred_set_world in E. cbv zeta in E.
    repeat split.
    + rewrite E. simpl.
      destruct H1 as [-> | ->]; [|rewrite timers_without_handle; reflexivity].
      destruct (Deferred.updateTargetPositionTimeout (self w)); reflexivity.
    + intros H. apply H2 in H. lia.
    + intros t Ht.
      destruct H1 as [H1|H1]; rewrite H1 in Ht; [destruct Ht|].
      apply handle_timers_cleared in Ht.
      erewrite emitted_app by (rewrite E; reflexivity).
      simpl. do 4 right. apply in_or_app. left. exact Ht.
    + rewrite E. reflexivity.
Qed.

(** ** The polling session and its cap *)

Lemma cap_logs_app l l' : cap_logs (l ++ l') = (cap_logs l + cap_logs l')%nat.
Proof. unfold cap_logs. rewrite filter_app, length_app. reflexivity. Qed.

Lemma Polling_fire_live (w : World Polling.IFeelShutter) t :
  existsb (Nat.eqb t) (timers w) = true ->
  Polling.step (Fire t) w =
  mkWorld (self w) (timers w) (nextTimer w)
          (pending w ++
             [(nextReq w, (GetUnitByID (Polling.shutterId (self w)), KTimer))])
          (Datatypes.S (nextReq w)) (sessionCookie w)
          ((trace w ++ [Log Info (GettingUnitData (Polling.shutterId (self w)))])
             ++ [Http (nextReq w) (GetUnitByID (Polling.shutterId (self w)))]).
Proof.
  intros H. destruct w as [[p id h sum [tg cu]] ts nt pd nr ck tr].
  simpl in H. js_unfold. rewrite H. reflexivity.
Qed.

Lemma Polling_fire_dead (w : World Polling.IFeelShutter) t :
  existsb (Nat.eqb t) (timers w) = false -> Polling.step (Fire t) w = w.
Proof.
  intros H. destruct w as [[p id h sum [tg cu]] ts nt pd nr ck tr].
  simpl in H. js_unfold. rewrite H. reflexivity.
Qed.

Lemma Polling_fulfil_unknown (w : World Polling.IFeelShutter) rid resp :
  lookup rid (pending w) = None -> Polling.step (Fulfil rid resp) w = w.
Proof.
  intros H. destruct w as [[p id h sum [tg cu]] ts nt pd nr ck tr].
  simpl in H. js_unfold. rewrite H. reflexivity.
Qed.

Lemma poll_round_session p t v c k x w :
  0 < pollingInterval p -> 0 <= k -> x <> v ->
  Polling_session p t v c k w ->
  Polling_session p t v c (k + 1) (poll_round t x w).
Proof.
  intros Hpi Hk Hx.
  destruct w as [[p' id h sum [tg cu]] ts nt pd nr ck tr].
  intros H. unfold Polling_session in H. simpl in H.
  destruct H as (H3 & -> & -> & H). unfold poll_round.
  destruct (k * pollingInterval p <? maxPollingTime p) eqn:Ek.
  - destruct H as (-> & -> & -> & Hc).
    destruct (lookup_snoc_fresh nr (GetUnitByID id, KTimer) pd H3) as [E1 E2].
    rewrite Polling_fire_live by (simpl; rewrite Nat.eqb_refl; reflexivity).
    unfold Polling_session. js_unfold. rewrite E1. cbv beta iota. rewrite E2.
    replace (k * pollingInterval p + pollingInterval p)
      with ((k + 1) * pollingInterval p) by lia.
    assert (Hxv : (x =? v) = false) by (apply Z.eqb_neq; exact Hx).
    destruct ((k + 1) * pollingInterval p >=? maxPollingTime p) eqn:Eg;
      cbv beta iota; rewrite Hxv; cbv beta iota;
      (replace ((k + 1) * pollingInterval p <? maxPollingTime p)
         with (negb ((k + 1) * pollingInterval p >=? maxPollingTime p))
        by (rewrite Z.geb_leb, Z.ltb_antisym; reflexivity));
      rewrite Eg; simpl negb; cbv iota.
    + rewrite remove_single.
      repeat split; auto; try (intros ? ? Hin; apply H3 in Hin; lia).
      repeat rewrite cap_logs_app. rewrite Hc. unfold cap_logs. simpl. lia.
    + repeat split; auto; try (intros ? ? Hin; apply H3 in Hin; lia).
      repeat rewrite cap_logs_app. rewrite Hc. unfold cap_logs. simpl. lia.
  - destruct H as (-> & -> & Hc).
    rewrite Polling_fire_dead by reflexivity.
    rewrite Polling_fulfil_unknown by (apply lookup_fresh; exact H3).
    unfold Polling_session. simpl.
    replace ((k + 1) * pollingInterval p <? maxPollingTime p) with false.
    + repeat split; auto.
    + symmetry. apply Z.ltb_ge. apply Z.ltb_ge in Ek. lia.
Qed.

Lemma poll_rounds_session p t v c xs : 
  0 < pollingInterval p -> Forall (fun x => x <> v) xs ->
  forall k w, 0 <= k ->
  Polling_session p t v c k w ->
  Polling_session p t v c (k + Z.of_nat (List.length xs)) (poll_rounds t xs w).
Proof.
  intros Hpi Hxs. induction Hxs as [|x xs Hx Hxs IH]; intros k w Hk Hw.
  - simpl. rewrite Z.add_0_r. exact Hw.
  - simpl List.length. rewrite Nat2Z.inj_succ.
    replace (k + Z.succ (Z.of_nat (List.length xs)))
      with ((k + 1) + Z.of_nat (List.length xs)) by lia.
    simpl. apply IH; [lia|]. apply poll_round_session; auto.
Qed.

Lemma Polling_step_platform a w :
  Polling.platform (self (Polling.step a w)) = Polling.platform (self w).
Proof.
  destruct w as [[p id h sum [tg cu]] ts nt pd nr ck tr].
  destruct a as [cb|cb|v cb|cb|t| |rid resp|rid]; js_unfold; try reflexivity.
  - destruct h; reflexivity.
  - destruct (existsb (Nat.eqb t) ts); reflexivity.
  - destruct (lookup rid pd) as [[[] k]|], resp; cbv beta iota; try reflexivity.
    destruct k, h; cbv beta iota; split_ifs; reflexivity.
  - destruct (lookup rid pd); reflexivity.
Qed.

Lemma Polling_reachable_platform l p id :
  Polling.platform (self (Polling.run l (Polling.constructor p id))) = p.
Proof.
  apply (run_invariant Polling.handlers
           (fun w => Polling.platform (self w) = p)).
  - intros a w <-. apply Polling_step_platform.
  - reflexivity.
Qed.

Lemma Polling_session_start l p id v cb :
  0 < maxPollingTime p ->
  let w := Polling.run l (Polling.constructor p id) in
  let w0 := Polling.step (SetTargetPosition v cb) w in
  Polling_session p (nextTimer w) v (cap_logs (trace w0)) 0 w0.
Proof.
  intros Hmax w w0.
  destruct (Polling_reachable_wf l p id) as (H1 & H2 & H3).
  pose proof (Polling_reachable_platform l p id) as Hp.
  fold w in H1, H2, H3, Hp.
  subst w0. rewrite Polling_set_world. cbv zeta.
  unfold Polling_session.
  replace (0 * pollingInterval p <? maxPollingTime p) with true
    by (symmetry; apply Z.ltb_lt; lia).
  simpl. rewrite H1, timers_without_handle.
  repeat split; auto.
  intros r x Hin. eapply pending_snoc_bound; eauto.
Qed.

(** ** A session whose reads all fail *)

Ltac count_cap_logs Hc :=
  repeat rewrite cap_logs_app; rewrite Hc; unfold cap_logs; simpl; lia.

Lemma Polling_step_stalled t c a w :
  no_read_succeeds a = true ->
  Polling_stalled t c w -> Polling_stalled t c (Polling.step a w).
Proof.
  destruct w as [[p id h sum [tg cu]] ts nt pd nr ck tr].
  unfold Polling_stalled; simpl. intros Ha (-> & -> & -> & Hc).
  destruct a as [cb|cb|v cb|cb|t'| |rid resp|rid]; try discriminate Ha;
    js_unfold.
  - repeat split; auto; count_cap_logs Hc.
  - repeat split; auto; count_cap_logs Hc.
  - repeat split; auto; count_cap_logs Hc.
  - destruct (existsb (Nat.eqb t') [t]); cbv beta iota;
      repeat split; auto; count_cap_logs Hc.
  - repeat split; auto; count_cap_logs Hc.
  - destruct (lookup rid pd) as [[[] k]|], resp; cbv beta iota;
      try discriminate Ha; repeat split; auto; count_cap_logs Hc.
  - destruct (lookup rid pd); cbv beta iota;
      repeat split; auto; count_cap_logs Hc.
Qed.

(** C8. A polling session starts in any reachable state; from then on no hub
    read succeeds (timers fire, getters are called, requests fail, in any
    order and number).  [intervalDurationSum] stays 0, the cap is never
    logged, and the timer stays registered: the cap never stops this
    session. *)
Theorem polling_never_stops_when_reads_fail :
  forall l p id v cb schedule,
    Forall (fun a => no_read_succeeds a = true) schedule ->
    let w := Polling.run l (Polling.constructor p id) in
    let w0 := Polling.step (SetTargetPosition v cb) w in
    let wn := Polling.run schedule w0 in
    Polling.intervalDurationSum (self wn) = 0 /\
    cap_logs (trace wn) = cap_logs (trace w0) /\
    timers wn = [nextTimer w] /\
    Polling.updateTargetInterval (self wn) = Some (nextTimer w).
Proof.
  intros l p id v cb schedule Hs w w0 wn.
  assert (H0 : Polling_stalled (nextTimer w) (cap_logs (trace w0)) w0).
  { destruct (Polling_reachable_wf l p id) as (H1 & _). fold w in H1.
    subst w0. rewrite Polling_set_world. cbv zeta.
    unfold Polling_stalled. simpl. rewrite H1, timers_without_handle.
    repeat split; auto. }
  assert (Hn : Polling_stalled (nextTimer w) (cap_logs (trace w0)) wn).
  { apply (run_invariant_on Polling.handlers _ no_read_succeeds); auto.
    intros a w1. apply Polling_step_stalled. }
  destruct Hn as (Ht & Hh & Hsum & Hc). auto.
Qed.

Lemma polling_never_stops_when_reads_fail_witness :
  let schedule := [Fire 0%nat; Reject 2%nat; Fire 0%nat;
                   GetCurrentPosition 9%nat; Reject 3%nat; Reject 4%nat;
                   Fulfil 1%nat (ActionResponse 200); Fire 0%nat] in
  let w0 := Polling.step (SetTargetPosition 70 1%nat)
              (Polling.constructor defaultPlatform 5) in
  Polling.intervalDurationSum (self (Polling.run schedule w0)) = 0 /\
  timers (Polling.run schedule w0) = [0%nat].
Proof.
  intros schedule w0.
  assert (H : Forall (fun a => no_read_succeeds a = true) schedule)
    by (repeat constructor).
  destruct (polling_never_stops_when_reads_fail [] defaultPlatform 5 70 1%nat
              schedule H) as (A & _ & B & _).
  split; [exact A | exact B].
Defined.

(** ** A session in order *)

Ltac in_order_live Hc :=
  split; [reflexivity|]; left;
  repeat split; auto; try lia; try count_cap_logs Hc.

Ltac in_order_idle Hc :=
  split; [reflexivity|]; right;
  repeat split; auto; try lia; try count_cap_logs Hc.

Lemma Polling_step_in_order p t v c a w :
  orderly v w a = true ->
  Polling_in_order p t v c w ->
  Polling_in_order p t v c (Polling.step a w).
Proof.
  destruct w as [[p' id h sum [tg cu]] ts nt pd nr ck tr].
  unfold Polling_in_order, orderly. simpl.
  intros Ha (-> & H).
  destruct H as [(-> & -> & -> & Hs & Hc)|(-> & -> & Hs & Hc)].
  - destruct a as [cb|cb|v' cb|cb|t'| |rid resp|rid]; try discriminate Ha;
      js_unfold.
    + in_order_live Hc.
    + in_order_live Hc.
    + in_order_live Hc.
    + destruct (existsb (Nat.eqb t') [t]); cbv beta iota; in_order_live Hc.
    + in_order_live Hc.
    + destruct (lookup rid pd) as [[q k]|] eqn:El.
      * destruct q, resp; cbv beta iota; try (in_order_live Hc; fail).
        destruct k; try discriminate Ha; cbv beta iota;
          try (in_order_live Hc; fail).
        apply andb_true_iff in Ha. destruct Ha as [Hv _].
        apply negb_true_iff in Hv.
        destruct (sum + pollingInterval p >=? maxPollingTime p) eqn:Eg;
          cbv beta iota; rewrite Hv; cbv beta iota;
          rewrite Z.geb_leb in Eg.
        -- apply Z.leb_le in Eg. rewrite remove_single. in_order_idle Hc.
        -- apply Z.leb_gt in Eg. in_order_live Hc.
      * destruct resp; in_order_live Hc.
    + destruct (lookup rid pd); cbv beta iota; in_order_live Hc.
  - destruct a as [cb|cb|v' cb|cb|t'| |rid resp|rid]; try discriminate Ha;
      js_unfold.
    + in_order_idle Hc.
    + in_order_idle Hc.
    + in_order_idle Hc.
    + simpl. in_order_idle Hc.
    + in_order_idle Hc.
    + destruct (lookup rid pd) as [[q k]|] eqn:El.
      * destruct q, resp; cbv beta iota; try (in_order_idle Hc; fail).
        destruct k; try discriminate Ha; cbv beta iota; split_ifs;
          try (in_order_idle Hc; fail).
        all: rewrite andb_false_r in Ha; discriminate Ha.
      * destruct resp; in_order_idle Hc.
    + destruct (lookup rid pd); cbv beta iota; in_order_idle Hc.
Qed.

Lemma Polling_run_in_order p t v c l :
  forall w, orderly_run v l w = true ->
            Polling_in_order p t v c w ->
            Polling_in_order p t v c (Polling.run l w).
Proof.
  induction l as [|a l IH]; simpl; intros w Ho Hw; [exact Hw|].
  apply andb_true_iff in Ho. destruct Ho as [Ha Hl].
  apply IH; [exact Hl|]. apply Polling_step_in_order; assumption.
Qed.

Lemma Polling_in_order_start l p id v cb :
  0 < maxPollingTime p ->
  let w := Polling.run l (Polling.constructor p id) in
  let w0 := Polling.step (SetTargetPosition v cb) w in
  Polling_in_order p (nextTimer w) v (cap_logs (trace w0)) w0.
Proof.
  intros Hmax w w0.
  destruct (Polling_reachable_wf l p id) as (H1 & _).
  pose proof (Polling_reachable_platform l p id) as Hp.
  fold w in H1, Hp.
  subst w0. rewrite Polling_set_world. cbv zeta.
  unfold Polling_in_order. simpl.
  rewrite H1, timers_without_handle.
  split; [exact Hp|]. left. repeat split; auto.
Qed.

(** C4 (as amended).  A polling session is started by
    [handleTargetPositionSet v] in any reachable state.  As long as it stays
    in order (no new target is set, the seed read is not answered, and a
    poll read is answered only while the timer is registered and not with
    [v]; anything else may happen: the timer firing at any time, getters
    called and answered, requests failing, re-authentication), the timer is
    registered exactly while the accumulated time is below
    [maxPollingTime], and the cap has been logged exactly once when it is
    not, never before.  When every tick is answered before the next and
    nothing else is, the accumulated time is ticks times [pollingInterval]:
    with the default 2500 ms and 60000 ms the timer is cleared at the 24th
    tick. *)
Theorem polling_session_stops_at_cap :
  forall l p id v cb,
    0 < maxPollingTime p ->
    let w := Polling.run l (Polling.constructor p id) in
    let t := nextTimer w in
    let w0 := Polling.step (SetTargetPosition v cb) w in
    (forall schedule,
        orderly_run v schedule w0 = true ->
        let wn := Polling.run schedule w0 in
        let elapsed := Polling.intervalDurationSum (self wn) in
        (timers wn = [t] \/ timers wn = []) /\
        (timers wn = [] <-> maxPollingTime p <= elapsed) /\
        cap_logs (trace wn) =
          (cap_logs (trace w0)
           + if (maxPollingTime p <=? elapsed)%Z then 1 else 0)%nat) /\
    (forall positions,
        0 < pollingInterval p ->
        Forall (fun x => x <> v) positions ->
        let wn := poll_rounds t positions w0 in
        let ticks := List.length positions in
        let elapsed := Z.of_nat ticks * pollingInterval p in
        (elapsed < maxPollingTime p ->
         timers wn = [t] /\
         Polling.intervalDurationSum (self wn) = elapsed /\
         cap_logs (trace wn) = cap_logs (trace w0)) /\
        (maxPollingTime p <= elapsed ->
         timers wn = [] /\
         Polling.updateTargetInterval (self wn) = None /\
         cap_logs (trace wn) = Datatypes.S (cap_logs (trace w0))) /\
        (pollingInterval p = 2500 -> maxPollingTime p = 60000 ->
         (timers wn = [] <-> (24 <= ticks)%nat))).
Proof.
  intros l p id v cb Hmax w t w0. split.
  - intros schedule Ho wn elapsed.
    pose proof (Polling_in_order_start l p id v cb Hmax) as H0.
    cbv zeta in H0. fold w in H0. fold w0 in H0. fold t in H0.
    pose proof (Polling_run_in_order _ _ _ _ _ _ Ho H0) as Hn.
    fold wn in Hn. unfold Polling_in_order in Hn. fold elapsed in Hn.
    destruct Hn as (_ & [(Ht & _ & _ & Hs & Hc)|(Ht & _ & Hs & Hc)]).
    + replace (maxPollingTime p <=? elapsed) with false
        by (symmetry; apply Z.leb_gt; exact Hs).
      rewrite Ht, Hc. repeat split; auto; try lia. discriminate.
    + replace (maxPollingTime p <=? elapsed) with true
        by (symmetry; apply Z.leb_le; exact Hs).
      rewrite Ht, Hc. repeat split; auto; lia.
  - intros positions Hpi Hpos wn ticks elapsed.
    pose proof (Polling_session_start l p id v cb Hmax) as H0.
    cbv zeta in H0. fold w in H0. fold w0 in H0. fold t in H0.
    pose proof (poll_rounds_session p t v _ positions Hpi Hpos 0 w0
                  (Z.le_refl 0) H0) as Hn.
    fold wn in Hn. rewrite Z.add_0_l in Hn. fold ticks in Hn.
    unfold Polling_session in Hn. fold elapsed in Hn.
    destruct Hn as (_ & _ & _ & Hn).
    destruct (elapsed <? maxPollingTime p) eqn:E.
    + apply Z.ltb_lt in E. destruct Hn as (Ht & _ & Hs & Hc).
      split; [auto|split; [lia|]].
      intros Ei Em. rewrite Ht. split; [discriminate|].
      intros H. unfold elapsed in E. lia.
    + apply Z.ltb_ge in E. destruct Hn as (Ht & Hh & Hc).
      split; [lia|split; [auto|]].
      intros Ei Em. split; [|auto].
      intros _. unfold elapsed in E. lia.
Qed.

Lemma polling_session_stops_at_cap_witness :
  let w0 := Polling.step (SetTargetPosition 70 1%nat)
              (Polling.constructor defaultPlatform 5) in
  let schedule :=
    [GetCurrentPosition 9%nat; Fire 0%nat; Fire 0%nat; Reject 3%nat;
     Reauthenticate; Fulfil 2%nat (UnitResponse 200 70); Fire 0%nat;
     Fulfil 4%nat (UnitResponse 200 30);
     Fulfil 6%nat (UnitResponse 200 31)] in
  timers (Polling.run schedule w0) = [0%nat] /\
  timers (poll_rounds 0 (repeat 30 24) w0) = [] /\
  timers (poll_rounds 0 (repeat 30 23) w0) = [0%nat].
Proof.
  intros w0 schedule.
  assert (H : forall n, Forall (fun x => x <> 70) (repeat 30 n)).
  { intros n. apply Forall_forall. intros x Hx.
    apply repeat_spec in Hx. subst. discriminate. }
  destruct (polling_session_stops_at_cap [] defaultPlatform 5 70 1%nat
              eq_refl) as [A B].
  split; [|split].
  - destruct (A schedule eq_refl) as ([T|T] & I & _); [exact T|].
    exfalso. apply I in T. vm_compute in T. apply T. reflexivity.
  - destruct (B (repeat 30 24) eq_refl (H 24%nat)) as (_ & D & _).
    apply D. vm_compute. discriminate.
  - destruct (B (repeat 30 23) eq_refl (H 23%nat)) as (D & _ & _).
    apply D. vm_compute. reflexivity.
Defined.

(** C4 as the specification words it fails.  The hub never reports the
    target, 70, and the reads are answered in another order than tick by
    tick.  With two reads in flight at the cap, the second is answered after
    the timer has been cleared and the cap is logged twice.  With a poll read
    of the session before answered in this one, the timer is cleared at the
    23rd tick.  With the seed answered in the session, the target becomes
    what the hub reports and the first tick stops the session, with no cap
    logged. *)
Lemma polling_cap_depends_on_read_order :
  (let w0 := Polling.step (SetTargetPosition 70 1%nat)
               (Polling.constructor defaultPlatform 5) in
   let wk := poll_rounds 0 (repeat 30 23) w0 in
   let wn := Polling.run [Fire 0%nat; Fire 0%nat;
                          Fulfil (nextReq wk) (UnitResponse 200 30);
                          Fulfil (Datatypes.S (nextReq wk))
                                 (UnitResponse 200 30)] wk in
   cap_logs (emitted w0 wn) = 2%nat) /\
  (let w := Polling.run [SetTargetPosition 50 1%nat; Fire 0%nat]
              (Polling.constructor defaultPlatform 5) in
   let w0 := Polling.step (SetTargetPosition 70 2%nat) w in
   let w1 := Polling.step (Fulfil 2%nat (UnitResponse 200 30)) w0 in
   timers (poll_rounds 1 (repeat 30 22) w1) = [1%nat] /\
   timers (poll_rounds 1 (repeat 30 23) w1) = []) /\
  (let w0 := Polling.step (SetTargetPosition 70 1%nat)
               (Polling.constructor defaultPlatform 5) in
   let w1 := Polling.step (Fulfil 0%nat (UnitResponse 200 30)) w0 in
   let wn := poll_rounds 0 [30] w1 in
   timers w1 = [0%nat] /\ timers wn = [] /\ cap_logs (trace wn) = 0%nat).
Proof.
  repeat split; vm_compute; reflexivity.
Qed.

(** ** A getter whose read is rejected *)

Lemma invocations_app cb l l' :
  invocations cb (l ++ l') = (invocations cb l + invocations cb l')%nat.
Proof. unfold invocations. rewrite filter_app, length_app. reflexivity. Qed.

Lemma waiting_snoc cb rid (pd : list (nat * (Request * Kont))) nr q k :
  (forall r x, In (r, x) pd -> kont_callback (snd x) = Some cb -> r = rid) ->
  kont_callback k <> Some cb ->
  forall r x, In (r, x) (pd ++ [(nr, (q, k))]) ->
              kont_callback (snd x) = Some cb -> r = rid.
Proof.
  intros H Hk r x Hin Hx. apply in_app_or in Hin. destruct Hin as [Hin|[Hin|[]]].
  - eauto.
  - inversion Hin; subst. simpl in Hx. contradiction.
Qed.

Lemma waiting_drop cb rid (pd : list (nat * (Request * Kont))) q :
  (forall r x, In (r, x) pd -> kont_callback (snd x) = Some cb -> r = rid) ->
  forall r x, In (r, x) (drop q pd) ->
              kont_callback (snd x) = Some cb -> r = rid.
Proof. intros H r x Hin. apply In_drop in Hin. eauto. Qed.

Lemma kont_other cb c : Nat.eqb c cb = false -> Some c <> Some cb.
Proof. intros H [= ->]. rewrite Nat.eqb_refl in H. discriminate. Qed.

Ltac count_invocations Hn :=
  repeat rewrite invocations_app; rewrite Hn; unfold invocations; simpl;
  repeat match goal with H : Nat.eqb _ _ = false |- _ => rewrite H end;
  simpl; lia.

Ltac waiting_tac Hn Hp :=
  split;
  [ count_invocations Hn
  | first [ exact Hp
          | apply waiting_drop; exact Hp
          | apply waiting_snoc;
            [ exact Hp
            | simpl; first [ discriminate | apply kont_other; assumption ] ] ] ].

Lemma Polling_step_waiting cb rid n a w :
  other_turn cb rid a = true ->
  waiting cb rid n w -> waiting cb rid n (Polling.step a w).
Proof.
  destruct w as [[p id h sum [tg cu]] ts nt pd nr ck tr].
  unfold waiting; simpl. intros Ha (Hn & Hp).
  destruct a as [c|c|v c|c|t| |r resp|r]; simpl in Ha;
    try apply negb_true_iff in Ha.
  - js_unfold. waiting_tac Hn Hp.
  - js_unfold. waiting_tac Hn Hp.
  - js_unfold. destruct h; cbv beta iota; waiting_tac Hn Hp.
  - js_unfold. waiting_tac Hn Hp.
  - js_unfold. destruct (existsb (Nat.eqb t) ts); cbv beta iota; waiting_tac Hn Hp.
  - js_unfold. waiting_tac Hn Hp.
  - js_unfold. destruct (lookup r pd) as [[q k]|] eqn:El.
    + apply lookup_In in El.
      assert (Hk : kont_callback k <> Some cb).
      { intros Hk. apply (Hp r (q, k) El) in Hk. subst.
        rewrite Nat.eqb_refl in Ha. discriminate. }
      destruct q, resp; cbv beta iota; try waiting_tac Hn Hp.
      destruct k as [| |c|c|c|]; simpl in Hk;
        try (assert (Hc : Nat.eqb c cb = false)
              by (apply Nat.eqb_neq; congruence));
        destruct h; cbv beta iota; split_ifs; waiting_tac Hn Hp.
    + destruct resp; waiting_tac Hn Hp.
  - js_unfold. destruct (lookup r pd); cbv beta iota; waiting_tac Hn Hp.
Qed.

Lemma Deferred_step_waiting cb rid n a w :
  other_turn cb rid a = true ->
  waiting cb rid n w -> waiting cb rid n (Deferred.step a w).
Proof.
  destruct w as [[id h [tg cu]] ts nt pd nr ck tr].
  unfold waiting; simpl. intros Ha (Hn & Hp).
  destruct a as [c|c|v c|c|t| |r resp|r]; simpl in Ha;
    try apply negb_true_iff in Ha.
  - js_unfold. waiting_tac Hn Hp.
  - js_unfold. waiting_tac Hn Hp.
  - js_unfold. destruct h; cbv beta iota; waiting_tac Hn Hp.
  - js_unfold. waiting_tac Hn Hp.
  - js_unfold. destruct (existsb (Nat.eqb t) ts); cbv beta iota;
      waiting_tac Hn Hp.
  - js_unfold. waiting_tac Hn Hp.
  - js_unfold. destruct (lookup r pd) as [[q k]|] eqn:El.
    + apply lookup_In in El.
      assert (Hk : kont_callback k <> Some cb).
      { intros Hk. apply (Hp r (q, k) El) in Hk. subst.
        rewrite Nat.eqb_refl in Ha. discriminate. }
      destruct q, resp; cbv beta iota; try waiting_tac Hn Hp.
      destruct k as [| |c|c|c|]; simpl in Hk;
        try (assert (Hc : Nat.eqb c cb = false)
              by (apply Nat.eqb_neq; congruence));
        cbv beta iota; waiting_tac Hn Hp.
    + destruct resp; waiting_tac Hn Hp.
  - js_unfold. destruct (lookup r pd); cbv beta iota; waiting_tac Hn Hp.
Qed.

Lemma Simple_step_waiting cb rid n a w :
  other_turn cb rid a = true ->
  waiting cb rid n w -> waiting cb rid n (Simple.step a w).
Proof.
  destruct w as [[id [tg cu]] ts nt pd nr ck tr].
  unfold waiting; simpl. intros Ha (Hn & Hp).
  destruct a as [c|c|v c|c|t| |r resp|r]; simpl in Ha;
    try apply negb_true_iff in Ha.
  - js_unfold. waiting_tac Hn Hp.
  - js_unfold. waiting_tac Hn Hp.
  - js_unfold. waiting_tac Hn Hp.
  - js_unfold. waiting_tac Hn Hp.
  - js_unfold. destruct (existsb (Nat.eqb t) ts); cbv beta iota;
      waiting_tac Hn Hp.
  - js_unfold. waiting_tac Hn Hp.
  - js_unfold. destruct (lookup r pd) as [[q k]|] eqn:El.
    + apply lookup_In in El.
      assert (Hk : kont_callback k <> Some cb).
      { intros Hk. apply (Hp r (q, k) El) in Hk. subst.
        rewrite Nat.eqb_refl in Ha. discriminate. }
      destruct q, resp; cbv beta iota; try waiting_tac Hn Hp.
      destruct k as [| |c|c|c|]; simpl in Hk;
        try (assert (Hc : Nat.eqb c cb = false)
              by (apply Nat.eqb_neq; congruence));
        cbv beta iota; waiting_tac Hn Hp.
    + destruct resp; waiting_tac Hn Hp.
  - js_unfold. destruct (lookup r pd); cbv beta iota; waiting_tac Hn Hp.
Qed.

Lemma other_turn_reject cb rid before after :
  Forall (fun a => other_turn cb rid a = true) (before ++ after) ->
  Forall (fun a => other_turn cb rid a = true) (before ++ Reject rid :: after).
Proof.
  intros H. apply Forall_app in H. destruct H as [Hb Ha].
  apply Forall_app. split; [exact Hb|]. constructor; [reflexivity|exact Ha].
Qed.

Ltac getter_waiting Hu :=
  split; simpl;
  [ repeat rewrite invocations_app; unfold invocations; simpl; lia
  | let r := fresh "r" in
    let x := fresh "x" in
    let Hin := fresh "Hin" in
    let Hx := fresh "Hx" in
    intros r x Hin Hx; apply in_app_or in Hin;
    destruct Hin as [Hin|[Hin|[]]];
    [ apply Hu in Hin; contradiction | inversion Hin; reflexivity ] ].

(** C9. A getter that reads the hub ([handleCurrentPositionGet],
    [handlePositionStateGet], and [handleTargetPositionGet] in the iteration
    where it resynchronises) is called with a callback that no request in
    flight carries; its read is rejected at some later turn.  Whatever else
    happens before and after (other handler calls with other callbacks,
    timers, answers and failures of other requests), the callback is never
    invoked: the trace holds as many invocations of it as before the call. *)
Theorem rejected_read_never_calls_back :
  (forall (w : World Polling.IFeelShutter) cb getter before after,
      In getter [GetCurrentPosition cb; GetTargetPosition cb;
                 GetPositionState cb] ->
      unused cb w ->
      Forall (fun a => other_turn cb (nextReq w) a = true) (before ++ after) ->
      let w1 := Polling.step getter w in
      let wn := Polling.run (before ++ Reject (nextReq w) :: after) w1 in
      In (nextReq w,
          (GetUnitByID (Polling.shutterId (self w)), getter_kont getter))
         (pending w1) /\
      invocations cb (trace wn) = invocations cb (trace w)) /\
  (forall (w : World Deferred.IFeelShutter) cb getter before after,
      In getter [GetCurrentPosition cb; GetPositionState cb] ->
      unused cb w ->
      Forall (fun a => other_turn cb (nextReq w) a = true) (before ++ after) ->
      let w1 := Deferred.step getter w in
      let wn := Deferred.run (before ++ Reject (nextReq w) :: after) w1 in
      In (nextReq w,
          (GetUnitByID (Deferred.shutterId (self w)), getter_kont getter))
         (pending w1) /\
      invocations cb (trace wn) = invocations cb (trace w)) /\
  (forall (w : World Simple.IFeelShutter) cb getter before after,
      In getter [GetCurrentPosition cb; GetPositionState cb] ->
      unused cb w ->
      Forall (fun a => other_turn cb (nextReq w) a = true) (before ++ after) ->
      let w1 := Simple.step getter w in
      let wn := Simple.run (before ++ Reject (nextReq w) :: after) w1 in
      In (nextReq w,
          (GetUnitByID (Simple.shutterId (self w)), getter_kont getter))
         (pending w1) /\
      invocations cb (trace wn) = invocations cb (trace w)).
Proof.
  split; [|split]; intros w cb getter before after Hg Hu Hs w1 wn;
    apply other_turn_reject in Hs.
  - assert (H1 : In (nextReq w, (GetUnitByID (Polling.shutterId (self w)),
                                 getter_kont getter)) (pending w1) /\
                 waiting cb (nextReq w) (invocations cb (trace w)) w1).
    { subst w1 wn. destruct w as [[p id h sum [tg cu]] ts nt pd nr ck tr].
      simpl in Hg. destruct Hg as [<-|[<-|[<-|[]]]]; js_unfold; simpl;
        (split; [apply in_or_app; right; left; reflexivity|]);
        getter_waiting Hu. }
    destruct H1 as [H1 H2]. split; [exact H1|].
    apply (run_invariant_on Polling.handlers _ _
             (fun a w => Polling_step_waiting cb _ _ a w) _ Hs w1 H2).
  - assert (H1 : In (nextReq w, (GetUnitByID (Deferred.shutterId (self w)),
                                 getter_kont getter)) (pending w1) /\
                 waiting cb (nextReq w) (invocations cb (trace w)) w1).
    { subst w1 wn. destruct w as [[id h [tg cu]] ts nt pd nr ck tr].
      simpl in Hg. destruct Hg as [<-|[<-|[]]]; js_unfold; simpl;
        (split; [apply in_or_app; right; left; reflexivity|]);
        getter_waiting Hu. }
    destruct H1 as [H1 H2]. split; [exact H1|].
    apply (run_invariant_on Deferred.handlers _ _
             (fun a w => Deferred_step_waiting cb _ _ a w) _ Hs w1 H2).
  - assert (H1 : In (nextReq w, (GetUnitByID (Simple.shutterId (self w)),
                                 getter_kont getter)) (pending w1) /\
                 waiting cb (nextReq w) (invocations cb (trace w)) w1).
    { subst w1 wn. destruct w as [[id [tg cu]] ts nt pd nr ck tr].
      simpl in Hg. destruct Hg as [<-|[<-|[]]]; js_unfold; simpl;
        (split; [apply in_or_app; right; left; reflexivity|]);
        getter_waiting Hu. }
    destruct H1 as [H1 H2]. split; [exact H1|].
    apply (run_invariant_on Simple.handlers _ _
             (fun a w => Simple_step_waiting cb _ _ a w) _ Hs w1 H2).
Qed.

Lemma rejected_read_never_calls_back_witness :
  let w := Polling.constructor defaultPlatform 5 in
  let schedule := [SetTargetPosition 70 1%nat; Fire 0%nat;
                   Fulfil 3%nat (UnitResponse 200 30)]
                  ++ Reject 1%nat
                  :: [Fulfil 0%nat (UnitResponse 200 30);
                      GetTargetPosition 8%nat;
                      Fulfil 4%nat (UnitResponse 200 30)] in
  invocations 7 (trace (Polling.run schedule
                          (Polling.step (GetTargetPosition 7%nat) w))) =
  invocations 7 (trace w).
Proof.
  intros w schedule.
  refine (proj2 (proj1 rejected_read_never_calls_back w 7%nat
                   (GetTargetPosition 7%nat) _ _ _ _ _)).
  - simpl. auto.
  - intros r x [H|[]]. inversion H. simpl. discriminate.
  - repeat constructor.
Defined.

(** ** The range of the two positions *)

Lemma percentage_spec x : percentage x = true -> 0 <= x <= 100.
Proof. unfold percentage. intros H. apply andb_true_iff in H. lia. Qed.

Lemma Polling_step_bounded a w :
  brings_percentage a = true ->
  Polling_bounded w -> Polling_bounded (Polling.step a w).
Proof.
  destruct w as [[p id h sum [tg cu]] ts nt pd nr ck tr].
  unfold Polling_bounded; simpl. intros Ha Hb.
  destruct a as [c|c|v c|c|t| |r resp|r]; simpl in Ha; js_unfold; auto.
  - apply percentage_spec in Ha. destruct h; cbv beta iota; lia.
  - destruct (existsb (Nat.eqb t) ts); cbv beta iota; auto.
  - destruct (lookup r pd) as [[[] k]|], resp; cbv beta iota; auto.
    apply percentage_spec in Ha.
    destruct k, h; cbv beta iota; split_ifs; auto; lia.
  - destruct (lookup r pd); cbv beta iota; auto.
Qed.

Lemma Deferred_step_bounded a w :
  brings_percentage a = true ->
  Deferred_bounded w -> Deferred_bounded (Deferred.step a w).
Proof.
  destruct w as [[id h [tg cu]] ts nt pd nr ck tr].
  unfold Deferred_bounded; simpl. intros Ha Hb.
  destruct a as [c|c|v c|c|t| |r resp|r]; simpl in Ha; js_unfold; auto.
  - apply percentage_spec in Ha. destruct h; cbv beta iota; lia.
  - destruct (existsb (Nat.eqb t) ts); cbv beta iota; auto.
  - destruct (lookup r pd) as [[[] k]|], resp; cbv beta iota; auto.
    apply percentage_spec in Ha.
    destruct k; cbv beta iota; auto; lia.
  - destruct (lookup r pd); cbv beta iota; auto.
Qed.

Lemma Simple_step_bounded a w :
  brings_percentage a = true ->
  Simple_bounded w -> Simple_bounded (Simple.step a w).
Proof.
  destruct w as [[id [tg cu]] ts nt pd nr ck tr].
  unfold Simple_bounded; simpl. intros Ha Hb.
  destruct a as [c|c|v c|c|t| |r resp|r]; simpl in Ha; js_unfold; auto.
  - apply percentage_spec in Ha. lia.
  - destruct (existsb (Nat.eqb t) ts); cbv beta iota; auto.
  - destruct (lookup r pd) as [[[] k]|], resp; cbv beta iota; auto.
    apply percentage_spec in Ha.
    destruct k; cbv beta iota; auto; lia.
  - destruct (lookup r pd); cbv beta iota; auto.
Qed.

(** C7 (as amended).  The accessory stores what it is given: when every
    target handed to [handleTargetPositionSet] and every position the hub
    reports lies between 0 and 100, so do [targetPosition] and
    [currentPosition] in every state the shutter reaches, in the three
    iterations. *)
Theorem positions_stay_percentages :
  forall schedule,
    Forall (fun a => brings_percentage a = true) schedule ->
    (forall p id,
        Polling_bounded (Polling.run schedule (Polling.constructor p id))) /\
    (forall id,
        Deferred_bounded (Deferred.run schedule (Deferred.constructor id))) /\
    (forall id,
        Simple_bounded (Simple.run schedule (Simple.constructor id))).
Proof.
  intros schedule Hs. split; [|split]; intros.
  - apply (run_invariant_on Polling.handlers _ _ Polling_step_bounded _ Hs).
    unfold Polling_bounded. simpl. lia.
  - apply (run_invariant_on Deferred.handlers _ _ Deferred_step_bounded _ Hs).
    unfold Deferred_bounded. simpl. lia.
  - apply (run_invariant_on Simple.handlers _ _ Simple_step_bounded _ Hs).
    unfold Simple_bounded. simpl. lia.
Qed.

Lemma positions_stay_percentages_witness :
  Polling_bounded
    (Polling.run [SetTargetPosition 70 1%nat; Fire 0%nat;
                  Fulfil 2%nat (UnitResponse 200 30);
                  Fulfil 0%nat (UnitResponse 200 100)]
       (Polling.constructor defaultPlatform 5)).
Proof.
  apply (positions_stay_percentages
           [SetTargetPosition 70 1%nat; Fire 0%nat;
            Fulfil 2%nat (UnitResponse 200 30);
            Fulfil 0%nat (UnitResponse 200 100)]).
  repeat constructor.
Defined.

(** C7 as the specification words it fails: nothing in the accessory keeps
    the positions in range.  A target of 150 is stored as it is, and so is a
    [currStatus] of 255 that the hub reports. *)
Lemma positions_leave_range :
  ~ Polling_bounded (Polling.run [SetTargetPosition 150 1%nat]
                       (Polling.constructor defaultPlatform 5)) /\
  ~ Polling_bounded (Polling.run [GetCurrentPosition 1%nat;
                                  Fulfil 1%nat (UnitResponse 200 255)]
                       (Polling.constructor defaultPlatform 5)) /\
  ~ Deferred_bounded (Deferred.run [SetTargetPosition 150 1%nat]
                        (Deferred.constructor 5)) /\
  ~ Simple_bounded (Simple.run [SetTargetPosition 150 1%nat]
                      (Simple.constructor 5)).
Proof.
  repeat split; intros [[? ?] [? ?]]; vm_compute in *; congruence.
Qed.

(** ** Between construction and the seed *)

Lemma lookup_app_some rid x l l' :
  lookup rid l = Some x -> lookup rid (l ++ l') = Some x.
Proof.
  induction l as [|[r y] l IH]; simpl; [discriminate|].
  destruct (Nat.eqb r rid); auto.
Qed.

Lemma lookup_drop_other rid q l :
  Nat.eqb q rid = false -> lookup rid (drop q l) = lookup rid l.
Proof.
  intros H. induction l as [|[r y] l IH]; simpl; auto.
  destruct (Nat.eqb r q) eqn:E1.
  - apply Nat.eqb_eq in E1. subst. rewrite H. reflexivity.
  - simpl. rewrite IH. reflexivity.
Qed.

Ltac still_pending Hs :=
  first [ exact Hs
        | apply lookup_app_some; exact Hs
        | rewrite lookup_drop_other by assumption; exact Hs ].

Lemma Polling_step_keeps_pending rid x a w :
  settles rid a = false ->
  lookup rid (pending w) = Some x ->
  lookup rid (pending (Polling.step a w)) = Some x.
Proof.
  destruct w as [[p id h sum [tg cu]] ts nt pd nr ck tr].
  simpl. intros Ha Hs.
  destruct a as [c|c|v c|c|t| |r resp|r]; simpl in Ha; js_unfold;
    try still_pending Hs.
  - destruct h; cbv beta iota; still_pending Hs.
  - destruct (existsb (Nat.eqb t) ts); cbv beta iota; still_pending Hs.
  - destruct (lookup r pd) as [[[] k]|], resp; cbv beta iota;
      try still_pending Hs.
    destruct k, h; cbv beta iota; split_ifs; still_pending Hs.
  - destruct (lookup r pd); cbv beta iota; still_pending Hs.
Qed.

Lemma Deferred_step_keeps_pending rid x a w :
  settles rid a = false ->
  lookup rid (pending w) = Some x ->
  lookup rid (pending (Deferred.step a w)) = Some x.
Proof.
  destruct w as [[id h [tg cu]] ts nt pd nr ck tr].
  simpl. intros Ha Hs.
  destruct a as [c|c|v c|c|t| |r resp|r]; simpl in Ha; js_unfold;
    try still_pending Hs.
  - destruct h; cbv beta iota; still_pending Hs.
  - destruct (existsb (Nat.eqb t) ts); cbv beta iota; still_pending Hs.
  - destruct (lookup r pd) as [[[] k]|], resp; cbv beta iota;
      try still_pending Hs.
    destruct k; cbv beta iota; still_pending Hs.
  - destruct (lookup r pd); cbv beta iota; still_pending Hs.
Qed.

Lemma Polling_step_unseeded a w :
  no_read_succeeds a = true ->
  Polling.state (self w) = Polling.mkState 0 0 ->
  Polling.state (self (Polling.step a w)) = Polling.mkState 0 0.
Proof.
  destruct w as [[p id h sum [tg cu]] ts nt pd nr ck tr].
  simpl. intros Ha [= -> ->].
  destruct a as [c|c|v c|c|t| |r resp|r]; try discriminate Ha; js_unfold; auto.
  - destruct (existsb (Nat.eqb t) ts); reflexivity.
  - destruct (lookup r pd) as [[[] k]|], resp; cbv beta iota;
      try discriminate Ha; reflexivity.
  - destruct (lookup r pd); reflexivity.
Qed.

Lemma Deferred_step_unseeded a w :
  no_read_succeeds a = true ->
  Deferred.state (self w) = Deferred.mkState 0 0 ->
  Deferred.state (self (Deferred.step a w)) = Deferred.mkState 0 0.
Proof.
  destruct w as [[id h [tg cu]] ts nt pd nr ck tr].
  simpl. intros Ha [= -> ->].
  destruct a as [c|c|v c|c|t| |r resp|r]; try discriminate Ha; js_unfold; auto.
  - destruct (existsb (Nat.eqb t) ts); reflexivity.
  - destruct (lookup r pd) as [[[] k]|], resp; cbv beta iota;
      try discriminate Ha; reflexivity.
  - destruct (lookup r pd); reflexivity.
Qed.

Lemma Deferred_get_target_world (w : World Deferred.IFeelShutter) cb :
  Deferred.step (GetTargetPosition cb) w =
  mkWorld (self w) (timers w) (nextTimer w) (pending w) (nextReq w)
          (sessionCookie w)
          (trace w ++
             [Log Debug TriggeredGetTargetPosition;
              Callback cb
                (Some (Deferred.targetPosition (Deferred.state (self w))))]).
Proof.
  destruct w as [[id h [tg cu]] ts nt pd nr ck tr].
  js_unfold. rewrite <- app_assoc. reflexivity.
Qed.

Ltac unseeded_tac Hp Hsnoc Hdrop :=
  split; [reflexivity|];
  split; [reflexivity|];
  first [ exact Hp
        | exact (Hdrop _)
        | apply Hsnoc; discriminate ].

Lemma Deferred_step_stays_unseeded a w :
  before_seed a = true ->
  Deferred_unseeded w -> Deferred_unseeded (Deferred.step a w).
Proof.
  destruct w as [[id h [tg cu]] ts nt pd nr ck tr].
  unfold Deferred_unseeded. simpl. intros Ha (-> & -> & Hp).
  assert (Hsnoc : forall y k', k' <> KTimer -> k' <> KSeed ->
            forall r q k, In (r, (q, k)) (pd ++ [(nr, (y, k'))]) ->
                          k <> KTimer /\ (k = KSeed -> r = 0%nat)).
  { intros y k' H1 H2 r q k Hin. apply in_app_or in Hin.
    destruct Hin as [Hin|[Hin|[]]]; [eauto|].
    inversion Hin; subst. split; [exact H1|]. intros E. contradiction. }
  assert (Hdrop : forall x r q k, In (r, (q, k)) (drop x pd) ->
                                  k <> KTimer /\ (k = KSeed -> r = 0%nat)).
  { intros x r q k Hin. apply In_drop in Hin. eauto. }
  destruct a as [c|c|v c|c|t| |r resp|r]; try discriminate Ha; js_unfold.
  - unseeded_tac Hp Hsnoc Hdrop.
  - unseeded_tac Hp Hsnoc Hdrop.
  - unseeded_tac Hp Hsnoc Hdrop.
  - unseeded_tac Hp Hsnoc Hdrop.
  - unseeded_tac Hp Hsnoc Hdrop.
  - destruct (lookup r pd) as [[q k]|] eqn:El;
      [|destruct resp; unseeded_tac Hp Hsnoc Hdrop].
    apply lookup_In in El. destruct (Hp _ _ _ El) as [Hk1 Hk2].
    destruct q, resp; cbv beta iota; try unseeded_tac Hp Hsnoc Hdrop.
    destruct k; cbv beta iota; try unseeded_tac Hp Hsnoc Hdrop.
    + specialize (Hk2 eq_refl). subst r. discriminate Ha.
    + contradiction.
  - destruct (lookup r pd); cbv beta iota; unseeded_tac Hp Hsnoc Hdrop.
Qed.

Lemma Polling_step_keeps_no_handle a w :
  sets_no_target a = true ->
  Polling.updateTargetInterval (self w) = None ->
  Polling.updateTargetInterval (self (Polling.step a w)) = None.
Proof.
  destruct w as [[p id h sum [tg cu]] ts nt pd nr ck tr].
  simpl. intros Ha ->.
  destruct a as [c|c|v c|c|t| |r resp|r]; try discriminate Ha; js_unfold;
    auto.
  - destruct (existsb (Nat.eqb t) ts); reflexivity.
  - destruct (lookup r pd) as [[[] k]|], resp; cbv beta iota; auto.
    destruct k; cbv beta iota; split_ifs; reflexivity.
  - destruct (lookup r pd); reflexivity.
Qed.

Lemma no_timer_read_snoc (pd : list (nat * (Request * Kont))) r q k :
  (forall r q, ~ In (r, (q, KTimer)) pd) ->
  k <> KTimer ->
  forall r' q', ~ In (r', (q', KTimer)) (pd ++ [(r, (q, k))]).
Proof.
  intros H Hk r' q' Hin. apply in_app_or in Hin.
  destruct Hin as [Hin|[Hin|[]]]; [exact (H _ _ Hin)|].
  inversion Hin; subst. apply Hk. reflexivity.
Qed.

Lemma no_timer_read_drop (pd : list (nat * (Request * Kont))) rid :
  (forall r q, ~ In (r, (q, KTimer)) pd) ->
  forall r' q', ~ In (r', (q', KTimer)) (drop rid pd).
Proof. intros H r' q' Hin. apply In_drop in Hin. exact (H _ _ Hin). Qed.

Ltac level_tac Hp :=
  repeat split; auto;
  try (apply no_timer_read_snoc; [exact Hp|discriminate]);
  try (apply no_timer_read_drop; exact Hp).

Lemma Polling_step_level a w :
  Polling_keeps_level w a = true ->
  Polling_level w -> Polling_level (Polling.step a w).
Proof.
  destruct w as [[p id h sum [tg cu]] ts nt pd nr ck tr].
  unfold Polling_level, Polling_keeps_level. simpl.
  intros Ha (-> & -> & -> & Hp).
  destruct a as [c|c|v c|c|t| |r resp|r]; try discriminate Ha; js_unfold.
  - level_tac Hp.
  - level_tac Hp.
  - level_tac Hp.
  - simpl. level_tac Hp.
  - level_tac Hp.
  - destruct (lookup r pd) as [[q k]|] eqn:El;
      [|destruct resp; level_tac Hp].
    destruct q, resp; cbv beta iota; try (level_tac Hp; fail).
    destruct k; cbv beta iota in Ha |- *;
      try (apply lookup_In in El; destruct (Hp _ _ El); fail);
      try (apply Z.eqb_eq in Ha; subst position);
      split_ifs; level_tac Hp;
      match goal with
      | E : negb (_ =? _) = false |- _ =>
          apply negb_false_iff, Z.eqb_eq in E; exact E
      | E : (_ =? _) = true |- _ => apply Z.eqb_eq in E; exact E
      end.
  - destruct (lookup r pd); cbv beta iota; level_tac Hp.
Qed.

Lemma Polling_run_level l :
  forall w, Polling_level_run l w = true ->
            Polling_level w -> Polling_level (Polling.run l w).
Proof.
  induction l as [|a l IH]; simpl; intros w Hl Hw; [exact Hw|].
  apply andb_true_iff in Hl. destruct Hl as [Ha Hl].
  apply IH; [exact Hl|]. apply Polling_step_level; assumption.
Qed.

Lemma Deferred_step_level a w :
  Deferred_keeps_level w a = true ->
  Deferred.currentPosition (Deferred.state (self w)) =
  Deferred.targetPosition (Deferred.state (self w)) ->
  Deferred.currentPosition (Deferred.state (self (Deferred.step a w))) =
  Deferred.targetPosition (Deferred.state (self (Deferred.step a w))).
Proof.
  destruct w as [[id h [tg cu]] ts nt pd nr ck tr].
  unfold Deferred_keeps_level. simpl. intros Ha ->.
  destruct a as [c|c|v c|c|t| |r resp|r]; try discriminate Ha; js_unfold;
    auto.
  - destruct (existsb (Nat.eqb t) ts); reflexivity.
  - destruct (lookup r pd) as [[q k]|] eqn:El; [|destruct resp; reflexivity].
    destruct q, resp; cbv beta iota; try reflexivity.
    destruct k; cbv beta iota; try reflexivity;
      apply Z.eqb_eq in Ha; subst; reflexivity.
  - destruct (lookup r pd); reflexivity.
Qed.

Lemma Deferred_run_level l :
  forall w, Deferred_level_run l w = true ->
            Deferred.currentPosition (Deferred.state (self w)) =
            Deferred.targetPosition (Deferred.state (self w)) ->
            Deferred.currentPosition
              (Deferred.state (self (Deferred.run l w))) =
            Deferred.targetPosition
              (Deferred.state (self (Deferred.run l w))).
Proof.
  induction l as [|a l IH]; simpl; intros w Hl Hw; [exact Hw|].
  apply andb_true_iff in Hl. destruct Hl as [Ha Hl].
  apply IH; [exact Hl|]. apply Deferred_step_level; assumption.
Qed.

Lemma Polling_level_stopped o :
  Polling.currentPosition (Polling.state o) =
  Polling.targetPosition (Polling.state o) ->
  Polling.calculateCurrentPositionState o = STOPPED.
Proof.
  unfold Polling.calculateCurrentPositionState. intros ->.
  rewrite Z.gtb_ltb, Z.ltb_irrefl. reflexivity.
Qed.

Lemma Deferred_level_stopped o :
  Deferred.currentPosition (Deferred.state o) =
  Deferred.targetPosition (Deferred.state o) ->
  Deferred.calculateCurrentPositionState o = STOPPED.
Proof.
  unfold Deferred.calculateCurrentPositionState. intros ->.
  rewrite Z.gtb_ltb, Z.ltb_irrefl. reflexivity.
Qed.

(** C10 (as amended).  The constructor leaves both positions at 0 and one
    read in flight, the seed, whose answer is assigned to both.
    Until a read is answered or a target is set, both positions stay 0.
    For as long as no target is set and every read whose answer is assigned
    to the current position alone (that of [handlePositionStateGet], and in
    the deferred iteration that of [handleCurrentPositionGet] too) is
    answered with the stored target, the two positions are equal and the
    state derived from them is STOPPED, whatever else the hub answers.
    In the iteration whose target getter reads no hub,
    [handleTargetPositionGet] calls back with 0 at once for as long as no
    target has been set and the seed has not been answered, whatever the hub
    has answered to other reads.
    In the polling iteration [handleTargetPositionGet] never calls back at
    the call: it calls back when its own read is answered, with the position
    that read reports when no interval is held then, as is the case while no
    target has been set, and with the stored target otherwise. *)
Theorem positions_before_seed :
  (forall p id status position,
      let w := Polling.constructor p id in
      Polling.state (self w) = Polling.mkState 0 0 /\
      pending w = [(0%nat, (GetUnitByID id, KSeed))] /\
      Polling.state
        (self (Polling.step (Fulfil 0%nat (UnitResponse status position)) w)) =
      Polling.mkState position position) /\
  (forall id status position,
      let w := Deferred.constructor id in
      Deferred.state (self w) = Deferred.mkState 0 0 /\
      pending w = [(0%nat, (GetUnitByID id, KSeed))] /\
      Deferred.state
        (self (Deferred.step (Fulfil 0%nat (UnitResponse status position)) w)) =
      Deferred.mkState position position) /\
  (forall schedule,
      Forall (fun a => no_read_succeeds a = true) schedule ->
      (forall p id,
          let w := Polling.run schedule (Polling.constructor p id) in
          Polling.state (self w) = Polling.mkState 0 0 /\
          Polling.calculateCurrentPositionState (self w) = STOPPED) /\
      (forall id,
          let w := Deferred.run schedule (Deferred.constructor id) in
          Deferred.state (self w) = Deferred.mkState 0 0 /\
          Deferred.calculateCurrentPositionState (self w) = STOPPED)) /\
  (forall schedule,
      (forall p id,
          Polling_level_run schedule (Polling.constructor p id) = true ->
          let w := Polling.run schedule (Polling.constructor p id) in
          Polling.currentPosition (Polling.state (self w)) =
          Polling.targetPosition (Polling.state (self w)) /\
          Polling.calculateCurrentPositionState (self w) = STOPPED) /\
      (forall id,
          Deferred_level_run schedule (Deferred.constructor id) = true ->
          let w := Deferred.run schedule (Deferred.constructor id) in
          Deferred.currentPosition (Deferred.state (self w)) =
          Deferred.targetPosition (Deferred.state (self w)) /\
          Deferred.calculateCurrentPositionState (self w) = STOPPED)) /\
  (forall schedule id cb,
      Forall (fun a => before_seed a = true) schedule ->
      let w := Deferred.run schedule (Deferred.constructor id) in
      Deferred.targetPosition (Deferred.state (self w)) = 0 /\
      emitted w (Deferred.step (GetTargetPosition cb) w) =
        [Log Debug TriggeredGetTargetPosition; Callback cb (Some 0)]) /\
  (forall before between p id cb status position,
      let w := Polling.run before (Polling.constructor p id) in
      let w1 := Polling.step (GetTargetPosition cb) w in
      Forall (fun a => settles (nextReq w) a = false) between ->
      let w2 := Polling.run between w1 in
      let w3 := Polling.step
                  (Fulfil (nextReq w) (UnitResponse status position)) w2 in
      filter isCallback (emitted w w1) = [] /\
      filter isCallback (emitted w2 w3) =
        [Callback cb
           (Some (match Polling.updateTargetInterval (self w2) with
                  | None => position
                  | Some _ => Polling.targetPosition (Polling.state (self w2))
                  end))] /\
      (Forall (fun a => sets_no_target a = true) before ->
       Forall (fun a => sets_no_target a = true) between ->
       Polling.updateTargetInterval (self w2) = None /\
       Polling.state (self w3) = Polling.mkState position position)).
Proof.
  split; [|split; [|split; [|split; [|split]]]].
  - intros. repeat split.
  - intros. repeat split.
  - intros schedule Hs. split.
    + intros p id w.
      assert (E : Polling.state (self w) = Polling.mkState 0 0).
      { apply (run_invariant_on Polling.handlers
                 (fun w => Polling.state (self w) = Polling.mkState 0 0)
                 _ Polling_step_unseeded _ Hs). reflexivity. }
      split; [exact E|].
      unfold Polling.calculateCurrentPositionState. rewrite E. reflexivity.
    + intros id w.
      assert (E : Deferred.state (self w) = Deferred.mkState 0 0).
      { apply (run_invariant_on Deferred.handlers
                 (fun w => Deferred.state (self w) = Deferred.mkState 0 0)
                 _ Deferred_step_unseeded _ Hs). reflexivity. }
      split; [exact E|].
      unfold Deferred.calculateCurrentPositionState. rewrite E. reflexivity.
  - intros schedule. split.
    + intros p id Hl w.
      assert (E : Polling_level w).
      { apply Polling_run_level; [exact Hl|].
        unfold Polling_level. simpl. repeat split; auto.
        intros r q [H|[]]. discriminate H. }
      destruct E as (E & _). split; [exact E|].
      apply Polling_level_stopped, E.
    + intros id Hl w.
      assert (E : Deferred.currentPosition (Deferred.state (self w)) =
                  Deferred.targetPosition (Deferred.state (self w)))
        by (apply Deferred_run_level; [exact Hl|reflexivity]).
      split; [exact E|]. apply Deferred_level_stopped, E.
  - intros schedule id cb Hs w.
    assert (E : Deferred_unseeded w).
    { apply (run_invariant_on Deferred.handlers Deferred_unseeded
               _ Deferred_step_stays_unseeded _ Hs).
      unfold Deferred_unseeded. simpl. repeat split; auto.
      - destruct H as [H|[]]. inversion H. discriminate.
      - destruct H as [H|[]]. inversion H. reflexivity. }
    destruct E as (E & _). split; [exact E|].
    apply emitted_app. rewrite Deferred_get_target_world. simpl.
    rewrite E. reflexivity.
  - intros before between p id cb status position w w1 Hr w2 w3.
    destruct (Polling_reachable_wf before p id) as (_ & _ & H3).
    fold w in H3.
    assert (E1 : trace w1 = trace w ++
                   [Log Debug TriggeredGetTargetPosition;
                    Log Info (GettingUnitData (Polling.shutterId (self w)));
                    Http (nextReq w)
                         (GetUnitByID (Polling.shutterId (self w)))] /\
                 pending w1 = pending w ++
                   [(nextReq w, (GetUnitByID (Polling.shutterId (self w)),
                                 KTargetPositionGet cb))] /\
                 Polling.updateTargetInterval (self w1) =
                 Polling.updateTargetInterval (self w)).
    { subst w1. clearbody w.
      destruct w as [[p' i h sum [tg cu]] ts nt pd nr ck tr].
      js_unfold. repeat rewrite <- app_assoc.
      repeat split. }
    destruct E1 as (E1 & E1p & E1h).
    destruct (lookup_snoc_fresh (nextReq w)
                (GetUnitByID (Polling.shutterId (self w)),
                 KTargetPositionGet cb) (pending w) H3) as [L _].
    rewrite <- E1p in L.
    assert (L2 : lookup (nextReq w) (pending w2) =
                 Some (GetUnitByID (Polling.shutterId (self w)),
                       KTargetPositionGet cb)).
    { apply (run_invariant_on Polling.handlers
               (fun w' => lookup (nextReq w) (pending w') = Some _)
               (fun a => negb (settles (nextReq w) a))).
      - intros a w' Ha. apply Polling_step_keeps_pending.
        apply negb_true_iff, Ha.
      - eapply Forall_impl; [|exact Hr]. simpl. intros a ->. reflexivity.
      - exact L. }
    split; [rewrite (emitted_app _ _ _ E1); reflexivity|].
    assert (G : forall h,
               Polling.updateTargetInterval (self w2) = h ->
               filter isCallback (emitted w2 w3) =
                 [Callback cb
                    (Some (match h with
                           | None => position
                           | Some _ =>
                               Polling.targetPosition (Polling.state (self w2))
                           end))] /\
               (h = None ->
                Polling.state (self w3) = Polling.mkState position position)).
    { subst w3. clear - L2. clearbody w2.
      generalize dependent (nextReq w). intros rid L2.
      generalize dependent (Polling.shutterId (self w)). intros i L2.
      destruct w2 as [[p' i' h sum [tg cu]] ts nt pd nr ck tr].
      simpl in *. intros h' <-. unfold emitted. js_unfold. rewrite L2.
      cbv beta iota.
      destruct h as [t|]; cbv beta iota.
      - simpl. repeat rewrite <- app_assoc. rewrite skipn_length_app.
        split; [reflexivity|discriminate].
      - destruct (position =? tg) eqn:E; cbv beta iota;
          [apply Z.eqb_eq in E; subst tg|];
          simpl; repeat rewrite <- app_assoc; rewrite skipn_length_app;
          split; reflexivity. }
    destruct (G _ eq_refl) as [G1 G2].
    split; [exact G1|].
    intros Hb Hm.
    assert (Hh : Polling.updateTargetInterval (self w) = None).
    { apply (run_invariant_on Polling.handlers
               (fun w => Polling.updateTargetInterval (self w) = None)
               _ Polling_step_keeps_no_handle _ Hb). reflexivity. }
    assert (H2 : Polling.updateTargetInterval (self w2) = None).
    { apply (run_invariant_on Polling.handlers
               (fun w => Polling.updateTargetInterval (self w) = None)
               _ Polling_step_keeps_no_handle _ Hm).
      rewrite E1h. exact Hh. }
    split; [exact H2|].
    destruct (G _ H2) as [_ G3]. apply G3. reflexivity.
Qed.

Lemma positions_before_seed_witness :
  let schedule := [GetCurrentPosition 3%nat; Fulfil 1%nat (UnitResponse 200 70);
                   GetPositionState 4%nat; Reauthenticate] in
  let w := Deferred.run schedule (Deferred.constructor 5) in
  let before := [GetCurrentPosition 3%nat;
                 Fulfil 1%nat (UnitResponse 200 70)] in
  let between := [Fulfil 0%nat (UnitResponse 200 40); Reauthenticate] in
  let p := Polling.run before (Polling.constructor defaultPlatform 5) in
  let p2 := Polling.run between (Polling.step (GetTargetPosition 7%nat) p) in
  let level := [GetCurrentPosition 3%nat; GetPositionState 4%nat;
                Fulfil 1%nat (UnitResponse 200 70);
                Fulfil 2%nat (UnitResponse 200 70);
                Fulfil 0%nat (UnitResponse 200 40)] in
  let seeded := [GetPositionState 4%nat; Fulfil 0%nat (UnitResponse 200 40);
                 Fulfil 1%nat (UnitResponse 200 40)] in
  emitted w (Deferred.step (GetTargetPosition 7%nat) w) =
    [Log Debug TriggeredGetTargetPosition; Callback 7%nat (Some 0)] /\
  filter isCallback
    (emitted p2 (Polling.step (Fulfil 2%nat (UnitResponse 200 55)) p2)) =
    [Callback 7%nat (Some 55)] /\
  Polling.calculateCurrentPositionState
    (self (Polling.run [GetCurrentPosition 3%nat; Reject 1%nat]
             (Polling.constructor defaultPlatform 5))) = STOPPED /\
  Polling.calculateCurrentPositionState
    (self (Polling.run level (Polling.constructor defaultPlatform 5))) =
    STOPPED /\
  Deferred.calculateCurrentPositionState
    (self (Deferred.run seeded (Deferred.constructor 5))) = STOPPED.
Proof.
  intros schedule w before between p p2 level seeded.
  destruct positions_before_seed as (_ & _ & A & L & B & C).
  split; [|split; [|split; [|split]]].
  - assert (H : Forall (fun a => before_seed a = true) schedule)
      by (repeat constructor).
    apply (B schedule 5 7%nat H).
  - assert (Hr : Forall (fun a => settles 2 a = false) between)
      by (repeat constructor).
    destruct (C before between defaultPlatform 5 7%nat 200 55 Hr)
      as (_ & E & _).
    exact E.
  - assert (H : Forall (fun a => no_read_succeeds a = true)
                  [GetCurrentPosition 3%nat; Reject 1%nat])
      by (repeat constructor).
    apply (proj1 (A _ H) defaultPlatform 5).
  - apply (proj1 (L level) defaultPlatform 5). reflexivity.
  - apply (proj2 (L seeded) 5). reflexivity.
Defined.

(** C10 as the specification words it fails.  In the polling iteration the
    target getter reads the hub: called before the seed has come back, it
    calls back with what its own read reports, 70, not with 0.  Once a read
    of [handlePositionStateGet] has come back before the seed, the derived
    state is DECREASING, not STOPPED, in both iterations.  And once a target
    has been set before the seed has come back, the deferred getter calls
    back with that target, 50, and the derived state is INCREASING. *)
Lemma getter_before_seed_reports_hub :
  (let w := Polling.run [GetTargetPosition 7%nat;
                         Fulfil 1%nat (UnitResponse 200 70)]
              (Polling.constructor defaultPlatform 5) in
   In (0%nat, (GetUnitByID 5, KSeed)) (pending w) /\
   filter isCallback (trace w) = [Callback 7%nat (Some 70)]) /\
  (let w := Deferred.run [GetPositionState 7%nat;
                          Fulfil 1%nat (UnitResponse 200 70)]
              (Deferred.constructor 5) in
   In (0%nat, (GetUnitByID 5, KSeed)) (pending w) /\
   Deferred.calculateCurrentPositionState (self w) = DECREASING /\
   filter isCallback (trace w) =
     [Callback 7%nat (Some (positionStateNumber DECREASING))]) /\
  (let w := Polling.run [GetPositionState 7%nat;
                         Fulfil 1%nat (UnitResponse 200 70)]
              (Polling.constructor defaultPlatform 5) in
   In (0%nat, (GetUnitByID 5, KSeed)) (pending w) /\
   Polling.calculateCurrentPositionState (self w) = DECREASING) /\
  (let w := Deferred.run [SetTargetPosition 50 1%nat; GetTargetPosition 7%nat]
              (Deferred.constructor 5) in
   In (0%nat, (GetUnitByID 5, KSeed)) (pending w) /\
   Deferred.calculateCurrentPositionState (self w) = INCREASING /\
   filter isCallback (trace w) =
     [Callback 1%nat None; Callback 7%nat (Some 50)]).
Proof.
  repeat split; try (vm_compute; auto; fail).
Qed.

(** ** Failures of the hub *)

Lemma step_reject_sent {S} (H : Handlers S) (w : World S) pd rid x :
  pending w = pd ++ [(rid, x)] ->
  step H (Reject rid) w = after_failure rid w.
Proof.
  intros E. destruct (lookup_snoc rid x pd) as [y Hy]. rewrite <- E in Hy.
  simpl. apply (reject_pending _ _ _ Hy).
Qed.

Lemma Polling_sends a w :
  sends_request true a = true ->
  exists x, pending (Polling.step a w) = pending w ++ [(nextReq w, x)].
Proof.
  destruct w as [[p id h sum [tg cu]] ts nt pd nr ck tr].
  destruct a as [c|c|v c|c|t| |r resp|r]; try discriminate; intros _;
    js_unfold; eauto.
  destruct h; cbv beta iota; eauto.
Qed.

Lemma Deferred_sends a w :
  sends_request false a = true ->
  exists x, pending (Deferred.step a w) = pending w ++ [(nextReq w, x)].
Proof.
  destruct w as [[id h [tg cu]] ts nt pd nr ck tr].
  destruct a as [c|c|v c|c|t| |r resp|r]; try discriminate; intros _;
    js_unfold; eauto.
  destruct h; cbv beta iota; eauto.
Qed.

Lemma Simple_sends a w :
  sends_request false a = true ->
  exists x, pending (Simple.step a w) = pending w ++ [(nextReq w, x)].
Proof.
  destruct w as [[id [tg cu]] ts nt pd nr ck tr].
  destruct a as [c|c|v c|c|t| |r resp|r]; try discriminate; intros _;
    js_unfold; eauto.
Qed.

(** C6 (as amended).  Each of these operations sends one request to the
    hub: the scheduled re-authentication, a getter that reads, the setter's
    command.  When that request fails, no code of the plugin runs: nothing is
    logged, no callback is called, the accessory, its timers and the session
    cookie are as they were, and the rejection is left without a handler. *)
Theorem hub_failure_reaches_no_handler :
  (forall a (w : World Polling.IFeelShutter),
      sends_request true a = true ->
      let w1 := Polling.step a w in
      let w2 := Polling.step (Reject (nextReq w)) w1 in
      (exists x, In (nextReq w, x) (pending w1)) /\
      w2 = after_failure (nextReq w) w1 /\
      emitted w1 w2 = [UnhandledRejection (nextReq w)]) /\
  (forall a (w : World Deferred.IFeelShutter),
      sends_request false a = true ->
      let w1 := Deferred.step a w in
      let w2 := Deferred.step (Reject (nextReq w)) w1 in
      (exists x, In (nextReq w, x) (pending w1)) /\
      w2 = after_failure (nextReq w) w1 /\
      emitted w1 w2 = [UnhandledRejection (nextReq w)]) /\
  (forall a (w : World Simple.IFeelShutter),
      sends_request false a = true ->
      let w1 := Simple.step a w in
      let w2 := Simple.step (Reject (nextReq w)) w1 in
      (exists x, In (nextReq w, x) (pending w1)) /\
      w2 = after_failure (nextReq w) w1 /\
      emitted w1 w2 = [UnhandledRejection (nextReq w)]).
Proof.
  split; [|split]; intros a w Ha w1 w2.
  - destruct (Polling_sends a w Ha) as [x Hx]. fold w1 in Hx.
    assert (E : w2 = after_failure (nextReq w) w1)
      by (apply (step_reject_sent Polling.handlers _ _ _ _ Hx)).
    split; [|split; [exact E|]].
    + exists x. rewrite Hx. apply in_or_app. right. left. reflexivity.
    + apply emitted_app. rewrite E. reflexivity.
  - destruct (Deferred_sends a w Ha) as [x Hx]. fold w1 in Hx.
    assert (E : w2 = after_failure (nextReq w) w1)
      by (apply (step_reject_sent Deferred.handlers _ _ _ _ Hx)).
    split; [|split; [exact E|]].
    + exists x. rewrite Hx. apply in_or_app. right. left. reflexivity.
    + apply emitted_app. rewrite E. reflexivity.
  - destruct (Simple_sends a w Ha) as [x Hx]. fold w1 in Hx.
    assert (E : w2 = after_failure (nextReq w) w1)
      by (apply (step_reject_sent Simple.handlers _ _ _ _ Hx)).
    split; [|split; [exact E|]].
    + exists x. rewrite Hx. apply in_or_app. right. left. reflexivity.
    + apply emitted_app. rewrite E. reflexivity.
Qed.

Lemma hub_failure_reaches_no_handler_witness :
  let w := Polling.constructor defaultPlatform 5 in
  emitted (Polling.step Reauthenticate w)
          (Polling.step (Reject 1%nat) (Polling.step Reauthenticate w)) =
    [UnhandledRejection 1%nat].
Proof.
  intros w.
  apply (proj1 hub_failure_reaches_no_handler Reauthenticate w eq_refl).
Defined.

(** C6 as the specification words it fails: a failed re-authentication and
    a failed read of a getter are neither caught nor logged.  After the
    failure the trace has grown by the unhandled rejection alone. *)
Lemma hub_failure_not_caught :
  (let w := Polling.step Reauthenticate
              (Polling.constructor defaultPlatform 5) in
   let w' := Polling.step (Reject 1%nat) w in
   In (1%nat, (AuthLogin, KNone)) (pending w) /\
   In (UnhandledRejection 1%nat) (trace w') /\
   filter isLog (emitted w w') = []) /\
  (let w := Polling.step (GetCurrentPosition 7%nat)
              (Polling.constructor defaultPlatform 5) in
   let w' := Polling.step (Reject 1%nat) w in
   In (1%nat, (GetUnitByID 5, KCurrentPositionGet 7%nat)) (pending w) /\
   In (UnhandledRejection 1%nat) (trace w') /\
   filter isLog (emitted w w') = []).
Proof.
  split; cbv zeta; repeat split; vm_compute; auto 10.
Qed.

(** * Beyond the claims *)

(** ** A session that reaches its target *)

Lemma poll_round_target p t v c k w :
  Polling_session p t v c k w ->
  k * pollingInterval p < maxPollingTime p ->
  let w' := poll_round t v w in
  timers w' = [] /\
  Polling.updateTargetInterval (self w') = None /\
  Polling.state (self w') = Polling.mkState v v /\
  cap_logs (trace w') =
    (c + if (k + 1) * pollingInterval p >=? maxPollingTime p then 1 else 0)%nat.
Proof.
  destruct w as [[p' id h sum [tg cu]] ts nt pd nr ck tr].
  intros H Hk. unfold Polling_session in H. simpl in H.
  destruct H as (H3 & -> & -> & H).
  apply Z.ltb_lt in Hk. rewrite Hk in H.
  destruct H as (-> & -> & -> & Hc).
  destruct (lookup_snoc_fresh nr (GetUnitByID id, KTimer) pd H3) as [E1 E2].
  unfold poll_round.
  rewrite Polling_fire_live by (simpl; rewrite Nat.eqb_refl; reflexivity).
  js_unfold. rewrite E1. cbv beta iota. rewrite E2.
  replace (k * pollingInterval p + pollingInterval p)
    with ((k + 1) * pollingInterval p) by lia.
  destruct ((k + 1) * pollingInterval p >=? maxPollingTime p) eqn:Eg;
    cbv beta iota; rewrite Z.eqb_refl; cbv beta iota;
    try rewrite remove_single;
    repeat split; auto; count_cap_logs Hc.
Qed.

(** X1. A polling session whose first reads report positions other than
    the target, and whose next read, still below the cap, reports the target:
    the timer is registered up to that tick and cleared at it, both positions
    are the target and the derived state is STOPPED.  The cap line is logged
    at that tick exactly when the tick is also the one that reaches
    [maxPollingTime]. *)
Theorem polling_stops_at_target :
  forall l p id v cb positions,
    0 < pollingInterval p -> 0 < maxPollingTime p ->
    Forall (fun x => x <> v) positions ->
    let w := Polling.run l (Polling.constructor p id) in
    let t := nextTimer w in
    let w0 := Polling.step (SetTargetPosition v cb) w in
    let wk := poll_rounds t positions w0 in
    let k := Z.of_nat (List.length positions) in
    k * pollingInterval p < maxPollingTime p ->
    let w' := poll_round t v wk in
    timers wk = [t] /\
    timers w' = [] /\
    Polling.updateTargetInterval (self w') = None /\
    Polling.state (self w') = Polling.mkState v v /\
    Polling.calculateCurrentPositionState (self w') = STOPPED /\
    cap_logs (trace w') =
      (cap_logs (trace w0) +
       if (k + 1) * pollingInterval p >=? maxPollingTime p then 1 else 0)%nat.
Proof.
  intros l p id v cb positions Hpi Hmax Hpos w t w0 wk k Hk w'.
  pose proof (Polling_session_start l p id v cb Hmax) as H0.
  cbv zeta in H0. fold w in H0. fold w0 in H0. fold t in H0.
  pose proof (poll_rounds_session p t v _ positions Hpi Hpos 0 w0
                (Z.le_refl 0) H0) as Hn.
  fold wk in Hn. rewrite Z.add_0_l in Hn. fold k in Hn.
  destruct (poll_round_target p t v _ k wk Hn Hk) as (A & B & C & D).
  fold w' in A, B, C, D.
  unfold Polling_session in Hn.
  destruct Hn as (_ & _ & _ & Hn).
  apply Z.ltb_lt in Hk. rewrite Hk in Hn. destruct Hn as (Ht & _).
  repeat split; auto.
  unfold Polling.calculateCurrentPositionState. rewrite C. simpl.
  rewrite Z.gtb_ltb, Z.ltb_irrefl. reflexivity.
Qed.

Lemma polling_stops_at_target_witness :
  timers (poll_round 0 70
            (poll_rounds 0 [30; 50]
               (Polling.step (SetTargetPosition 70 1%nat)
                  (Polling.constructor defaultPlatform 5)))) = [].
Proof.
  assert (H : Forall (fun x => x <> 70) [30; 50])
    by (repeat constructor; discriminate).
  apply (polling_stops_at_target [] defaultPlatform 5 70 1%nat [30; 50]
           eq_refl eq_refl H eq_refl).
Defined.

(** ** Timers the accessory has let go of *)

Lemma Deferred_fire_dead (w : World Deferred.IFeelShutter) t :
  existsb (Nat.eqb t) (timers w) = false -> Deferred.step (Fire t) w = w.
Proof.
  intros H. destruct w as [[id h [tg cu]] ts nt pd nr ck tr].
  simpl in H. js_unfold. rewrite H. reflexivity.
Qed.

Lemma existsb_handle_other h t :
  h <> Some t -> existsb (Nat.eqb t) (handle_timers h) = false.
Proof.
  destruct h as [t'|]; simpl; auto. intros H.
  rewrite orb_false_r. apply Nat.eqb_neq. congruence.
Qed.

Lemma Deferred_fire_live (w : World Deferred.IFeelShutter) t :
  existsb (Nat.eqb t) (timers w) = true ->
  Deferred.step (Fire t) w =
  mkWorld (self w) (remove Nat.eq_dec t (timers w)) (nextTimer w)
          (pending w ++
             [(nextReq w, (GetUnitByID (Deferred.shutterId (self w)), KTimer))])
          (Datatypes.S (nextReq w)) (sessionCookie w)
          ((trace w ++ [Log Info (GettingUnitData (Deferred.shutterId (self w)))])
             ++ [Http (nextReq w) (GetUnitByID (Deferred.shutterId (self w)))]).
Proof.
  intros H. destruct w as [[id h [tg cu]] ts nt pd nr ck tr].
  simpl in H. js_unfold. rewrite H. reflexivity.
Qed.

Lemma existsb_In t l : In t l -> existsb (Nat.eqb t) l = true.
Proof.
  intros H. apply existsb_exists. exists t. split; [exact H|].
  apply Nat.eqb_refl.
Qed.

Lemma Deferred_step_keeps_fired a w h :
  sets_no_target a = true ->
  timers w = [] /\ Deferred.updateTargetPositionTimeout (self w) = h ->
  timers (Deferred.step a w) = [] /\
  Deferred.updateTargetPositionTimeout (self (Deferred.step a w)) = h.
Proof.
  destruct w as [[id h' [tg cu]] ts nt pd nr ck tr].
  simpl. intros Ha (-> & ->).
  destruct a as [c|c|v c|c|t| |r resp|r]; try discriminate Ha; js_unfold;
    auto.
  - destruct (lookup r pd) as [[[] k]|], resp; cbv beta iota; auto.
    destruct k; cbv beta iota; auto.
  - destruct (lookup r pd); cbv beta iota; auto.
Qed.

(** X2. In every state a shutter reaches, a timer whose handle the accessory
    does not hold (one it has cleared or replaced) does nothing when the loop
    fires it: no read is sent and nothing changes.  In the deferred
    iteration the accessory goes on holding the handle of a timeout that has
    fired; that timeout is no longer registered and, fired again, does
    nothing either, whatever has happened since short of a new target being
    set. *)
Theorem released_timer_never_runs :
  (forall l p id t,
      let w := Polling.run l (Polling.constructor p id) in
      Polling.updateTargetInterval (self w) <> Some t ->
      Polling.step (Fire t) w = w) /\
  (forall l id t,
      let w := Deferred.run l (Deferred.constructor id) in
      Deferred.updateTargetPositionTimeout (self w) <> Some t ->
      Deferred.step (Fire t) w = w) /\
  (forall l id t later,
      let w := Deferred.run l (Deferred.constructor id) in
      In t (timers w) ->
      Forall (fun a => sets_no_target a = true) later ->
      let w1 := Deferred.run later (Deferred.step (Fire t) w) in
      Deferred.updateTargetPositionTimeout (self w1) = Some t /\
      timers w1 = [] /\
      Deferred.step (Fire t) w1 = w1).
Proof.
  split; [|split].
  - intros l p id t w Ht.
    destruct (Polling_reachable_wf l p id) as (H1 & _). fold w in H1.
    apply Polling_fire_dead. rewrite H1. apply existsb_handle_other, Ht.
  - intros l id t w Ht.
    destruct (Deferred_reachable_wf l id) as (H1 & _). fold w in H1.
    apply Deferred_fire_dead. destruct H1 as [-> | ->]; [reflexivity|].
    apply existsb_handle_other, Ht.
  - intros l id t later w Ht Hl w1.
    destruct (Deferred_reachable_wf l id) as (H1 & _). fold w in H1.
    assert (Hh : timers w = [t] /\
                 Deferred.updateTargetPositionTimeout (self w) = Some t).
    { destruct H1 as [H1|H1]; rewrite H1 in Ht; [destruct Ht|].
      rewrite H1.
      destruct (Deferred.updateTargetPositionTimeout (self w));
        simpl in Ht; [|destruct Ht].
      destruct Ht as [->|[]]. split; reflexivity. }
    destruct Hh as [Hts Hh].
    assert (H0 : timers (Deferred.step (Fire t) w) = [] /\
                 Deferred.updateTargetPositionTimeout
                   (self (Deferred.step (Fire t) w)) = Some t).
    { rewrite Deferred_fire_live by (apply existsb_In, Ht).
      simpl. rewrite Hts, remove_single. split; [reflexivity|exact Hh]. }
    assert (Hn : timers w1 = [] /\
                 Deferred.updateTargetPositionTimeout (self w1) = Some t).
    { apply (run_invariant_on Deferred.handlers
               (fun w => timers w = [] /\
                         Deferred.updateTargetPositionTimeout (self w)
                         = Some t)
               sets_no_target); auto.
      intros a w'. apply Deferred_step_keeps_fired. }
    destruct Hn as [Hn1 Hn2]. repeat split; auto.
    apply Deferred_fire_dead. rewrite Hn1. reflexivity.
Qed.

Lemma released_timer_never_runs_witness :
  let w := Polling.run [SetTargetPosition 70 1%nat; SetTargetPosition 30 2%nat]
             (Polling.constructor defaultPlatform 5) in
  let d := Deferred.run [SetTargetPosition 70 1%nat] (Deferred.constructor 5) in
  let later := [GetCurrentPosition 4%nat; Fulfil 2%nat (UnitResponse 200 40)] in
  let d1 := Deferred.run later (Deferred.step (Fire 0%nat) d) in
  Polling.step (Fire 0%nat) w = w /\
  Deferred.updateTargetPositionTimeout (self d1) = Some 0%nat /\
  Deferred.step (Fire 0%nat) d1 = d1.
Proof.
  intros w d later d1.
  destruct released_timer_never_runs as (A & _ & C).
  split.
  - apply (A [SetTargetPosition 70 1%nat; SetTargetPosition 30 2%nat]
             defaultPlatform 5 0%nat).
    vm_compute. discriminate.
  - assert (Hl : Forall (fun a => sets_no_target a = true) later)
      by (repeat constructor).
    destruct (C [SetTargetPosition 70 1%nat] 5 0%nat later
                (or_introl eq_refl) Hl) as (C1 & _ & C3).
    split; [exact C1|exact C3].
Defined.

(** ** The getters of the polling iteration *)

(** X3. In the polling iteration, when the read of [handleCurrentPositionGet]
    or of [handleTargetPositionGet] is answered: the current position is the
    answer; with no session running the target becomes the answer too, the
    derived state is STOPPED and no other state is ever published; with a
    session running the target is left alone.  The current getter calls back
    with the answer, the target getter with the target it leaves.  Neither
    starts or stops a timer. *)
Theorem getter_read_resynchronises_when_idle :
  forall (w : World Polling.IFeelShutter) rid id cb status position,
    (lookup rid (pending w) = Some (GetUnitByID id, KCurrentPositionGet cb) \/
     lookup rid (pending w) = Some (GetUnitByID id, KTargetPositionGet cb)) ->
    let w' := Polling.step (Fulfil rid (UnitResponse status position)) w in
    let target' := Polling.targetPosition (Polling.state (self w')) in
    Polling.currentPosition (Polling.state (self w')) = position /\
    (Polling.updateTargetInterval (self w) = None ->
     target' = position /\
     Polling.calculateCurrentPositionState (self w') = STOPPED) /\
    (Polling.updateTargetInterval (self w) <> None ->
     target' = Polling.targetPosition (Polling.state (self w))) /\
    (forall n, In (UpdateCharacteristic PositionState n) (emitted w w') ->
               n = positionStateNumber STOPPED) /\
    (lookup rid (pending w) = Some (GetUnitByID id, KCurrentPositionGet cb) ->
     filter isCallback (emitted w w') = [Callback cb (Some position)]) /\
    (lookup rid (pending w) = Some (GetUnitByID id, KTargetPositionGet cb) ->
     filter isCallback (emitted w w') = [Callback cb (Some target')]) /\
    timers w' = timers w /\
    Polling.updateTargetInterval (self w') =
      Polling.updateTargetInterval (self w).
Proof.
  intros w rid id cb status position Hl w' target'. subst target' w'.
  destruct w as [[p i h sum [tg cu]] ts nt pd nr ck tr].
  unfold emitted. simpl in Hl. js_unfold.
  unfold Polling.calculateCurrentPositionState. simpl.
  destruct Hl as [Hl|Hl]; rewrite Hl; cbv beta iota;
    (destruct h; cbv beta iota;
     [|destruct (position =? tg) eqn:E; cbv beta iota;
       [apply Z.eqb_eq in E; subst tg|]]);
    simpl; repeat rewrite <- app_assoc; rewrite ?skipn_length_app; simpl;
    rewrite ?Z.gtb_ltb, ?Z.ltb_irrefl;
    (repeat split; auto; try congruence; try discriminate;
     try (let Hn := fresh "Hn" in
          intros ? Hn; simpl in Hn; intuition congruence)).
Qed.

Lemma getter_read_resynchronises_when_idle_witness :
  let w := Polling.run [Fulfil 0%nat (UnitResponse 200 30);
                        GetCurrentPosition 7%nat]
             (Polling.constructor defaultPlatform 5) in
  Polling.state
    (self (Polling.step (Fulfil 1%nat (UnitResponse 200 55)) w)) =
  Polling.mkState 55 55.
Proof.
  intros w.
  destruct (getter_read_resynchronises_when_idle w 1%nat 5 7%nat 200 55
              (or_introl eq_refl)) as (A & B & _).
  destruct (B eq_refl) as [B1 _].
  revert A B1.
  destruct (Polling.state
              (self (Polling.step (Fulfil 1%nat (UnitResponse 200 55)) w)))
    as [tg cu].
  simpl. intros -> ->. reflexivity.
Defined.

(** ** The deferred check *)

(** X4. In the deferred iteration, when the registered timeout fires it is
    no longer registered and one read is sent; when that read is answered
    both positions become the answer, whatever target had been set, and the
    state published is STOPPED.  The timeout fires once: fired again, its
    handle does nothing. *)
Theorem deferred_check_snaps_positions :
  forall l id t status position,
    let w := Deferred.run l (Deferred.constructor id) in
    In t (timers w) ->
    let w1 := Deferred.step (Fire t) w in
    let w2 := Deferred.step (Fulfil (nextReq w) (UnitResponse status position))
                w1 in
    timers w1 = [] /\
    emitted w w1 =
      [Log Info (GettingUnitData id); Http (nextReq w) (GetUnitByID id)] /\
    Deferred.step (Fire t) w1 = w1 /\
    Deferred.state (self w2) = Deferred.mkState position position /\
    emitted w1 w2 =
      [Log Info (GotUnitDataResponse status);
       Log Info UpdatingAfterTimeout;
       Assign state_currentPosition position;
       Assign state_targetPosition position;
       SetCharacteristic PositionState (positionStateNumber STOPPED)] /\
    timers w2 = [].
Proof.
  intros l id t status position w Ht w1 w2.
  destruct (Deferred_reachable_wf l id) as (H1 & H2 & H3).
  assert (Hid : Deferred.shutterId (self w) = id).
  { apply (run_invariant Deferred.handlers
             (fun w => Deferred.shutterId (self w) = id)); [|reflexivity].
    intros a [[i h [tg cu]] ts nt pd nr ck tr]. simpl. intros ->.
    destruct a as [c|c|v c|c|t'| |r resp|r]; js_unfold; try reflexivity.
    - destruct h; reflexivity.
    - destruct (existsb (Nat.eqb t') ts); reflexivity.
    - destruct (lookup r pd) as [[[] k]|], resp; cbv beta iota;
        try reflexivity.
      destruct k; reflexivity.
    - destruct (lookup r pd); reflexivity. }
  fold w in H1, H2, H3.
  assert (Hts : timers w = [t]).
  { destruct H1 as [H1|H1]; rewrite H1 in Ht; [destruct Ht|].
    rewrite H1.
    destruct (Deferred.updateTargetPositionTimeout (self w));
      simpl in Ht; [|destruct Ht].
    destruct Ht as [->|[]]. reflexivity. }
  assert (E1 : w1 = Deferred.step (Fire t) w) by reflexivity.
  rewrite Deferred_fire_live in E1 by (apply existsb_In, Ht).
  rewrite Hts, remove_single, Hid in E1.
  destruct (lookup_snoc_fresh (nextReq w) (GetUnitByID id, KTimer)
              (pending w) H3) as [L1 L2].
  assert (E2 : w2 = Deferred.step
                      (Fulfil (nextReq w) (UnitResponse status position)) w1)
    by reflexivity.
  rewrite E1 in E2. clear H1 H2 H3 Hts Ht Hid.
  destruct w as [[i h [tg cu]] ts nt pd nr ck tr].
  simpl in *. revert E2. js_unfold. rewrite L1. cbv beta iota. rewrite L2.
  unfold Deferred.calculateCurrentPositionState. simpl.
  rewrite Z.gtb_ltb, Z.ltb_irrefl. intros E2.
  repeat split.
  - rewrite E1. reflexivity.
  - apply emitted_app. rewrite E1. simpl. rewrite <- app_assoc. reflexivity.
  - apply Deferred_fire_dead. rewrite E1. reflexivity.
  - rewrite E2. reflexivity.
  - apply emitted_app. rewrite E2, E1. simpl.
    repeat rewrite <- app_assoc. reflexivity.
  - rewrite E2. reflexivity.
Qed.

Lemma deferred_check_snaps_positions_witness :
  let w := Deferred.run [SetTargetPosition 70 1%nat] (Deferred.constructor 5) in
  Deferred.state
    (self (Deferred.step (Fulfil (nextReq w) (UnitResponse 200 40))
             (Deferred.step (Fire 0%nat) w))) =
  Deferred.mkState 40 40.
Proof.
  intros w.
  apply (deferred_check_snaps_positions [SetTargetPosition 70 1%nat] 5 0%nat
           200 40).
  vm_compute. left. reflexivity.
Defined.

(** ** The seed *)

(** X5. The seed read of the constructor stays in flight until it is
    answered or fails, and its answer is assigned to both positions whenever
    it comes: a target set in the meantime, and positions read in the
    meantime, are overwritten.  The answer touches no timer, so a polling
    session started in the meantime goes on. *)
Theorem seed_overwrites_positions :
  forall l status position,
    Forall (fun a => settles 0 a = false) l ->
    (forall p id,
        let w := Polling.run l (Polling.constructor p id) in
        let w' :=
          Polling.step (Fulfil 0%nat (UnitResponse status position)) w in
        Polling.state (self w') = Polling.mkState position position /\
        timers w' = timers w /\
        Polling.updateTargetInterval (self w') =
          Polling.updateTargetInterval (self w) /\
        Polling.intervalDurationSum (self w') =
          Polling.intervalDurationSum (self w)) /\
    (forall id,
        let w := Deferred.run l (Deferred.constructor id) in
        let w' :=
          Deferred.step (Fulfil 0%nat (UnitResponse status position)) w in
        Deferred.state (self w') = Deferred.mkState position position /\
        timers w' = timers w).
Proof.
  intros l status position Hl. split.
  - intros p id w w'.
    assert (Hs : lookup 0 (pending w) = Some (GetUnitByID id, KSeed)).
    { apply (run_invariant_on Polling.handlers
               (fun w => lookup 0 (pending w) = Some (GetUnitByID id, KSeed))
               (fun a => negb (settles 0 a))).
      - intros a w1 Ha. apply Polling_step_keeps_pending.
        apply negb_true_iff, Ha.
      - eapply Forall_impl; [|exact Hl]. simpl. intros a ->. reflexivity.
      - reflexivity. }
    subst w'. destruct w as [[p' i h sum [tg cu]] ts nt pd nr ck tr].
    simpl in Hs. js_unfold. rewrite Hs. cbv beta iota. repeat split.
  - intros id w w'.
    assert (Hs : lookup 0 (pending w) = Some (GetUnitByID id, KSeed)).
    { apply (run_invariant_on Deferred.handlers
               (fun w => lookup 0 (pending w) = Some (GetUnitByID id, KSeed))
               (fun a => negb (settles 0 a))).
      - intros a w1 Ha. apply Deferred_step_keeps_pending.
        apply negb_true_iff, Ha.
      - eapply Forall_impl; [|exact Hl]. simpl. intros a ->. reflexivity.
      - reflexivity. }
    subst w'. destruct w as [[i h [tg cu]] ts nt pd nr ck tr].
    simpl in Hs. js_unfold. rewrite Hs. cbv beta iota. repeat split.
Qed.

Lemma seed_overwrites_positions_witness :
  let l := [SetTargetPosition 70 1%nat; Fire 0%nat;
            Fulfil 2%nat (UnitResponse 200 10)] in
  let w := Polling.run l (Polling.constructor defaultPlatform 5) in
  let w' := Polling.step (Fulfil 0%nat (UnitResponse 200 25)) w in
  Polling.state (self w) = Polling.mkState 70 10 /\
  Polling.state (self w') = Polling.mkState 25 25 /\
  timers w' = [0%nat].
Proof.
  intros l w w'.
  assert (Hl : Forall (fun a => settles 0 a = false) l)
    by (repeat constructor).
  destruct (proj1 (seed_overwrites_positions l 200 25 Hl) defaultPlatform 5)
    as (A & B & _).
  split; [reflexivity|]. split; [exact A|].
  exact (eq_trans B eq_refl).
Defined.

(** ** The session cookie *)

Lemma step_keeps_cookie {S} (H : Handlers S) :
  (forall cb w, sessionCookie (exec (onCurrentPositionGet H cb) w)
                = sessionCookie w) ->
  (forall cb w, sessionCookie (exec (onTargetPositionGet H cb) w)
                = sessionCookie w) ->
  (forall v cb w, sessionCookie (exec (onTargetPositionSet H v cb) w)
                  = sessionCookie w) ->
  (forall cb w, sessionCookie (exec (onPositionStateGet H cb) w)
                = sessionCookie w) ->
  (forall w, sessionCookie (exec (onTimer H) w) = sessionCookie w) ->
  (forall k z w, sessionCookie (exec (resume H k z) w) = sessionCookie w) ->
  forall a w, is_login_answer a = false ->
              sessionCookie (step H a w) = sessionCookie w.
Proof.
  intros H1 H2 H3 H4 H5 H6 a w Ha.
  destruct a as [c|c|v c|c|t| |r resp|r]; simpl; auto.
  - unfold exec, fire. destruct (existsb (Nat.eqb t) (timers w)); auto.
    destruct (oneShot H); unfold bind; simpl.
    + apply (H5 (snd (expire t w))).
    + apply (H5 w).
  - unfold exec, fulfil.
    destruct (lookup r (pending w)) as [[[] k]|], resp; try discriminate Ha;
      auto.
    unfold bind; simpl.
    apply (H6 k currStatus
             (mkWorld (self w) (timers w) (nextTimer w) (drop r (pending w))
                      (nextReq w) (sessionCookie w)
                      (trace w ++ [Log Info (GotUnitDataResponse status)]))).
  - unfold exec, reject. destruct (lookup r (pending w)); auto.
Qed.

(** X6. The session cookie is written by nothing but the answer to a login:
    no handler call, timer, read, command or failure (a failed
    re-authentication included) changes it.  When the hub answers the
    re-authentication request, the cookie is the one of the answer, one line
    is logged and the accessory is untouched. *)
Theorem session_cookie_written_by_login_only :
  forall a,
    is_login_answer a = false ->
    (forall w, sessionCookie (Polling.step a w) = sessionCookie w) /\
    (forall w, sessionCookie (Deferred.step a w) = sessionCookie w) /\
    (forall w, sessionCookie (Simple.step a w) = sessionCookie w) /\
    (forall l p id cookie,
        let w := Polling.run l (Polling.constructor p id) in
        let w1 := Polling.step Reauthenticate w in
        let w2 := Polling.step (Fulfil (nextReq w) (LoginResponse cookie)) w1 in
        sessionCookie w2 = cookie /\
        self w2 = self w /\ timers w2 = timers w /\
        emitted w1 w2 = [Log Info Authenticated]).
Proof.
  intros a Ha. split; [|split; [|split]].
  - intros w. apply step_keeps_cookie; auto; intros;
      match goal with
      | x : World Polling.IFeelShutter |- _ =>
          destruct x as [[p id h sum [tg cu]] ts nt pd nr ck tr]
      end;
      js_unfold;
      try match goal with k : Kont |- _ => destruct k end;
      destruct h; cbv beta iota; split_ifs; reflexivity.
  - intros w. apply step_keeps_cookie; auto; intros;
      match goal with
      | x : World Deferred.IFeelShutter |- _ =>
          destruct x as [[id h [tg cu]] ts nt pd nr ck tr]
      end;
      js_unfold;
      try match goal with k : Kont |- _ => destruct k end;
      destruct h; reflexivity.
  - intros w. apply step_keeps_cookie; auto; intros;
      match goal with
      | x : World Simple.IFeelShutter |- _ =>
          destruct x as [[id [tg cu]] ts nt pd nr ck tr]
      end;
      js_unfold;
      try match goal with k : Kont |- _ => destruct k end;
      reflexivity.
  - intros l p id cookie w w1 w2.
    destruct (Polling_reachable_wf l p id) as (_ & _ & H3). fold w in H3.
    destruct (lookup_snoc_fresh (nextReq w) (AuthLogin, KNone)
                (pending w) H3) as [L1 L2].
    subst w2 w1. clear H3.
    destruct w as [[p' i h sum [tg cu]] ts nt pd nr ck tr].
    simpl in L1, L2. unfold emitted. js_unfold. rewrite L1. cbv beta iota.
    repeat split.
    rewrite skipn_length_app. reflexivity.
Qed.

Lemma session_cookie_written_by_login_only_witness :
  let w := Polling.run [Reauthenticate]
             (Polling.constructor defaultPlatform 5) in
  sessionCookie (Polling.step (Reject 1%nat) w) = sessionCookie w.
Proof.
  intros w.
  apply (proj1 (session_cookie_written_by_login_only (Reject 1%nat) eq_refl)).
Defined.

(** ** The position state getter *)

(** X7. In the three iterations, when the read of [handlePositionStateGet]
    is answered the current position becomes the answer and the callback is
    given the state derived from the answer and the stored target:
    1 (increasing) exactly when the answer is below the target, 0
    (decreasing) exactly when it is above, 2 (stopped) exactly when they are
    equal.  The target, the timers and the accessory's handle are untouched
    and nothing is published to the service. *)
Theorem position_state_read_reports :
  (forall (w : World Polling.IFeelShutter) rid id cb status position,
      lookup rid (pending w) = Some (GetUnitByID id, KPositionStateGet cb) ->
      let w' := Polling.step (Fulfil rid (UnitResponse status position)) w in
      let target := Polling.targetPosition (Polling.state (self w)) in
      exists n,
        emitted w w' = [Log Info (GotUnitDataResponse status);
                        Assign state_currentPosition position;
                        Callback cb (Some n)] /\
        (n = 1 <-> position < target) /\
        (n = 0 <-> position > target) /\
        (n = 2 <-> position = target) /\
        Polling.state (self w') = Polling.mkState target position /\
        timers w' = timers w /\
        Polling.updateTargetInterval (self w') =
          Polling.updateTargetInterval (self w)) /\
  (forall (w : World Deferred.IFeelShutter) rid id cb status position,
      lookup rid (pending w) = Some (GetUnitByID id, KPositionStateGet cb) ->
      let w' := Deferred.step (Fulfil rid (UnitResponse status position)) w in
      let target := Deferred.targetPosition (Deferred.state (self w)) in
      exists n,
        emitted w w' = [Log Info (GotUnitDataResponse status);
                        Assign state_currentPosition position;
                        Callback cb (Some n)] /\
        (n = 1 <-> position < target) /\
        (n = 0 <-> position > target) /\
        (n = 2 <-> position = target) /\
        Deferred.state (self w') = Deferred.mkState target position /\
        timers w' = timers w) /\
  (forall (w : World Simple.IFeelShutter) rid id cb status position,
      lookup rid (pending w) = Some (GetUnitByID id, KPositionStateGet cb) ->
      let w' := Simple.step (Fulfil rid (UnitResponse status position)) w in
      let target := Simple.targetPosition (Simple.state (self w)) in
      exists n,
        emitted w w' = [Log Info (GotUnitDataResponse status);
                        Assign state_currentPosition position;
                        Callback cb (Some n)] /\
        (n = 1 <-> position < target) /\
        (n = 0 <-> position > target) /\
        (n = 2 <-> position = target) /\
        Simple.state (self w') = Simple.mkState target position).
Proof.
  split; [|split].
  - intros [[p i h sum [tg cu]] ts nt pd nr ck tr] rid id cb status position Hl.
    simpl in Hl. unfold emitted. js_unfold. rewrite Hl. cbv beta iota.
    unfold Polling.calculateCurrentPositionState. simpl.
    repeat rewrite <- app_assoc. rewrite skipn_length_app. simpl.
    eexists. split; [reflexivity|].
    destruct (position >? tg) eqn:E1; [|destruct (position <? tg) eqn:E2];
      simpl; repeat split; try discriminate; try reflexivity; lia.
  - intros [[i h [tg cu]] ts nt pd nr ck tr] rid id cb status position Hl.
    simpl in Hl. unfold emitted. js_unfold. rewrite Hl. cbv beta iota.
    unfold Deferred.calculateCurrentPositionState. simpl.
    repeat rewrite <- app_assoc. rewrite skipn_length_app. simpl.
    eexists. split; [reflexivity|].
    destruct (position >? tg) eqn:E1; [|destruct (position <? tg) eqn:E2];
      simpl; repeat split; try discriminate; try reflexivity; lia.
  - intros [[i [tg cu]] ts nt pd nr ck tr] rid id cb status position Hl.
    simpl in Hl. unfold emitted. js_unfold. rewrite Hl. cbv beta iota.
    unfold Simple.currentValue. simpl.
    repeat rewrite <- app_assoc. rewrite skipn_length_app. simpl.
    eexists. split; [reflexivity|].
    destruct (position >? tg) eqn:E1; [|destruct (position <? tg) eqn:E2];
      simpl; repeat split; try discriminate; try reflexivity; lia.
Qed.

Lemma position_state_read_reports_witness :
  let w := Polling.run [Fulfil 0%nat (UnitResponse 200 30);
                        SetTargetPosition 70 1%nat; GetPositionState 7%nat]
             (Polling.constructor defaultPlatform 5) in
  exists n,
    emitted w (Polling.step (Fulfil 2%nat (UnitResponse 200 30)) w) =
      [Log Info (GotUnitDataResponse 200);
       Assign state_currentPosition 30; Callback 7%nat (Some n)] /\
    (n = 1 <-> 30 < 70).
Proof.
  intros w.
  destruct (proj1 position_state_read_reports w 2%nat 5 7%nat 200 30 eq_refl)
    as (n & A & B & _).
  exists n. split; [exact A|exact B].
Defined.

(** ** An interval that accumulates nothing *)

Lemma poll_round_below_cap p t v c k x w :
  x <> v ->
  (k + 1) * pollingInterval p < maxPollingTime p ->
  Polling_session p t v c k w ->
  k * pollingInterval p < maxPollingTime p ->
  Polling_session p t v c (k + 1) (poll_round t x w).
Proof.
  intros Hx Hk1.
  destruct w as [[p' id h sum [tg cu]] ts nt pd nr ck tr].
  intros H Hk. unfold Polling_session in H. simpl in H.
  destruct H as (H3 & -> & -> & H).
  apply Z.ltb_lt in Hk. rewrite Hk in H.
  destruct H as (-> & -> & -> & Hc).
  destruct (lookup_snoc_fresh nr (GetUnitByID id, KTimer) pd H3) as [E1 E2].
  unfold poll_round.
  rewrite Polling_fire_live by (simpl; rewrite Nat.eqb_refl; reflexivity).
  unfold Polling_session. js_unfold. rewrite E1. cbv beta iota. rewrite E2.
  replace (k * pollingInterval p + pollingInterval p)
    with ((k + 1) * pollingInterval p) by lia.
  assert (Hxv : (x =? v) = false) by (apply Z.eqb_neq; exact Hx).
  assert (Eg : ((k + 1) * pollingInterval p >=? maxPollingTime p) = false)
    by (rewrite Z.geb_leb; apply Z.leb_gt; exact Hk1).
  rewrite Eg. cbv beta iota. rewrite Hxv. cbv beta iota.
  apply Z.ltb_lt in Hk1. rewrite Hk1.
  repeat split; auto; try (intros ? ? Hin; apply H3 in Hin; lia).
  count_cap_logs Hc.
Qed.

(** X8. With a polling interval that is zero or negative (a negative
    number of seconds configured gives one) the accumulated time never
    grows: as long as the hub reports positions other than the target, each
    read being answered before the next tick, the timer stays registered
    after any number of ticks and the cap is never logged. *)
Theorem polling_never_capped_without_interval :
  forall l p id v cb positions,
    pollingInterval p <= 0 -> 0 < maxPollingTime p ->
    Forall (fun x => x <> v) positions ->
    let w := Polling.run l (Polling.constructor p id) in
    let w0 := Polling.step (SetTargetPosition v cb) w in
    let wn := poll_rounds (nextTimer w) positions w0 in
    timers wn = [nextTimer w] /\
    Polling.intervalDurationSum (self wn) =
      Z.of_nat (List.length positions) * pollingInterval p /\
    Polling.intervalDurationSum (self wn) <= 0 /\
    cap_logs (trace wn) = cap_logs (trace w0).
Proof.
  intros l p id v cb positions Hpi Hmax Hpos w w0 wn.
  pose proof (Polling_session_start l p id v cb Hmax) as H0.
  cbv zeta in H0. fold w in H0. fold w0 in H0.
  assert (Hn : forall k w1,
             0 <= k ->
             Polling_session p (nextTimer w) v (cap_logs (trace w0)) k w1 ->
             Polling_session p (nextTimer w) v (cap_logs (trace w0))
               (k + Z.of_nat (List.length positions))
               (poll_rounds (nextTimer w) positions w1)).
  { clear H0. induction Hpos as [|x xs Hx Hxs IH]; intros k w1 Hk Hw1.
    - simpl. rewrite Z.add_0_r. exact Hw1.
    - simpl List.length. rewrite Nat2Z.inj_succ.
      replace (k + Z.succ (Z.of_nat (List.length xs)))
        with ((k + 1) + Z.of_nat (List.length xs)) by lia.
      simpl. apply IH; [lia|].
      apply poll_round_below_cap; auto; nia. }
  specialize (Hn 0 w0 (Z.le_refl 0) H0). rewrite Z.add_0_l in Hn.
  fold wn in Hn. unfold Polling_session in Hn.
  destruct Hn as (_ & _ & _ & Hn).
  replace (Z.of_nat (List.length positions) * pollingInterval p
           <? maxPollingTime p) with true in Hn
    by (symmetry; apply Z.ltb_lt; nia).
  destruct Hn as (A & _ & B & C). repeat split; auto. rewrite B. nia.
Qed.

Lemma polling_never_capped_without_interval_witness :
  timers (poll_rounds 0 (repeat 30 100)
            (Polling.step (SetTargetPosition 70 1%nat)
               (Polling.constructor (newPlatform (Some (-1))) 5))) = [0%nat].
Proof.
  assert (H : Forall (fun x => x <> 70) (repeat 30 100)).
  { apply Forall_forall. intros x Hx. apply repeat_spec in Hx. subst.
    discriminate. }
  assert (Hp : pollingInterval (newPlatform (Some (-1))) <= 0)
    by (vm_compute; discriminate).
  apply (polling_never_capped_without_interval [] (newPlatform (Some (-1))) 5
           70 1%nat (repeat 30 100) Hp eq_refl H).
Defined.

(** ** A read of the session before *)

(** X9. A poll read still in flight when a new target is set is not told
    apart from the reads of the new session.  Answered after the setter, it
    is assigned to the current position and adds one interval to the
    accumulator the setter had reset; when it reports the new target it
    clears the new timer, which has not fired yet. *)
Theorem stale_poll_read_joins_new_session :
  forall l p id rid i v cb status position,
    let w := Polling.run l (Polling.constructor p id) in
    lookup rid (pending w) = Some (GetUnitByID i, KTimer) ->
    let w1 := Polling.step (SetTargetPosition v cb) w in
    let w2 := Polling.step (Fulfil rid (UnitResponse status position)) w1 in
    timers w1 = [nextTimer w] /\
    Polling.intervalDurationSum (self w1) = 0 /\
    Polling.intervalDurationSum (self w2) = pollingInterval p /\
    Polling.state (self w2) = Polling.mkState v position /\
    (position = v -> timers w2 = []) /\
    (position <> v -> pollingInterval p < maxPollingTime p ->
     timers w2 = [nextTimer w]).
Proof.
  intros l p id rid i v cb status position w Hl w1 w2.
  destruct (Polling_reachable_wf l p id) as (H1 & _).
  pose proof (Polling_reachable_platform l p id) as Hp.
  fold w in H1, Hp.
  assert (E1 : w1 = Polling.step (SetTargetPosition v cb) w) by reflexivity.
  rewrite Polling_set_world in E1. cbv zeta in E1.
  rewrite H1, timers_without_handle, Hp in E1. simpl in E1.
  assert (L : lookup rid (pending w1) = Some (GetUnitByID i, KTimer)).
  { rewrite E1. simpl. apply lookup_app_some, Hl. }
  clear H1 Hl. subst w2. clearbody w1 w. subst w1.
  destruct w as [[p' i' h sum [tg cu]] ts nt pd nr ck tr].
  simpl in *. clear Hp.
  js_unfold. rewrite L. cbv beta iota.
  replace (0 + pollingInterval p) with (pollingInterval p) by lia.
  destruct (pollingInterval p >=? maxPollingTime p) eqn:Eg; cbv beta iota;
    (destruct (position =? v) eqn:Ev; cbv beta iota;
     [apply Z.eqb_eq in Ev|apply Z.eqb_neq in Ev]);
    try rewrite remove_single; simpl;
    repeat split; auto; try congruence; try contradiction;
    rewrite Z.geb_leb in Eg;
    try (apply Z.leb_le in Eg; intros; lia).
Qed.

Lemma stale_poll_read_joins_new_session_witness :
  let w := Polling.run [SetTargetPosition 70 1%nat; Fire 0%nat]
             (Polling.constructor defaultPlatform 5) in
  let w1 := Polling.step (SetTargetPosition 30 2%nat) w in
  let w2 := Polling.step (Fulfil 2%nat (UnitResponse 200 30)) w1 in
  timers w1 = [1%nat] /\ timers w2 = [].
Proof.
  intros w w1 w2.
  destruct (stale_poll_read_joins_new_session
              [SetTargetPosition 70 1%nat; Fire 0%nat] defaultPlatform 5
              2%nat 5 30 2%nat 200 30 eq_refl) as (A & _ & _ & _ & B & _).
  split; [exact A | exact (B eq_refl)].
Defined.

(** ** Two reads in flight at the cap *)

Lemma drop_app_some rid x l l' :
  lookup rid l = Some x -> drop rid (l ++ l') = drop rid l ++ l'.
Proof.
  induction l as [|[r y] l IH]; simpl; [discriminate|].
  destruct (Nat.eqb r rid); auto. intros H. rewrite IH; auto.
Qed.

Lemma overlapping_rounds_at_cap p t v c k x y w :
  Polling_session p t v c k w ->
  k * pollingInterval p < maxPollingTime p ->
  maxPollingTime p <= (k + 1) * pollingInterval p ->
  0 <= pollingInterval p ->
  x <> v -> y <> v ->
  let w1 := Polling.step (Fire t) (Polling.step (Fire t) w) in
  let w2 := Polling.step (Fulfil (nextReq w) (UnitResponse 200 x)) w1 in
  let w3 := Polling.step
              (Fulfil (Datatypes.S (nextReq w)) (UnitResponse 200 y)) w2 in
  timers w2 = [] /\
  timers w3 = [] /\
  cap_logs (trace w2) = Datatypes.S c /\
  cap_logs (trace w3) = Datatypes.S (Datatypes.S c) /\
  Polling.currentPosition (Polling.state (self w3)) = y /\
  Polling.intervalDurationSum (self w3) = (k + 2) * pollingInterval p.
Proof.
  destruct w as [[p' id h sum [tg cu]] ts nt pd nr ck tr].
  intros H Hk Hk1 Hpi Hx Hy. unfold Polling_session in H. simpl in H.
  destruct H as (H3 & -> & -> & H).
  apply Z.ltb_lt in Hk. rewrite Hk in H.
  destruct H as (-> & -> & -> & Hc).
  destruct (lookup_snoc_fresh nr (GetUnitByID id, KTimer) pd H3) as [E1 E2].
  destruct (lookup_snoc_fresh (Datatypes.S nr) (GetUnitByID id, KTimer) pd)
    as [E3 E4].
  { intros r z Hin. apply H3 in Hin. lia. }
  cbv zeta.
  match goal with
  | |- context [Polling.step (Fire t) (Polling.step (Fire t) ?W)] =>
      rewrite (Polling_fire_live W t)
        by (simpl; rewrite Nat.eqb_refl; reflexivity)
  end.
  rewrite Polling_fire_live by (simpl; rewrite Nat.eqb_refl; reflexivity).
  simpl nextReq. js_unfold.
  rewrite (lookup_app_some _ _ _ _ E1). cbv beta iota.
  rewrite (drop_app_some _ _ _ _ E1), E2.
  replace (k * pollingInterval p + pollingInterval p)
    with ((k + 1) * pollingInterval p) by lia.
  assert (Eg : ((k + 1) * pollingInterval p >=? maxPollingTime p) = true)
    by (rewrite Z.geb_leb; apply Z.leb_le; exact Hk1).
  assert (Eg2 : ((k + 1) * pollingInterval p + pollingInterval p
                 >=? maxPollingTime p) = true)
    by (rewrite Z.geb_leb; apply Z.leb_le; lia).
  assert (Hxv : (x =? v) = false) by (apply Z.eqb_neq; exact Hx).
  assert (Hyv : (y =? v) = false) by (apply Z.eqb_neq; exact Hy).
  rewrite Eg. cbv beta iota. rewrite Hxv. cbv beta iota.
  rewrite E3. cbv beta iota. rewrite E4, Eg2. cbv beta iota.
  rewrite Hyv. cbv beta iota. rewrite remove_single.
  repeat split; try lia; count_cap_logs Hc.
Qed.

(** X15. The cap line is logged once per read answered at or past the cap,
    not once per session.  When the timer fires twice before either read is
    answered and the first answer reaches [maxPollingTime], that answer logs
    the cap and clears the timer, and the second answer, coming after, is
    still assigned to the current position, still adds its interval and logs
    the cap a second time. *)
Theorem overlapping_reads_log_cap_twice :
  forall l p id v cb positions x y,
    0 < pollingInterval p -> 0 < maxPollingTime p ->
    Forall (fun z => z <> v) positions -> x <> v -> y <> v ->
    let w := Polling.run l (Polling.constructor p id) in
    let t := nextTimer w in
    let w0 := Polling.step (SetTargetPosition v cb) w in
    let wk := poll_rounds t positions w0 in
    let k := Z.of_nat (List.length positions) in
    k * pollingInterval p < maxPollingTime p ->
    maxPollingTime p <= (k + 1) * pollingInterval p ->
    let w1 := Polling.step (Fire t) (Polling.step (Fire t) wk) in
    let w2 := Polling.step (Fulfil (nextReq wk) (UnitResponse 200 x)) w1 in
    let w3 := Polling.step
                (Fulfil (Datatypes.S (nextReq wk)) (UnitResponse 200 y)) w2 in
    timers w2 = [] /\
    timers w3 = [] /\
    cap_logs (trace w2) = Datatypes.S (cap_logs (trace w0)) /\
    cap_logs (trace w3) = Datatypes.S (Datatypes.S (cap_logs (trace w0))) /\
    Polling.currentPosition (Polling.state (self w3)) = y /\
    Polling.intervalDurationSum (self w3) = (k + 2) * pollingInterval p.
Proof.
  intros l p id v cb positions x y Hpi Hmax Hpos Hx Hy w t w0 wk k Hk Hk1
         w1 w2 w3.
  pose proof (Polling_session_start l p id v cb Hmax) as H0.
  cbv zeta in H0. fold w in H0. fold w0 in H0. fold t in H0.
  pose proof (poll_rounds_session p t v _ positions Hpi Hpos 0 w0
                (Z.le_refl 0) H0) as Hn.
  fold wk in Hn. rewrite Z.add_0_l in Hn. fold k in Hn.
  assert (Hpi' : 0 <= pollingInterval p) by lia.
  destruct (overlapping_rounds_at_cap p t v _ k x y wk Hn Hk Hk1 Hpi' Hx Hy)
    as (A & B & C & D & E & F).
  repeat split; assumption.
Qed.

Lemma overlapping_reads_log_cap_twice_witness :
  let wk := poll_rounds 0 (repeat 30 23)
              (Polling.step (SetTargetPosition 70 1%nat)
                 (Polling.constructor defaultPlatform 5)) in
  let w1 := Polling.step (Fire 0%nat) (Polling.step (Fire 0%nat) wk) in
  let w2 := Polling.step (Fulfil (nextReq wk) (UnitResponse 200 30)) w1 in
  let w3 := Polling.step
              (Fulfil (Datatypes.S (nextReq wk)) (UnitResponse 200 30)) w2 in
  cap_logs (trace w3) = 2%nat.
Proof.
  assert (H : Forall (fun x => x <> 70) (repeat 30 23)).
  { apply Forall_forall. intros x Hx. apply repeat_spec in Hx. subst.
    discriminate. }
  assert (N : 30 <> 70) by discriminate.
  destruct (overlapping_reads_log_cap_twice [] defaultPlatform 5 70 1%nat
              (repeat 30 23) 30 30 eq_refl eq_refl H N N eq_refl)
    as (_ & _ & _ & A & _).
  - vm_compute. discriminate.
  - exact A.
Defined.

(** ** Discovery *)

Module PlatformFacts.
Import Platform.

Lemma find_cached uuid cache :
  find (fun accessory => String.eqb (UUID accessory) uuid) cache = None <->
  cached uuid cache = false.
Proof.
  unfold cached. induction cache as [|a cache IH]; simpl; [tauto|].
  destruct (String.eqb (UUID a) uuid); simpl; [split; discriminate|exact IH].
Qed.

Lemma find_first uuid cache a :
  find (fun accessory => String.eqb (UUID accessory) uuid) cache = Some a ->
  In a cache /\ UUID a = uuid /\ cached uuid cache = true.
Proof.
  intros H. pose proof (find_some _ _ H) as [Hin He].
  apply String.eqb_eq in He. repeat split; auto.
  unfold cached. apply existsb_exists. exists a. split; auto.
  apply String.eqb_eq, He.
Qed.

Lemma registered_app l l' :
  registered (l ++ l') = registered l ++ registered l'.
Proof. apply flat_map_app. Qed.

Lemma shutters_app l l' : shutters (l ++ l') = shutters l ++ shutters l'.
Proof. apply flat_map_app. Qed.

Lemma listRequests_app l l' :
  listRequests (l ++ l') = (listRequests l + listRequests l')%nat.
Proof. unfold listRequests. rewrite filter_app, length_app. reflexivity. Qed.

Lemma registerDevice_completed generate cache d :
  snd (registerDevice generate cache d) = restorable generate cache d.
Proof.
  unfold registerDevice, restorable.
  destruct (find _ cache) as [a|]; [|reflexivity].
  destruct (constructs a); reflexivity.
Qed.

Lemma registerLoop_step generate rid cache d ds :
  registerLoop generate rid cache (d :: ds) =
  fst (registerDevice generate cache d) ++
  (if restorable generate cache d then registerLoop generate rid cache ds
   else [UnhandledRejection rid]).
Proof.
  simpl. rewrite <- registerDevice_completed.
  destruct (registerDevice generate cache d). reflexivity.
Qed.

Lemma registerLoop_registered generate rid cache ds :
  registered (registerLoop generate rid cache ds) =
  map (newAccessory generate)
      (filter (fun d => negb (cached (generate (id d)) cache))
              (handled generate cache ds)).
Proof.
  induction ds as [|d ds IH]; [reflexivity|].
  rewrite registerLoop_step, registered_app. simpl handled.
  unfold registerDevice, restorable.
  destruct (find _ cache) as [a|] eqn:E.
  - apply find_first in E. destruct E as (_ & _ & Hc).
    destruct (constructs a); simpl; [|reflexivity].
    rewrite Hc. simpl. exact IH.
  - apply find_cached in E. simpl. rewrite E. simpl. rewrite IH. reflexivity.
Qed.

Lemma registerLoop_shutters generate rid cache ds :
  map snd (shutters (registerLoop generate rid cache ds)) =
  map id (handled generate cache ds).
Proof.
  induction ds as [|d ds IH]; [reflexivity|].
  rewrite registerLoop_step, shutters_app, map_app. simpl handled.
  unfold registerDevice, restorable.
  destruct (find _ cache) as [a|].
  - destruct (constructs a); simpl; [rewrite IH|]; reflexivity.
  - simpl. rewrite IH. reflexivity.
Qed.

Lemma registerLoop_throws generate rid cache ds :
  In (UnhandledRejection rid) (registerLoop generate rid cache ds) <->
  handled generate cache ds <> ds.
Proof.
  induction ds as [|d ds IH].
  - simpl. split; [intros []|congruence].
  - rewrite registerLoop_step. simpl handled.
    assert (Hd : ~ In (UnhandledRejection rid)
                   (fst (registerDevice generate cache d))).
    { unfold registerDevice. destruct (find _ cache) as [a|].
      - destruct (constructs a); simpl; intuition discriminate.
      - simpl. intuition discriminate. }
    destruct (restorable generate cache d).
    + split.
      * intros H. apply in_app_or in H. destruct H as [H|H]; [contradiction|].
        apply IH in H. congruence.
      * intros H. apply in_or_app. right. apply IH. congruence.
    + split; [discriminate|]. intros _. apply in_or_app. right. left.
      reflexivity.
Qed.

Lemma handled_sound generate cache ds d :
  In d (handled generate cache ds) -> In d ds.
Proof.
  induction ds as [|d' ds IH]; simpl; [auto|].
  destruct (restorable generate cache d'); simpl; [|intros []].
  intuition.
Qed.

Lemma handled_all generate cache ds :
  Forall (fun a => constructs a = true) cache ->
  handled generate cache ds = ds.
Proof.
  intros Hc. induction ds as [|d ds IH]; [reflexivity|]. simpl.
  replace (restorable generate cache d) with true; [rewrite IH; reflexivity|].
  unfold restorable. destruct (find _ cache) as [a|] eqn:E; [|reflexivity].
  apply find_some in E. destruct E as [Hin _].
  symmetry. rewrite Forall_forall in Hc. apply Hc, Hin.
Qed.

Lemma devices_ids ds :
  map id (map (fun unitData => mkDevice (unit_id unitData) (unit_name unitData))
              ds) = map unit_id ds.
Proof. rewrite map_map. reflexivity. Qed.

Lemma platform_lookup_In rid x l : lookup rid l = Some x -> In (rid, x) l.
Proof.
  induction l as [|[r y] l IH]; simpl; [discriminate|].
  destruct (Nat.eqb r rid) eqn:E.
  - apply Nat.eqb_eq in E. intros [= ->]. subst. auto.
  - auto.
Qed.

Lemma platform_In_drop rid r x l : In (r, x) (drop rid l) -> In (r, x) l.
Proof.
  induction l as [|[r' y] l IH]; simpl; auto.
  destruct (Nat.eqb r' rid); simpl; intuition.
Qed.

Lemma platform_lookup_snoc_fresh rid y l :
  (forall r x, In (r, x) l -> (r < rid)%nat) ->
  lookup rid (l ++ [(rid, y)]) = Some y /\ drop rid (l ++ [(rid, y)]) = l.
Proof.
  induction l as [|[r x] l IH]; simpl; intros H.
  - rewrite Nat.eqb_refl. auto.
  - destruct (Nat.eqb r rid) eqn:E.
    + apply Nat.eqb_eq in E. specialize (H r x (or_introl eq_refl)). lia.
    + destruct IH as [-> ->]; eauto.
Qed.

Lemma listAnswer_world generate rid status data s :
  lookup rid (pending s) = Some (ListUnits, ThenRegister) ->
  step generate (ListAnswer rid status data) s =
  mkPlatform (accessories s) (intervals s) (drop rid (pending s)) (nextReq s)
             (sessionCookie s)
             ((trace s ++ [Log Info (GotAllUnits status)]) ++
              registerLoop generate rid (accessories s) (devices data)).
Proof. simpl. unfold listAnswer. intros ->. reflexivity. Qed.

Lemma emitted_listAnswer generate rid status data s :
  lookup rid (pending s) = Some (ListUnits, ThenRegister) ->
  emitted s (step generate (ListAnswer rid status data) s) =
  Log Info (GotAllUnits status)
  :: registerLoop generate rid (accessories s) (devices data).
Proof.
  intros Hl. rewrite (listAnswer_world _ _ _ _ _ Hl).
  unfold emitted. simpl. rewrite <- app_assoc. apply skipn_length_app.
Qed.

(** X10. When the list of units comes back, the loop takes the units
    whose type is [shutter] in the order of the list and stops at the first
    whose cached accessory carries no [context.device], where the
    constructor of the handler throws.  One handler is made for each shutter
    before that one and for no other unit; the accessories registered are
    exactly those of these shutters whose UUID no cached accessory has, each
    named after its unit.  The rejection is left unhandled exactly when the
    loop stopped early, which no cache whose accessories all carry a
    [context.device] makes it do.  The cache itself is not changed. *)
Theorem discovery_registers_uncached_shutters :
  forall generate rid status data s,
    lookup rid (pending s) = Some (ListUnits, ThenRegister) ->
    let s' := step generate (ListAnswer rid status data) s in
    let done := handled generate (accessories s) (devices data) in
    map snd (shutters (emitted s s')) = map id done /\
    registered (emitted s s') =
      map (newAccessory generate)
          (filter (fun d => negb (cached (generate (id d)) (accessories s)))
                  done) /\
    (In (UnhandledRejection rid) (emitted s s') <-> done <> devices data) /\
    (Forall (fun a => constructs a = true) (accessories s) ->
     done = devices data /\
     map id done =
       map unit_id
           (filter (fun u => String.eqb (unit_type u) "shutter") data)) /\
    accessories s' = accessories s.
Proof.
  intros generate rid status data s Hl s' done. subst done.
  assert (Em : emitted s s' =
               Log Info (GotAllUnits status)
               :: registerLoop generate rid (accessories s) (devices data))
    by (apply emitted_listAnswer, Hl).
  rewrite Em.
  change (shutters (Log Info (GotAllUnits status) :: ?l)) with (shutters l).
  change (registered (Log Info (GotAllUnits status) :: ?l))
    with (registered l).
  split; [apply registerLoop_shutters|].
  split; [apply registerLoop_registered|].
  split; [|split].
  - rewrite <- registerLoop_throws. split.
    + intros [H|H]; [discriminate|exact H].
    + intros H. right. exact H.
  - intros Hc. rewrite (handled_all _ _ _ Hc).
    split; [reflexivity|apply devices_ids].
  - subst s'. rewrite (listAnswer_world _ _ _ _ _ Hl). reflexivity.
Qed.

Lemma discovery_registers_uncached_shutters_witness :
  let generate := fun i => if i =? 1 then "a"%string else "b"%string in
  let launch := [DidFinishLaunching; LoginAnswer 0%nat "c"] in
  let data := [mkUnit 1 "kitchen" "shutter"; mkUnit 2 "lamp" "switch";
               mkUnit 3 "bedroom" "shutter"] in
  let s := run generate
             (ConfigureAccessory
                (mkAccessory "kitchen" "a" (Some (mkDevice 1 "kitchen")))
              :: launch) constructor in
  let broken := run generate
                  (ConfigureAccessory (mkAccessory "kitchen" "a" None)
                   :: launch) constructor in
  registered (emitted s (step generate (ListAnswer 1%nat 200 data) s)) =
    [mkAccessory "bedroom" "b" (Some (mkDevice 3 "bedroom"))] /\
  registered
    (emitted broken (step generate (ListAnswer 1%nat 200 data) broken)) = [].
Proof.
  intros generate launch data s broken. split.
  - destruct (discovery_registers_uncached_shutters generate 1%nat 200 data s
                eq_refl) as (_ & A & _).
    exact A.
  - destruct (discovery_registers_uncached_shutters generate 1%nat 200 data
                broken eq_refl) as (_ & A & _).
    exact A.
Defined.

Lemma devices_from_units data d :
  In d (devices data) ->
  exists u, In u data /\ unit_type u = "shutter"%string /\
            d = mkDevice (unit_id u) (unit_name u).
Proof.
  intros Hd. unfold devices in Hd. apply in_map_iff in Hd.
  destruct Hd as (u & <- & Hu). apply filter_In in Hu.
  destruct Hu as [Hu Ht]. apply String.eqb_eq in Ht. eauto.
Qed.

Lemma registered_uncached generate rid cache ds r :
  In r (registered (registerLoop generate rid cache ds)) ->
  cached (UUID r) cache = false /\
  exists d, In d ds /\ r = newAccessory generate d.
Proof.
  rewrite registerLoop_registered. intros H. apply in_map_iff in H.
  destruct H as (d & <- & Hd). apply filter_In in Hd.
  destruct Hd as [Hd Hc]. apply negb_true_iff in Hc.
  apply handled_sound in Hd. eauto.
Qed.

Lemma shutter_of_device generate rid cache ds a i :
  In (a, i) (shutters (registerLoop generate rid cache ds)) ->
  exists d, In d ds /\ id d = i /\ UUID a = generate i /\
            (cached (generate i) cache = true -> In a cache).
Proof.
  induction ds as [|d ds IH]; [intros []|].
  rewrite registerLoop_step, shutters_app. intros H. apply in_app_or in H.
  destruct H as [H|H].
  - exists d. unfold registerDevice in H.
    destruct (find _ cache) as [a'|] eqn:Ef.
    + destruct (constructs a'); simpl in H; [|destruct H].
      destruct H as [H|[]]. inversion H; subst.
      apply find_first in Ef. destruct Ef as (Hin & Hu & _).
      simpl. auto.
    + simpl in H. destruct H as [H|[]]. inversion H; subst.
      apply find_cached in Ef. simpl. repeat split; auto.
      intros Hc. rewrite Hc in Ef. discriminate.
  - destruct (restorable generate cache d); [|simpl in H; destruct H].
    destruct (IH H) as (d' & Hd' & Hrest). exists d'. simpl. auto.
Qed.

(** X11. Discovery registers nothing twice that the cache knows: no
    registered accessory has the UUID of a cached one, and each comes from a
    unit of type [shutter].  A shutter whose UUID is cached gets its handler
    on a cached accessory with that UUID; every handler is made on an
    accessory with the UUID of its shutter, for a unit of type [shutter]. *)
Theorem discovery_respects_cache :
  forall generate rid status data s,
    lookup rid (pending s) = Some (ListUnits, ThenRegister) ->
    let s' := step generate (ListAnswer rid status data) s in
    (forall r, In r (registered (emitted s s')) ->
               cached (UUID r) (accessories s) = false /\
               exists u, In u data /\ unit_type u = "shutter"%string /\
                         r = newAccessory generate
                               (mkDevice (unit_id u) (unit_name u))) /\
    (forall a i, In (a, i) (shutters (emitted s s')) ->
                 cached (generate i) (accessories s) = true ->
                 In a (accessories s)) /\
    (forall a i, In (a, i) (shutters (emitted s s')) ->
                 UUID a = generate i /\
                 exists u, In u data /\ unit_type u = "shutter"%string /\
                           unit_id u = i).
Proof.
  intros generate rid status data s Hl s'. subst s'.
  rewrite (emitted_listAnswer _ _ _ _ _ Hl). simpl.
  split; [|split].
  - intros r Hr.
    destruct (registered_uncached _ _ _ _ _ Hr) as (Hc & d & Hd & ->).
    split; [exact Hc|].
    destruct (devices_from_units _ _ Hd) as (u & Hu & Ht & ->). eauto.
  - intros a i Ha.
    destruct (shutter_of_device _ _ _ _ _ _ Ha) as (d & _ & _ & _ & H).
    exact H.
  - intros a i Ha.
    destruct (shutter_of_device _ _ _ _ _ _ Ha) as (d & Hd & Hi & Hu & _).
    split; [exact Hu|].
    destruct (devices_from_units _ _ Hd) as (u & Hin & Ht & ->). eauto.
Qed.

Lemma discovery_respects_cache_witness :
  let generate := fun i => if i =? 1 then "a"%string else "b"%string in
  let s := run generate
             [ConfigureAccessory
                (mkAccessory "kitchen" "a" (Some (mkDevice 1 "kitchen")));
              DidFinishLaunching; LoginAnswer 0%nat "c"]
             constructor in
  cached "b" (accessories s) = false.
Proof.
  intros generate s.
  destruct (discovery_respects_cache generate 1%nat 200
              [mkUnit 1 "kitchen" "shutter"; mkUnit 3 "bedroom" "shutter"]
              s eq_refl) as (A & _).
  apply (A (mkAccessory "bedroom" "b" (Some (mkDevice 3 "bedroom")))).
  left. reflexivity.
Defined.

(** X12. An accessory handed to [configureAccessory] is found by the
    discovery that follows: whatever the state and the list of units, no
    accessory with its UUID is registered, and a handler made for a shutter
    with that UUID is made on a cached accessory. *)
Theorem configured_accessory_is_not_registered_again :
  forall generate accessory rid status data s,
    lookup rid (pending s) = Some (ListUnits, ThenRegister) ->
    let s1 := step generate (ConfigureAccessory accessory) s in
    let s2 := step generate (ListAnswer rid status data) s1 in
    In accessory (accessories s1) /\
    (forall r, In r (registered (emitted s1 s2)) ->
               UUID r <> UUID accessory) /\
    (forall a i, In (a, i) (shutters (emitted s1 s2)) ->
                 generate i = UUID accessory ->
                 In a (accessories s1) /\ UUID a = UUID accessory).
Proof.
  intros generate accessory rid status data s Hl s1 s2.
  assert (Hin : In accessory (accessories s1))
    by (simpl; apply in_or_app; right; left; reflexivity).
  assert (Hc : cached (UUID accessory) (accessories s1) = true).
  { unfold cached. apply existsb_exists. exists accessory.
    split; [exact Hin|apply String.eqb_refl]. }
  assert (Hl1 : lookup rid (pending s1) = Some (ListUnits, ThenRegister))
    by exact Hl.
  subst s2. rewrite (emitted_listAnswer _ _ _ _ _ Hl1).
  change (registered (Log Info (GotAllUnits status) :: ?l))
    with (registered l).
  change (shutters (Log Info (GotAllUnits status) :: ?l)) with (shutters l).
  split; [exact Hin|split].
  - intros r Hr E. destruct (registered_uncached _ _ _ _ _ Hr) as (Hr' & _).
    rewrite E, Hc in Hr'. discriminate.
  - intros a i Ha E.
    destruct (shutter_of_device _ _ _ _ _ _ Ha) as (d & _ & _ & Hu & H).
    split; [apply H; rewrite E; exact Hc|rewrite Hu; exact E].
Qed.

Lemma configured_accessory_is_not_registered_again_witness :
  let generate := fun i => if i =? 1 then "a"%string else "b"%string in
  let s := run generate [DidFinishLaunching; LoginAnswer 0%nat "c"]
             constructor in
  let kitchen := mkAccessory "kitchen" "a" (Some (mkDevice 1 "kitchen")) in
  let s1 := step generate (ConfigureAccessory kitchen) s in
  let s2 := step generate
              (ListAnswer 1%nat 200 [mkUnit 1 "kitchen" "shutter"]) s1 in
  In kitchen (accessories s1).
Proof.
  intros generate s kitchen s1 s2.
  apply (configured_accessory_is_not_registered_again generate kitchen 1%nat
           200 [mkUnit 1 "kitchen" "shutter"] s eq_refl).
Defined.

(** ** Launch *)

Lemma platform_run_invariant generate (P : IFeelPlatform -> Prop)
      (ok : Action -> bool) :
  (forall a s, ok a = true -> P s -> P (step generate a s)) ->
  forall l, Forall (fun a => ok a = true) l ->
  forall s, P s -> P (run generate l s).
Proof.
  intros Hstep l Hl. induction Hl as [|a l Ha Hl IH]; simpl; intros s Hs; auto.
Qed.

Lemma platform_snoc_bound (pd : list (nat * (Request * Then))) nr y :
  (forall r x, In (r, x) pd -> (r < nr)%nat) ->
  forall r x, In (r, x) (pd ++ [(nr, y)]) -> (r < Datatypes.S nr)%nat.
Proof.
  intros H r x Hin. apply in_app_or in Hin. destruct Hin as [Hin|[Hin|[]]].
  - apply H in Hin. lia.
  - inversion Hin. lia.
Qed.

Lemma step_wf generate a s : wf s -> wf (step generate a s).
Proof.
  destruct s as [cache n pd nr ck tr]. unfold wf. simpl. intros H.
  pose proof (fun y => platform_snoc_bound pd nr y H) as Hsnoc.
  assert (Hdrop : forall q r x, In (r, x) (drop q pd) -> (r < nr)%nat)
    by (intros q r x Hin; apply platform_In_drop in Hin; eauto).
  destruct a as [acc| | |rid c|rid st data|rid]; simpl; eauto.
  - unfold reauthenticate. simpl. destruct n; simpl; eauto.
  - unfold loginAnswer. simpl.
    destruct (lookup rid pd) as [[[] k]|]; simpl; eauto.
    destruct k; simpl; eauto.
    intros r x Hin. apply in_app_or in Hin. destruct Hin as [Hin|[Hin|[]]].
    + apply Hdrop in Hin. lia.
    + inversion Hin. lia.
  - unfold listAnswer. simpl.
    destruct (lookup rid pd) as [[[] k]|]; simpl; eauto.
    destruct k; simpl; eauto.
  - unfold failure. simpl. destruct (lookup rid pd); simpl; eauto.
Qed.

Lemma reachable_wf generate l : wf (run generate l constructor).
Proof.
  apply (platform_run_invariant generate wf (fun _ => true)).
  - intros a s _. apply step_wf.
  - apply Forall_forall. reflexivity.
  - intros r x [].
Qed.

Ltac count_discovery Hs Hr Hn :=
  repeat split; auto;
  [ repeat rewrite shutters_app; rewrite Hs; reflexivity
  | repeat rewrite registered_app; rewrite Hr; reflexivity
  | repeat rewrite listRequests_app; rewrite Hn; reflexivity ].

Lemma step_undiscovered generate a s :
  negb (isLaunch a) = true ->
  undiscovered s -> undiscovered (step generate a s).
Proof.
  destruct s as [cache n pd nr ck tr]. unfold undiscovered. simpl.
  intros Ha (Hp & Hs & Hr & Hn).
  assert (Hdrop : forall q r x, In (r, x) (drop q pd) ->
                                x = (AuthLogin, ThenNothing))
    by (intros q r x Hin; apply platform_In_drop in Hin; eauto).
  destruct a as [acc| | |rid c|rid st data|rid]; try discriminate Ha; simpl.
  - count_discovery Hs Hr Hn.
  - unfold reauthenticate. simpl. destruct n; simpl; [auto|].
    split.
    + intros r x Hin. apply in_app_or in Hin.
      destruct Hin as [Hin|[Hin|[]]]; [eauto|]. inversion Hin. reflexivity.
    + count_discovery Hs Hr Hn.
  - unfold loginAnswer. simpl.
    destruct (lookup rid pd) as [[q k]|] eqn:El; [|auto].
    apply platform_lookup_In, Hp in El. inversion El; subst. simpl.
    split; [exact (Hdrop rid)|]. count_discovery Hs Hr Hn.
  - unfold listAnswer. simpl.
    destruct (lookup rid pd) as [[q k]|] eqn:El; [|auto].
    apply platform_lookup_In, Hp in El. inversion El; subst. simpl. auto.
  - unfold failure. simpl. destruct (lookup rid pd); simpl; [|auto].
    split; [exact (Hdrop rid)|]. count_discovery Hs Hr Hn.
Qed.

Lemma constructor_undiscovered : undiscovered constructor.
Proof. unfold undiscovered. simpl. repeat split. intros r x []. Qed.

(** X13. Discovery hangs on the authentication of the launch alone.  When
    that request fails, no list of units is ever asked for, no accessory
    handler is made and nothing is registered, whatever comes later short of
    a second launch: re-authentications that succeed do not start it. *)
Theorem failed_launch_authentication_discovers_nothing :
  forall generate before after,
    Forall (fun a => negb (isLaunch a) = true) before ->
    Forall (fun a => negb (isLaunch a) = true) after ->
    let s := run generate before constructor in
    let s1 := step generate DidFinishLaunching s in
    let s2 := step generate (Failure (nextReq s)) s1 in
    let s3 := run generate after s2 in
    In (nextReq s, (AuthLogin, ThenDiscoverDevices)) (pending s1) /\
    listRequests (trace s3) = 0%nat /\
    shutters (trace s3) = [] /\
    registered (trace s3) = [].
Proof.
  intros generate before after Hb Ha s s1 s2 s3.
  pose proof (reachable_wf generate before) as Hwf. fold s in Hwf.
  assert (Hu : undiscovered s).
  { apply (platform_run_invariant generate undiscovered
             (fun a => negb (isLaunch a))); auto.
    - intros a s0. apply step_undiscovered.
    - apply constructor_undiscovered. }
  assert (H2 : undiscovered s2).
  { subst s2 s1. clearbody s. clear s3.
    destruct s as [cache n pd nr ck tr]. unfold undiscovered, wf in *.
    simpl in *. destruct Hu as (Hp & Hs & Hr & Hn).
    unfold failure. simpl.
    destruct (platform_lookup_snoc_fresh nr (AuthLogin, ThenDiscoverDevices)
                pd Hwf) as [L1 L2].
    rewrite L1. simpl. rewrite L2.
    split; [exact Hp|]. count_discovery Hs Hr Hn. }
  assert (H3 : undiscovered s3).
  { apply (platform_run_invariant generate undiscovered
             (fun a => negb (isLaunch a))); auto.
    intros a s0. apply step_undiscovered. }
  destruct H3 as (_ & A & B & C). split; [|auto].
  simpl. apply in_or_app. right. left. reflexivity.
Qed.

Lemma failed_launch_authentication_discovers_nothing_witness :
  let generate := fun i : Z => "a"%string in
  let after := [ReauthenticationTick; LoginAnswer 1%nat "c";
                ListAnswer 1%nat 200 [mkUnit 1 "kitchen" "shutter"]] in
  let s := run generate after
             (step generate (Failure 0%nat)
                (step generate DidFinishLaunching constructor)) in
  sessionCookie s = "c"%string /\ registered (trace s) = [].
Proof.
  intros generate after s.
  assert (Ha : Forall (fun a => negb (isLaunch a) = true) after)
    by (repeat constructor).
  destruct (failed_launch_authentication_discovers_nothing generate [] after
              (Forall_nil _) Ha) as (_ & _ & _ & A).
  split; [reflexivity|exact A].
Defined.

(** X14. The launch, when its requests are answered: the listener logs,
    sends the login and sets the re-authentication interval; the answer to
    that login is logged, its cookie is stored and the list of units is asked
    for, once; the answer to the list is logged and runs the registration
    loop against the cache as it is then, up to the first shutter whose
    cached accessory makes the handler's constructor throw, and leaves no
    request of the launch in flight. *)
Theorem launch_authenticates_then_discovers :
  forall generate l cookie status data,
    let s := run generate l constructor in
    let s1 := step generate DidFinishLaunching s in
    let s2 := step generate (LoginAnswer (nextReq s) cookie) s1 in
    let s3 := step generate
                (ListAnswer (Datatypes.S (nextReq s)) status data) s2 in
    emitted s s1 = [Log Debug ExecutedDidFinishLaunching;
                    Log Info SendingAuthentication;
                    Http (nextReq s) AuthLogin;
                    SetInterval] /\
    intervals s1 = Datatypes.S (intervals s) /\
    emitted s1 s2 = [Log Info Authenticated;
                     Log Info GettingAllUnits;
                     Http (Datatypes.S (nextReq s)) ListUnits] /\
    sessionCookie s2 = cookie /\
    emitted s2 s3 =
      Log Info (GotAllUnits status)
      :: registerLoop generate (Datatypes.S (nextReq s)) (accessories s)
                      (devices data) /\
    pending s3 = pending s.
Proof.
  intros generate l cookie status data s s1 s2 s3.
  pose proof (reachable_wf generate l) as Hwf. fold s in Hwf.
  subst s3 s2 s1. clearbody s.
  destruct s as [cache n pd nr ck tr]. unfold wf in Hwf. simpl in Hwf.
  destruct (platform_lookup_snoc_fresh nr (AuthLogin, ThenDiscoverDevices)
              pd Hwf) as [L1 L2].
  destruct (platform_lookup_snoc_fresh (Datatypes.S nr)
              (ListUnits, ThenRegister) pd) as [L3 L4].
  { intros r x Hin. apply Hwf in Hin. lia. }
  set (s0 := mkPlatform cache n pd nr ck tr).
  set (t1 := tr ++ [Log Debug ExecutedDidFinishLaunching;
                    Log Info SendingAuthentication;
                    Http nr AuthLogin; SetInterval]).
  set (t2 := t1 ++ [Log Info Authenticated; Log Info GettingAllUnits;
                    Http (Datatypes.S nr) ListUnits]).
  assert (E1 : step generate DidFinishLaunching s0 =
               mkPlatform cache (Datatypes.S n)
                 (pd ++ [(nr, (AuthLogin, ThenDiscoverDevices))])
                 (Datatypes.S nr) ck t1).
  { subst t1 s0. simpl. unfold didFinishLaunching, authenticate, send, emit.
    simpl. repeat rewrite <- app_assoc. reflexivity. }
  rewrite E1.
  assert (E2 : step generate (LoginAnswer nr cookie)
                 (mkPlatform cache (Datatypes.S n)
                    (pd ++ [(nr, (AuthLogin, ThenDiscoverDevices))])
                    (Datatypes.S nr) ck t1) =
               mkPlatform cache (Datatypes.S n)
                 (pd ++ [(Datatypes.S nr, (ListUnits, ThenRegister))])
                 (Datatypes.S (Datatypes.S nr)) cookie t2).
  { subst t2. simpl. unfold loginAnswer. simpl. rewrite L1.
    unfold discoverDevices, getShuttersData, send, storeCookie, emit, forget.
    simpl. rewrite L2. repeat rewrite <- app_assoc. reflexivity. }
  simpl nextReq. rewrite E2.
  assert (E3 : step generate (ListAnswer (Datatypes.S nr) status data)
                 (mkPlatform cache (Datatypes.S n)
                    (pd ++ [(Datatypes.S nr, (ListUnits, ThenRegister))])
                    (Datatypes.S (Datatypes.S nr)) cookie t2) =
               mkPlatform cache (Datatypes.S n) pd
                 (Datatypes.S (Datatypes.S nr)) cookie
                 (t2 ++ Log Info (GotAllUnits status)
                     :: registerLoop generate (Datatypes.S nr) cache
                                     (devices data))).
  { simpl. unfold listAnswer. simpl. rewrite L3.
    unfold registerDevices, emit, forget. simpl. rewrite L4.
    rewrite <- app_assoc. reflexivity. }
  rewrite E3. unfold emitted. subst s0. simpl.
  repeat split.
  - subst t1. apply skipn_length_app.
  - subst t2. apply skipn_length_app.
  - apply skipn_length_app.
Qed.

End PlatformFacts.
